(** * Quiz extraction and reconstruction (streamlit_app.py)

    A shallow embedding of [extract_quiz_content_from_docx] (the paragraph
    filter) and of [generate_quiz_html] (the index scan that rebuilds
    question records and renders them), with the properties of the
    reconstruction pipeline proved about it.

    Python [str] values are sequences of Unicode code points; they are
    modelled as lists of [N].  The two Unicode tables the program reaches
    through the standard library, the decimal digits matched by [\d] and the
    lower-casing of [str.lower], are parameters of the development. *)

From Stdlib Require Import String Ascii NArith ZArith Lia Bool List.
Import ListNotations.

Open Scope N_scope.

(** ** Python strings *)

Module PyStr.

Definition char := N.
Definition str := list char.

(** An ASCII literal as a Python string. *)
Definition lit (s : string) : str := map N_of_ascii (list_ascii_of_string s).

(** The truth value of a string: [if s:]. *)
Definition nonempty (s : str) : bool :=
  match s with [] => false | _ :: _ => true end.

(** [str.isspace] for one code point: the characters [str.strip()] removes. *)
Definition is_space (c : char) : bool :=
  ((9 <=? c) && (c <=? 13)) || ((28 <=? c) && (c <=? 32))
  || (c =? 133) || (c =? 160) || (c =? 5760)
  || ((8192 <=? c) && (c <=? 8202))
  || (c =? 8232) || (c =? 8233) || (c =? 8239) || (c =? 8287)
  || (c =? 12288).

Fixpoint lstrip (s : str) : str :=
  match s with
  | [] => []
  | c :: s' => if is_space c then lstrip s' else s
  end.

Definition rstrip (s : str) : str := rev (lstrip (rev s)).

(** [s.strip()] *)
Definition strip (s : str) : str := rstrip (lstrip s).

(** [s.startswith(p)] *)
Fixpoint startswith (s p : str) : bool :=
  match p, s with
  | [], _ => true
  | _ :: _, [] => false
  | a :: p', b :: s' => (a =? b) && startswith s' p'
  end.

(** [s.find(sub)], scanning from position [pos]; -1 when absent. *)
Fixpoint find_from (s sub : str) (pos : Z) : Z :=
  if startswith s sub then pos
  else match s with
       | [] => (-1)%Z
       | _ :: s' => find_from s' sub (pos + 1)
       end.

Definition find (s sub : str) : Z := find_from s sub 0.

(** [s.split(sep, 1)] for a one-character separator: the part before the
    first [sep] and, when [sep] occurs, the part after it.  The Python list
    has one or two elements. *)
Fixpoint split1 (sep : char) (s : str) : str * option str :=
  match s with
  | [] => ([], None)
  | c :: s' =>
      if c =? sep then ([], Some s')
      else let '(h, t) := split1 sep s' in (c :: h, t)
  end.

(** [parts[0]], [parts[1]] and [parts[-1]] of such a list. *)
Definition part0 (parts : str * option str) : str := fst parts.
Definition part1 (parts : str * option str) : option str := snd parts.
Definition part_last (parts : str * option str) : str :=
  match snd parts with Some t => t | None => fst parts end.

Definition len (s : str) : Z := Z.of_nat (length s).

(** [s[:k]] with Python's treatment of negative and oversized bounds. *)
Definition slice_to (s : str) (k : Z) : str :=
  let k' := if (k <? 0)%Z then Z.max 0 (k + len s) else k in
  firstn (Z.to_nat k') s.

(** [s[k:]] *)
Definition slice_from (s : str) (k : Z) : str :=
  let k' := if (k <? 0)%Z then Z.max 0 (k + len s) else k in
  skipn (Z.to_nat k') s.

(** [sep.join(items)] *)
Fixpoint join (sep : str) (items : list str) : str :=
  match items with
  | [] => []
  | [x] => x
  | x :: rest => x ++ sep ++ join sep rest
  end.

End PyStr.

Import PyStr.

(** ** The regular expressions of the program *)

Module Re.

Definition dot : char := 46.
Definition space : char := 32.
Definition newline : char := 10.

(** [[A-D]] and [[B-D]] *)
Definition is_AD (c : char) : bool := (65 <=? c) && (c <=? 68).
Definition is_BD (c : char) : bool := (66 <=? c) && (c <=? 68).

(** The answer marker ['âœ… Answer:'] (code points U+00E2, U+0153, U+2026,
    then [" Answer:"]). *)
Definition answer_marker : str := [226; 339; 8230] ++ lit " Answer:".

Section Patterns.

(** [\d] on [str]: the Unicode decimal digits. *)
Variable decimal : char -> bool.

(** [re.match(r'^\d{1,2}\. .*', s)] as a truth value.  The trailing [.*]
    accepts the empty string, so only the prefix decides. *)
Definition match_question (s : str) : bool :=
  match s with
  | d1 :: c2 :: c3 :: s' =>
      decimal d1 &&
      ((match s' with
        | c4 :: _ => decimal c2 && (c3 =? dot) && (c4 =? space)
        | [] => false
        end)
       || ((c2 =? dot) && (c3 =? space)))
  | _ => false
  end.

(** [re.match(r'^\d{1,2}\. .*|âœ… Answer:.*', s)] *)
Definition match_boundary (s : str) : bool :=
  match_question s || startswith s answer_marker.

End Patterns.

(** [re.match(r'^[A-D]\. ', s)]; [r'^[A-D]\. .*'] succeeds on the same
    strings. *)
Definition match_option (s : str) : bool :=
  match s with
  | c :: d :: sp :: _ => is_AD c && (d =? dot) && (sp =? space)
  | _ => false
  end.

(** [.+] at the start of [s]: one character other than a newline. *)
Definition match_dot_plus (s : str) : bool :=
  match s with
  | c :: _ => negb (c =? newline)
  | [] => false
  end.

(** [re.match(r'([A-D]\. )?(.+)', s)]: the optional group is tried first and
    given up when [.+] cannot follow it. *)
Definition match_answer (s : str) : bool :=
  (match s with
   | c :: d :: sp :: s' =>
       is_AD c && (d =? dot) && (sp =? space) && match_dot_plus s'
   | _ => false
   end)
  || match_dot_plus s.

(** [re.split(r'([B-D]\. )', s)]: the pieces between the successive
    leftmost matches, with each matched delimiter kept between them.
    [piece] holds the current piece, last character first. *)
Fixpoint split_BD_from (piece : str) (s : str) : list str :=
  match s with
  | [] => [rev piece]
  | c :: s' =>
      match s' with
      | d :: sp :: s'' =>
          if is_BD c && (d =? dot) && (sp =? space)
          then rev piece :: [c; d; sp] :: split_BD_from [] s''
          else split_BD_from (c :: piece) s'
      | _ => split_BD_from (c :: piece) s'
      end
  end.

Definition split_BD (s : str) : list str := split_BD_from [] s.

End Re.

Import Re.

(** ** The line classifier: [extract_quiz_content_from_docx]

    The document reader is outside the program; the function is modelled
    from the list of paragraph texts it iterates over. *)

Module Classifier.

Section Classifier.

Variable decimal : char -> bool.

(** [str.lower] *)
Variable lower : str -> str.

(** The [for para in document.paragraphs] loop, [content_lines] being the
    list built so far. *)
Fixpoint classify_loop (paragraphs content_lines : list str) : list str :=
  match paragraphs with
  | [] => content_lines
  | para :: paragraphs' =>
      let text := strip para in
      if nonempty text then
        if match_question decimal text then
          classify_loop paragraphs' (content_lines ++ [text])
        else if startswith text answer_marker then
          classify_loop paragraphs' (content_lines ++ [text])
        else if match_option text
                || startswith (lower text) (lit "to increase profit")
                || startswith (lower text) (lit "they eliminate human")
                || startswith (lower text) (lit "using encryption to") then
          classify_loop paragraphs' (content_lines ++ [text])
        else classify_loop paragraphs' content_lines
      else classify_loop paragraphs' content_lines
  end.

Definition extract_quiz_content_from_docx (paragraphs : list str)
  : list str :=
  classify_loop paragraphs [].

(** The four shapes of line the specification lists, and their union. *)
Definition question_header (s : str) : bool := match_question decimal s.
Definition option_line (s : str) : bool := match_option s.
Definition answer_line (s : str) : bool := startswith s answer_marker.
Definition continuation_prefixes : list str :=
  [lit "to increase profit"; lit "they eliminate human";
   lit "using encryption to"].
Definition continuation_line (s : str) : bool :=
  existsb (startswith (lower s)) continuation_prefixes.

Definition quiz_line (s : str) : bool :=
  question_header s || option_line s || answer_line s || continuation_line s.

End Classifier.

End Classifier.

(** ** The reconstructor: [generate_quiz_html] *)

Module Reconstructor.

(** The dictionary bound to [current_question]. *)
Record question := Question {
  number : str;
  text : str;
  options : list str;
  answer : str
}.

Inductive exn := KeyError | IndexError.

(** What running a piece of the program gives: a value, a Python exception,
    or no answer within the iterations allowed. *)
Inductive outcome (A : Type) :=
| Return (a : A)
| Raise (e : exn)
| OutOfFuel.
Arguments Return {A} a.
Arguments Raise {A} e.
Arguments OutOfFuel {A}.

Definition bind {A B} (m : outcome A) (k : A -> outcome B) : outcome B :=
  match m with
  | Return a => k a
  | Raise e => Raise e
  | OutOfFuel => OutOfFuel
  end.

Notation "x <- m ;; k" := (bind m (fun x => k))
  (at level 61, m at next level, right associativity).
Notation "' p <- m ;; k" := (bind m (fun x => let p := x in k))
  (at level 61, p pattern, m at next level, right associativity).

(** The variables of [generate_quiz_html].  [current_question] is [None]
    for the empty dictionary the function starts with.  [emitted] is a
    history variable: the dictionaries bound to [current_question] so far,
    each as it stands at the end of the iteration that built it. *)
Record state := State {
  html_output : list str;
  current_question : option question;
  in_question_block : bool;
  i : nat;
  emitted : list question
}.

Definition init : state :=
  {| html_output := []; current_question := None;
     in_question_block := false; i := 0; emitted := [] |}.

Definition colon : char := 58.

(** The three f-strings. *)
Definition answer_html (a : str) : str :=
  lit "<p><b>" ++ [226; 339; 8221] ++ lit " Correct Answer</b>: " ++ a
  ++ lit "</p>".
Definition question_html (q_num q_text : str) : str :=
  lit "<p>" ++ q_num ++ lit ". <b>" ++ q_text ++ lit "</b></p>".
Definition option_html (opt : str) : str :=
  lit "<p>" ++ [226; 8364; 162] ++ lit " " ++ opt ++ lit "</p>".

(** [current_question["answer"]] *)
Definition lookup_answer (cq : option question) : outcome str :=
  match cq with
  | Some q => Return (answer q)
  | None => Raise KeyError
  end.

(** The closing block appended when a question is open. *)
Definition close_block (st : state) : outcome (list str) :=
  if in_question_block st then
    a <- lookup_answer (current_question st) ;;
    Return (html_output st ++ [answer_html a])
  else Return (html_output st).

(** One round of the [for item in options_list] loop. *)
Definition regroup_step (acc : list str * str) (item : str)
  : list str * str :=
  let '(final_options, temp_opt) := acc in
  if match_option item then
    ((if nonempty temp_opt then final_options ++ [strip temp_opt]
      else final_options), item)
  else (final_options, temp_opt ++ item).

(** Option segmentation: [re.split] on the B./C./D. delimiters, then the
    regrouping loop and its final flush. *)
Definition segment_options (options_block : str) : list str :=
  let options_list := split_BD options_block in
  let '(final_options, temp_opt) :=
    fold_left regroup_step options_list ([], []) in
  if nonempty temp_opt then final_options ++ [strip temp_opt]
  else final_options.

(** The question/option split of a merged question block: the pair
    [(q_text, final_options)]. *)
Definition split_question (question_block : str)
  : outcome (str * list str) :=
  let a_pos := find question_block (lit "A.") in
  if negb (a_pos =? -1)%Z then
    match part1 (split1 dot question_block) with
    | None => Raise IndexError
    | Some after =>
        let q_text :=
          strip (slice_to after
                   (a_pos - len (part0 (split1 dot question_block)) - 1)) in
        let options_block := strip (slice_from question_block a_pos) in
        Return (q_text, segment_options options_block)
    end
  else
    match part1 (split1 dot question_block) with
    | None => Raise IndexError
    | Some after => Return (strip after, [])
    end.

(** The [for opt in current_question["options"]] loop. *)
Definition option_blocks (opts : list str) : list str :=
  map option_html (filter nonempty opts).

Section Scan.

Variable decimal : char -> bool.

(** The inner [while]: [rest] is [quiz_content_lines[next_index:]].  It
    returns the merged block, the final [next_index] and the lines from
    there on. *)
Fixpoint sweep (rest : list str) (question_block : str) (next_index : nat)
  : str * nat * list str :=
  match rest with
  | [] => (question_block, next_index, [])
  | l :: rest' =>
      if negb (match_boundary decimal (strip l)) then
        sweep rest' (question_block ++ strip l) (next_index + 1)
      else (question_block, next_index, rest)
  end.

(** The branch of the loop body taken on a question header.  [rest] is
    [quiz_content_lines[i+1:]]. *)
Definition on_header (line : str) (rest : list str) (st : state)
  : outcome state :=
  html1 <- close_block st ;;
  let parts := split1 dot line in
  let q_num := strip (part0 parts) in
  let '(question_block, next_index, rest') :=
    sweep rest line (i st + 1) in
  '(q_text, final_options) <- split_question question_block ;;
  let q := {| number := q_num; text := q_text;
              options := final_options; answer := [] |} in
  let html2 := html1 ++ [question_html q_num (text q)] in
  let html3 := html2 ++ option_blocks (options q) in
  let answer_index := next_index in
  match rest' with
  | l :: _ =>
      if startswith (strip l) answer_marker then
        let answer_line := strip l in
        let answer_text := strip (part_last (split1 colon answer_line)) in
        let q' :=
          if match_answer answer_text then
            {| number := number q; text := text q; options := options q;
               answer := answer_text |}
          else q in
        Return {| html_output := html3; current_question := Some q';
                  in_question_block := true; i := answer_index + 1;
                  emitted := emitted st ++ [q'] |}
      else
        Return {| html_output := html3; current_question := Some q;
                  in_question_block := true; i := (next_index - 1) + 1;
                  emitted := emitted st ++ [q] |}
  | [] =>
      Return {| html_output := html3; current_question := Some q;
                in_question_block := true; i := (next_index - 1) + 1;
                emitted := emitted st ++ [q] |}
  end.

Definition advance (st : state) : state :=
  {| html_output := html_output st; current_question := current_question st;
     in_question_block := in_question_block st; i := i st + 1;
     emitted := emitted st |}.

(** The body of the outer [while], entered with [i < len(lines)]. *)
Definition iteration (lines : list str) (st : state) : outcome state :=
  match skipn (i st) lines with
  | [] => Raise IndexError
  | raw :: rest =>
      let line := strip raw in
      if negb (nonempty line) then Return (advance st)
      else if match_question decimal line then on_header line rest st
      else Return (advance st)
  end.

(** The outer [while i < len(quiz_content_lines)], at most [fuel] rounds. *)
Fixpoint loop (fuel : nat) (lines : list str) (st : state) : outcome state :=
  if (i st <? length lines)%nat then
    match fuel with
    | O => OutOfFuel
    | S fuel' => st' <- iteration lines st ;; loop fuel' lines st'
    end
  else Return st.

(** Each round moves [i] forward, so [len(lines)] rounds are enough. *)
Definition scan (lines : list str) : outcome state :=
  loop (length lines) lines init.

(** The blocks of [html_output] when the function returns. *)
Definition blocks (lines : list str) : outcome (list str) :=
  st <- scan lines ;; close_block st.

(** The records built during the scan, in order. *)
Definition records (lines : list str) : outcome (list question) :=
  st <- scan lines ;; Return (emitted st).

Definition generate_quiz_html (lines : list str) : outcome str :=
  html <- blocks lines ;;
  Return ([newline; newline] ++ join [newline] html).

End Scan.

End Reconstructor.

Import Reconstructor.

(** ** The page and the conversion: [generate_full_html_template], [main] *)

Module Page.

Definition quote : str := [34].
Definition nl : str := [10].

(** The text of the f-string before [{quiz_html_content}], its doubled
    braces read as single ones. *)
Definition template_head : str :=
  concat [
    nl;
    lit "<!doctype html>"; nl;
    lit "<html lang="; quote; lit "en"; quote; lit ">"; nl;
    nl;
    lit "<head>"; nl;
    nl;
    lit "    <meta charset="; quote; lit "utf-8"; quote; lit ">"; nl;
    lit "    <meta name="; quote; lit "viewport"; quote; lit " content=";
    quote; lit "width=device-width, initial-scale=1"; quote; lit ">"; nl;
    lit "    <link href="; quote;
    lit "https://cdn.jsdelivr.net/npm/bootstrap@5.0.2/dist/css/bootstrap.min.css";
    quote; lit " rel="; quote; lit "stylesheet"; quote; nl;
    lit "        integrity="; quote;
    lit "sha384-EVSTQN3/azprG1Anm3QDgpJLIm9Nao0Yz1ztcQTwFspd3yD65VohhpuuCOmLASjC";
    quote; lit " crossorigin="; quote; lit "anonymous"; quote; lit ">"; nl;
    lit "    <link href="; quote;
    lit "https://fonts.googleapis.com/css2?family=Red+Hat+Display:wght@400;700&display=swap";
    quote; lit " rel="; quote; lit "stylesheet"; quote; lit ">"; nl;
    nl;
    lit "    <style>"; nl;
    lit "        img.capdevlogo {"; nl;
    lit "            position: relative;"; nl;
    lit "            left: 55px;"; nl;
    lit "            top: 12px;"; nl;
    lit "        }"; nl;
    lit "    </style>"; nl;
    nl;
    lit "    <style>"; nl;
    lit "        img.harbingerlogo {"; nl;
    lit "            position: relative;"; nl;
    lit "            right: -450px;"; nl;
    lit "            top: 11px;"; nl;
    lit "        }"; nl;
    lit "    </style>"; nl;
    lit "    <title> Pro Coder Quiz </title>"; nl;
    lit "    <style>"; nl;
    lit "        body {"; nl;
    lit "            border: 2px solid #1D3557;"; nl;
    lit "            border-radius: 20px;"; nl;
    lit "            margin: 30px;"; nl;
    lit "            background-color: white;"; nl;
    lit "            font-family: 'Red Hat Display', sans-serif;"; nl;
    lit "        }"; nl;
    nl;
    lit "        .logo-wrapper {"; nl;
    lit "            display: flex;"; nl;
    lit "            justify-content: space-between;"; nl;
    lit "            align-items: center;"; nl;
    lit "            padding: 20px 0;"; nl;
    lit "        }"; nl;
    nl;
    lit "        .title-wrapper {"; nl;
    lit "            background-color: #E63946;"; nl;
    lit "            color: #fff;"; nl;
    lit "            padding: 10px;"; nl;
    lit "            margin-bottom: 40px;"; nl;
    lit "        }"; nl;
    nl;
    lit "        .title-wrapper h2 {"; nl;
    lit "            font-weight: 700;"; nl;
    lit "            margin: 0;"; nl;
    lit "        }"; nl;
    nl;
    lit "        .congrats {"; nl;
    lit "            font-weight: 300;"; nl;
    lit "            font-size: 32px;"; nl;
    lit "            position: relative;"; nl;
    lit "            margin-bottom: 30px;"; nl;
    lit "        }"; nl;
    nl;
    lit "        .congrats::after {"; nl;
    lit "            content: '';"; nl;
    lit "            height: 5px;"; nl;
    lit "            width: 8%;"; nl;
    lit "            background-color: #E63946;"; nl;
    lit "            position: absolute;"; nl;
    lit "            top: calc(100% + 5px);"; nl;
    lit "            border-radius: 3px;"; nl;
    lit "            left: 0px;"; nl;
    lit "        }"; nl;
    nl;
    lit "        .text-blue {"; nl;
    lit "            color: #1D3557;"; nl;
    lit "        }"; nl;
    lit "    </style>"; nl;
    lit "</head>"; nl;
    nl;
    lit "<body>"; nl;
    lit "    <div class="; quote; lit "container"; quote; lit ">"; nl;
    lit "        <div class="; quote; lit "logo-wrapper"; quote;
    lit "><img src="; quote;
    lit "https://academy.harbingergroup.com/procoder/Assets/capdev.png"; quote;
    lit " alt="; quote; lit "CapDev"; quote; lit " class="; quote;
    lit "atto_image_button_left"; quote; lit " width="; quote; lit "126";
    quote; lit " height="; quote; lit "52"; quote; lit "> <img src="; quote;
    lit "https://academy.harbingergroup.com/procoder/Assets/harbingerlogo.png";
    quote; nl;
    lit "                alt="; quote; lit "Harbinger Group"; quote;
    lit " class="; quote; lit "img-responsive atto_image_button_right"; quote;
    lit " width="; quote; lit "147"; quote; lit " height="; quote; lit "52";
    quote; lit "></div>"; nl;
    lit "    </div>"; nl;
    lit "    "; nl;
    lit "    <div class="; quote; lit "title-wrapper"; quote; lit ">"; nl;
    lit "        <h2 class="; quote; lit "text-center"; quote;
    lit ">ProCoder Quiz Oct 2025</h2>"; nl;
    lit "        <h2 class="; quote; lit "text-center"; quote;
    lit ">Responsible AI and AI Guardrails</h2>"; nl;
    lit "    </div>"; nl;
    lit "    <div class="; quote; lit "container"; quote; lit ">"; nl;
    lit "    <p>Top 3 Winners:</p>"; nl;
    lit "    <p><strong style="; quote;
    lit "font-size: 0.95rem; letter-spacing: 0px;"; quote;
    lit "><span>Mayuri Chaudhari,&nbsp;</span><span style="; quote;
    lit "font-weight: bolder;"; quote;
    lit ">Deepa Menghani and&nbsp;</span></strong>"; nl;
    lit "        <strong style="; quote;
    lit "font-size: 0.95rem; letter-spacing: 0px;"; quote;
    lit "><span>Eshan Chattaraj</span></strong>"; nl;
    nl;
    lit "    </p>"; nl;
    lit "    <p>Congratulations!!</p>"; nl;
    nl;
    lit "    <p>Quiz Questions and answers are as below:</p>"; nl;
    lit "    <p><br></p>"; nl;
    nl;
    lit "    <div class="; quote; lit "container"; quote; lit ">"; nl;
    lit "   "; nl
  ].

(** The text of the f-string after it. *)
Definition template_tail : str :=
  concat [
    nl;
    nl;
    lit "</div>"; nl;
    nl;
    lit "    <div class="; quote; lit "container"; quote; lit ">"; nl;
    lit "    <center>"; nl;
    lit "        <footer>"; nl;
    lit "            <p><i>For any queries, please write to</i> <a href=";
    quote; lit "https://academy.harbingergroup.com/"; quote;
    lit ">capdev@harbingergroup.com</a></p>"; nl;
    lit "        </footer>"; nl;
    lit "    </center>"; nl;
    lit "</div>"; nl;
    lit "</body>"; nl;
    lit "</html>"; nl
  ].

(** The f-string: the template with the quiz markup in its place. *)
Definition generate_full_html_template (quiz_html_content : str) : str :=
  template_head ++ quiz_html_content ++ template_tail.

(** [s.replace(old, new)] for a non-empty [old]: the occurrences of [old]
    are found from left to right, without overlap; [skip] counts the
    characters of a found occurrence still to pass. *)
Fixpoint replace_skip (old new : str) (skip : nat) (s : str) : str :=
  match s with
  | [] => []
  | c :: s' =>
      match skip with
      | S k => replace_skip old new k s'
      | O =>
          if startswith s old
          then new ++ replace_skip old new (length old - 1) s'
          else c :: replace_skip old new 0 s'
      end
  end.

(** [s.replace(old, new)]; an empty [old] is found before every character
    and at the end. *)
Definition replace (s old new : str) : str :=
  match old with
  | [] => new ++ flat_map (fun c => c :: new) s
  | _ :: _ => replace_skip old new 0 s
  end.

(** The preview of [main]:
    [quiz_html_content.replace('<b>', '**').replace('</b>', '**')]. *)
Definition preview (quiz_html_content : str) : str :=
  replace (replace quiz_html_content (lit "<b>") (lit "**")) (lit "</b>")
    (lit "**").

(** What [main] shows for an uploaded file: the success message with the
    download link of [final_html] and the preview, or the warning. *)
Inductive report :=
| Converted (final_html preview_html : str)
| CouldNotExtract.

Section Main.

Variable decimal : char -> bool.
Variable lower : str -> str.

(** [extract_quiz_content_from_docx] with its [try]: [document] is [None]
    when the file cannot be read as a document, and is the list of its
    paragraph texts otherwise. *)
Definition read_quiz_content (document : option (list str)) : list str :=
  match document with
  | Some paragraphs =>
      Classifier.extract_quiz_content_from_docx decimal lower paragraphs
  | None => []
  end.

(** The body of [main] once a file is uploaded. *)
Definition main (document : option (list str)) : outcome report :=
  let quiz_data_lines := read_quiz_content document in
  match quiz_data_lines with
  | _ :: _ =>
      quiz_html_content <- generate_quiz_html decimal quiz_data_lines ;;
      let final_html := generate_full_html_template quiz_html_content in
      Return (Converted final_html (preview quiz_html_content))
  | [] => Return CouldNotExtract
  end.

End Main.

End Page.

Import Page.

(** ** The Unicode decimal digits

    All the proofs need of the table behind [\d]: below U+0660 the decimal
    digits are the ASCII digits, and no decimal digit is white space. *)

Definition ascii_decimal (c : char) : bool := (48 <=? c) && (c <=? 57).

Record unicode_decimal (decimal : char -> bool) : Prop := {
  decimal_low : forall c, c < 1632 -> decimal c = ascii_decimal c;
  decimal_not_space : forall c, decimal c = true -> is_space c = false
}.

(** [s] then [t], order preserved: [s] is [t] with some elements removed. *)
Inductive subsequence {A : Type} : list A -> list A -> Prop :=
| sub_nil : subsequence [] []
| sub_skip : forall x s t, subsequence s t -> subsequence s (x :: t)
| sub_keep : forall x s t, subsequence s t -> subsequence (x :: s) (x :: t).

(** [sub] occurs in [s]. *)
Definition contains (s sub : str) : bool := negb (find s sub =? -1)%Z.

(** The input of the end-to-end scenario. *)
Definition scenario_lines : list str :=
  [lit "1. What is X?"; lit "A. Opt1"; lit "B. Opt2"; lit "C. Opt3";
   lit "D. Opt4"; answer_marker ++ lit " B. Opt2"].

(** ** Auxiliary definitions *)

(** Mapping over the value of an outcome. *)
Definition omap {A B} (f : A -> B) (m : outcome A) : outcome B :=
  bind m (fun a => Return (f a)).

(** The inner loop stops at [post]: it is empty or starts with a boundary
    line. *)
Definition stops_sweep (decimal : char -> bool) (post : list str) : Prop :=
  match post with
  | [] => True
  | l :: _ => match_boundary decimal (strip l) = true
  end.

(** The loop run to its end. *)
Definition run (decimal : char -> bool) (lines : list str) (st : state)
  : outcome state :=
  loop decimal (length lines - i st) lines st.

(** An option carries its letter: one of A to D, then a period. *)
Definition lettered (o : str) : Prop :=
  exists c tl, o = c :: dot :: tl /\ is_AD c = true.

(** The first option is the A option. *)
Definition starts_with_A (opts : list str) : Prop :=
  exists tl rest, opts = (65 :: dot :: tl) :: rest.

Ltac solve_starts_with_A :=
  unfold starts_with_A; simpl; do 2 eexists; reflexivity.

(** What the regrouping loop maintains once the first piece is in. *)
Definition regroup_inv (acc : list str * str) : Prop :=
  Forall lettered (fst acc) /\ lettered (snd acc)
  /\ starts_with_A (fst acc ++ [snd acc]).

(** The answer kept for a record when the line at [answer_index] is
    [l]. *)
Definition answer_of (l : str) : str :=
  let answer_text := strip (part_last (split1 colon (strip l))) in
  if match_answer answer_text then answer_text else [].

(** A question is open only once its dictionary exists. *)
Definition well_formed (st : state) : Prop :=
  in_question_block st = true -> current_question st <> None.

(** The same state seen from a list with [n] more lines in front. *)
Definition shift (n : nat) (st : state) : state :=
  {| html_output := html_output st; current_question := current_question st;
     in_question_block := in_question_block st; i := n + i st;
     emitted := emitted st |}.

(** The same state after more output and more history before it. *)
Definition prepend (html : list str) (qs : list question) (st : state)
  : state :=
  {| html_output := html ++ html_output st;
     current_question := current_question st;
     in_question_block := in_question_block st; i := i st;
     emitted := qs ++ emitted st |}.

(** The state with the index back at the start. *)
Definition rewind (st : state) : state :=
  {| html_output := html_output st; current_question := current_question st;
     in_question_block := in_question_block st; i := 0;
     emitted := emitted st |}.

(** A B./C./D. delimiter at the start of [s]. *)
Definition delimiter_at (s : str) : bool :=
  match s with
  | c :: d :: sp :: _ => is_BD c && (d =? dot) && (sp =? space)
  | _ => false
  end.

(** A delimiter somewhere in [s]. *)
Fixpoint has_delimiter (s : str) : bool :=
  match s with
  | [] => false
  | _ :: s' => delimiter_at s || has_delimiter s'
  end.

(** The A option line, with no delimiter in its text. *)
Definition clean_first (s : str) : bool :=
  match s with
  | c :: d :: sp :: body =>
      (c =? 65) && (d =? dot) && (sp =? space) && negb (has_delimiter body)
  | _ => false
  end.

(** A B, C or D option line whose text holds no delimiter and does not
    itself start like an option. *)
Definition clean_later (s : str) : bool :=
  match s with
  | c :: d :: sp :: body =>
      is_BD c && (d =? dot) && (sp =? space)
      && negb (has_delimiter body) && negb (match_option body)
  | _ => false
  end.

(** What follows the first piece in the split of a blob of clean later
    options: a delimiter and a text for each. *)
Fixpoint later_items (stripped : list str) : list str :=
  match stripped with
  | [] => []
  | s :: rest => firstn 3 s :: skipn 3 s :: later_items rest
  end.

(** The blocks of a finished record, and those written when it is built. *)
Definition render_open (q : question) : list str :=
  question_html (number q) (text q) :: option_blocks (options q).

Definition render (q : question) : list str :=
  render_open q ++ [answer_html (answer q)].

(** The output so far is the rendering of the history, the last record
    still waiting for its closing block. *)
Definition rendered (st : state) : Prop :=
  if in_question_block st
  then exists qs q,
         current_question st = Some q /\ emitted st = qs ++ [q]
         /\ html_output st = flat_map render qs ++ render_open q
  else html_output st = [] /\ emitted st = [].

(** The labels of the header lines of an input, in order. *)
Definition header_labels (decimal : char -> bool) (lines : list str)
  : list str :=
  map (fun line => strip (part0 (split1 dot line)))
    (filter (match_question decimal) (map strip lines)).

(** A string that [strip] leaves as it is. *)
Definition trimmed (s : str) : Prop := strip s = s.

(** A paragraph the classifier keeps. *)
Definition recognised (decimal : char -> bool) (lower : str -> str)
  (para : str) : bool :=
  nonempty (strip para) && Classifier.quiz_line decimal lower (strip para).

(** ** The shapes of line of the specification

    The four shapes the classifier is specified to keep, stated on the
    characters of a line rather than through the tests of the code. *)

(** One or two digits, a period and a space. *)
Definition header_shape (decimal : char -> bool) (s : str) : Prop :=
  exists digits rest,
    s = digits ++ lit ". " ++ rest
    /\ (length digits = 1 \/ length digits = 2)%nat
    /\ Forall (fun c => decimal c = true) digits.

(** One upper-case letter from A to D, a period and a space. *)
Definition option_shape (s : str) : Prop :=
  exists letter rest,
    s = letter :: lit ". " ++ rest /\ In letter (lit "ABCD").

(** The answer marker. *)
Definition answer_shape (s : str) : Prop :=
  exists rest, s = [226; 339; 8230] ++ lit " Answer:" ++ rest.

(** One of the three continuation phrases, in any case. *)
Definition continuation_shape (lower : str -> str) (s : str) : Prop :=
  exists phrase rest,
    In phrase [lit "to increase profit"; lit "they eliminate human";
               lit "using encryption to"]
    /\ lower s = phrase ++ rest.

Definition quiz_shape (decimal : char -> bool) (lower : str -> str)
  (s : str) : Prop :=
  header_shape decimal s \/ option_shape s \/ answer_shape s
  \/ continuation_shape lower s.

(** [k] is [l] without the elements that do not satisfy [P]. *)
Inductive selects {A : Type} (P : A -> Prop) : list A -> list A -> Prop :=
| selects_nil : selects P [] []
| selects_keep : forall x l k,
    P x -> selects P l k -> selects P (x :: l) (x :: k)
| selects_drop : forall x l k,
    ~ P x -> selects P l k -> selects P (x :: l) k.

(** ** Question blocks and option counts *)

(** What the inner loop appends to a question block: the lines that
    follow, trimmed, up to the next boundary line. *)
Fixpoint merged (decimal : char -> bool) (rest : list str) : str :=
  match rest with
  | [] => []
  | l :: rest' =>
      if match_boundary decimal (strip l) then []
      else strip l ++ merged decimal rest'
  end.

(** The merged question blocks of an input, one for each header line: the
    trimmed header line and what the inner loop appends to it. *)
Fixpoint question_blocks (decimal : char -> bool) (lines : list str)
  : list str :=
  match lines with
  | [] => []
  | l :: rest =>
      if match_question decimal (strip l)
      then (strip l ++ merged decimal rest) :: question_blocks decimal rest
      else question_blocks decimal rest
  end.

(** The record [q] is the one built from the question block [block]. *)
Definition built_from (decimal : char -> bool) (q : question) (block : str)
  : Prop :=
  exists raw x,
    match_question decimal (strip raw) = true
    /\ block = strip raw ++ x
    /\ number q = strip (part0 (split1 dot (strip raw)))
    /\ split_question block = Return (text q, options q).

(** The number of places of [s] where what starts there satisfies [p]. *)
Fixpoint occurrences (p : str -> bool) (s : str) : nat :=
  match s with
  | [] => 0
  | _ :: s' => (if p s then 1 else 0) + occurrences p s'
  end.

(** A B./C./D. delimiter directly followed by "A. ". *)
Definition delimiter_then_A (s : str) : bool :=
  delimiter_at s && startswith (skipn 3 s) (lit "A. ").

(** A B./C./D. delimiter at the start of [s], and one directly followed by
    "A. ", as the strings they are. *)
Definition option_delimiter (s : str) : bool :=
  existsb (startswith s) [lit "B. "; lit "C. "; lit "D. "].

Definition option_delimiter_then_A (s : str) : bool :=
  existsb (startswith s) [lit "B. A. "; lit "C. A. "; lit "D. A. "].

(** * Properties *)

(** ** Strings *)

Lemma ascii_decimal_unicode : unicode_decimal ascii_decimal.
Proof.
  split; [reflexivity|].
  intros c H. unfold ascii_decimal in H. unfold is_space.
  apply andb_true_iff in H as [H1 H2].
  apply N.leb_le in H1. apply N.leb_le in H2.
  repeat (apply orb_false_iff; split);
    try (apply andb_false_iff);
    try (apply N.eqb_neq; lia);
    try (left; apply N.leb_gt; lia);
    try (right; apply N.leb_gt; lia).
Qed.

Lemma lstrip_app_keep (x y : str) (c : char) :
  is_space c = false -> lstrip (x ++ c :: y) = lstrip x ++ c :: y.
Proof.
  intros Hc. induction x as [|a x IH]; simpl.
  - now rewrite Hc.
  - destruct (is_space a); [exact IH | reflexivity].
Qed.

Lemma rstrip_cons_keep (c : char) (s : str) :
  is_space c = false -> rstrip (c :: s) = c :: rstrip s.
Proof.
  intros Hc. unfold rstrip. simpl.
  replace (rev s ++ [c]) with (rev s ++ c :: []) by reflexivity.
  rewrite lstrip_app_keep by assumption.
  now rewrite rev_app_distr.
Qed.

Lemma strip_cons_keep (c : char) (s : str) :
  is_space c = false -> strip (c :: s) = c :: rstrip s.
Proof.
  intros Hc. unfold strip. simpl. rewrite Hc.
  now apply rstrip_cons_keep.
Qed.

Lemma lstrip_keeps (s : str) (c : char) :
  In c s -> is_space c = false -> lstrip s <> [].
Proof.
  induction s as [|a s IH]; simpl; [tauto|].
  intros [->|Hin] Hc.
  - now rewrite Hc.
  - destruct (is_space a); [auto | discriminate].
Qed.

Lemma lstrip_incl (s : str) (c : char) :
  In c s -> is_space c = false -> In c (lstrip s).
Proof.
  induction s as [|a s IH]; simpl; [tauto|].
  intros [->|Hin] Hc.
  - rewrite Hc. now left.
  - destruct (is_space a); [auto | now right].
Qed.

(** A string holding a character that is not white space does not strip to
    the empty string. *)
Lemma strip_keeps (s : str) (c : char) :
  In c s -> is_space c = false -> strip s <> [].
Proof.
  intros Hin Hc. unfold strip, rstrip.
  assert (H1 : In c (rev (lstrip s))).
  { apply in_rev. rewrite rev_involutive. now apply lstrip_incl. }
  pose proof (lstrip_keeps _ _ H1 Hc) as H2.
  intros E. apply H2.
  apply (f_equal (@rev char)) in E. rewrite rev_involutive in E.
  exact E.
Qed.

Lemma lstrip_head (s : str) :
  match lstrip s with [] => True | c :: _ => is_space c = false end.
Proof.
  induction s as [|a s IH]; simpl; [exact I|].
  destruct (is_space a) eqn:E; [exact IH | exact E].
Qed.

Lemma lstrip_fixed (s : str) :
  match s with [] => True | c :: _ => is_space c = false end ->
  lstrip s = s.
Proof. destruct s as [|c s]; simpl; [reflexivity|]. now intros ->. Qed.

Lemma lstrip_suffix (s : str) : exists p, s = p ++ lstrip s.
Proof.
  induction s as [|a s [p IH]]; simpl.
  - now exists [].
  - destruct (is_space a).
    + exists (a :: p). simpl. now f_equal.
    + now exists [].
Qed.

(** The last character of a stripped string is not white space. *)
Lemma strip_last (s : str) :
  match rev (strip s) with [] => True | c :: _ => is_space c = false end.
Proof.
  unfold strip, rstrip. rewrite rev_involutive. apply lstrip_head.
Qed.

(** Neither is its first one. *)
Lemma strip_head (s : str) :
  match strip s with [] => True | c :: _ => is_space c = false end.
Proof.
  unfold strip.
  pose proof (lstrip_head s) as H.
  destruct (lstrip s) as [|c t]; [exact I|].
  now rewrite rstrip_cons_keep.
Qed.

(** ** The classifier *)

Section ClassifierFacts.

Variable decimal : char -> bool.
Variable lower : str -> str.

Lemma filter_subsequence {A} (f : A -> bool) (l : list A) :
  subsequence (filter f l) l.
Proof.
  induction l as [|x l IH]; simpl; [constructor|].
  destruct (f x); now constructor.
Qed.

(** The chain of [if]/[elif] tests keeps a line exactly when it has one of
    the four shapes. *)
Lemma classify_loop_filter (paragraphs content_lines : list str) :
  Classifier.classify_loop decimal lower paragraphs content_lines
  = content_lines
    ++ filter (Classifier.quiz_line decimal lower)
         (filter nonempty (map strip paragraphs)).
Proof.
  revert content_lines.
  induction paragraphs as [|para ps IH]; intros acc; simpl.
  - now rewrite app_nil_r.
  - destruct (nonempty (strip para)) eqn:Hne; [|apply IH].
    simpl.
    unfold Classifier.quiz_line, Classifier.question_header,
      Classifier.option_line, Classifier.answer_line,
      Classifier.continuation_line, Classifier.continuation_prefixes.
    simpl existsb.
    destruct (match_question decimal (strip para)); simpl.
    { rewrite IH, <- app_assoc. reflexivity. }
    destruct (startswith (strip para) answer_marker); simpl.
    { rewrite orb_true_r. simpl. rewrite IH, <- app_assoc. reflexivity. }
    rewrite orb_false_r, !orb_assoc.
    destruct (match_option (strip para)
              || startswith (lower (strip para)) (lit "to increase profit")
              || startswith (lower (strip para)) (lit "they eliminate human")
              || startswith (lower (strip para)) (lit "using encryption to")).
    + rewrite IH, <- app_assoc. reflexivity.
    + apply IH.
Qed.

End ClassifierFacts.

(** ** The scan *)

Lemma bind_assoc {A B C} (m : outcome A) (f : A -> outcome B)
  (g : B -> outcome C) :
  bind (bind m f) g = bind m (fun a => bind (f a) g).
Proof. now destruct m. Qed.

Lemma bind_ext {A B} (m : outcome A) (f g : A -> outcome B) :
  (forall a, m = Return a -> f a = g a) -> bind m f = bind m g.
Proof. destruct m; simpl; auto. Qed.

Section ScanFacts.

Variable decimal : char -> bool.

(** *** The inner loop *)

Lemma sweep_index (rest : list str) (b : str) (n : nat) :
  let '(_, n', rest') := sweep decimal rest b n in
  (n' + length rest' = n + length rest)%nat /\ (n <= n')%nat.
Proof.
  revert b n. induction rest as [|l rest IH]; intros b n; simpl.
  - lia.
  - destruct (negb (match_boundary decimal (strip l))).
    + specialize (IH (b ++ strip l) (n + 1)%nat).
      destruct (sweep decimal rest (b ++ strip l) (n + 1)) as [[b' n'] rest'].
      lia.
    + simpl. lia.
Qed.

(** The block swept from [conts ++ post] when no line of [conts] is a
    boundary and the loop stops at [post]. *)
Lemma sweep_app (conts post : list str) (b : str) (n : nat) :
  Forall (fun l => match_boundary decimal (strip l) = false) conts ->
  stops_sweep decimal post ->
  sweep decimal (conts ++ post) b n
  = (b ++ concat (map strip conts), (n + length conts)%nat, post).
Proof.
  intros Hc Hp. revert b n.
  induction Hc as [|l conts Hl Hc IH]; intros b n; simpl.
  - rewrite app_nil_r, Nat.add_0_r.
    destruct post as [|l post]; [reflexivity|].
    simpl in *. now rewrite Hp.
  - rewrite Hl. simpl. rewrite IH, <- app_assoc.
    f_equal. f_equal. lia.
Qed.

(** *** Progress and fuel *)

Lemma on_header_index (line : str) (rest : list str) (st st' : state) :
  on_header decimal line rest st = Return st' ->
  (i st < i st' <= i st + 1 + length rest)%nat.
Proof.
  unfold on_header. intros H.
  destruct (close_block st) as [html1| |]; simpl in H; try discriminate.
  pose proof (sweep_index rest line (i st + 1)) as Hs.
  destruct (sweep decimal rest line (i st + 1)) as [[b n'] rest'].
  destruct (split_question b) as [[q_text opts]| |]; simpl in H;
    try discriminate.
  destruct rest' as [|l rest'].
  - injection H as <-. simpl in *. lia.
  - destruct (startswith (strip l) answer_marker);
      injection H as <-; simpl in *; lia.
Qed.

Lemma iteration_index (lines : list str) (st st' : state) :
  iteration decimal lines st = Return st' ->
  (i st < i st' <= length lines)%nat.
Proof.
  unfold iteration. intros H.
  destruct (skipn (i st) lines) as [|raw rest] eqn:E; [discriminate|].
  assert (Hlen : (length lines = i st + 1 + length rest
                  /\ i st < length lines)%nat).
  { assert (Hl := f_equal (@length str) E).
    rewrite length_skipn in Hl. simpl in Hl. lia. }
  destruct (negb (nonempty (strip raw))).
  { injection H as <-. simpl. lia. }
  destruct (match_question decimal (strip raw)).
  - apply on_header_index in H. lia.
  - injection H as <-. simpl. lia.
Qed.

Lemma loop_fuel (lines : list str) (f1 f2 : nat) (st : state) :
  (length lines - i st <= f1)%nat -> (length lines - i st <= f2)%nat ->
  loop decimal f1 lines st = loop decimal f2 lines st.
Proof.
  revert f2 st. induction f1 as [|f1 IH]; intros f2 st H1 H2.
  - destruct f2; simpl; destruct (i st <? length lines)%nat eqn:E;
      try reflexivity; apply Nat.ltb_lt in E; lia.
  - destruct f2; simpl; destruct (i st <? length lines)%nat eqn:E;
      try reflexivity; apply Nat.ltb_lt in E; try lia.
    apply bind_ext. intros st' Hst'. apply iteration_index in Hst'.
    apply IH; lia.
Qed.

Lemma run_unfold (lines : list str) (st : state) :
  run decimal lines st
  = if (i st <? length lines)%nat
    then bind (iteration decimal lines st) (run decimal lines)
    else Return st.
Proof.
  unfold run.
  destruct (i st <? length lines)%nat eqn:E.
  - apply Nat.ltb_lt in E.
    destruct (length lines - i st)%nat as [|f] eqn:Ef; [lia|].
    simpl. apply Nat.ltb_lt in E. rewrite E.
    apply bind_ext. intros st' Hst'. apply iteration_index in Hst'.
    apply loop_fuel; lia.
  - destruct (length lines - i st)%nat; simpl; now rewrite E.
Qed.

Lemma scan_run (lines : list str) :
  scan decimal lines = run decimal lines init.
Proof. unfold scan, run. simpl. now rewrite Nat.sub_0_r. Qed.

(** Induction along the loop: on the distance of [i] to the end. *)
Lemma run_ind (lines : list str) (P : state -> Prop) :
  (forall st, (length lines <= i st)%nat -> P st) ->
  (forall st, (i st < length lines)%nat ->
     (forall st', iteration decimal lines st = Return st' -> P st') -> P st) ->
  forall st, P st.
Proof.
  intros Hend Hstep st.
  remember (length lines - i st)%nat as d eqn:Hd.
  revert st Hd. induction d as [d IH] using lt_wf_ind. intros st Hd.
  destruct (Nat.lt_ge_cases (i st) (length lines)) as [Hlt|Hge].
  - apply Hstep; [exact Hlt|]. intros st' Hst'.
    apply iteration_index in Hst'.
    apply (IH (length lines - i st')%nat); [lia | reflexivity].
  - now apply Hend.
Qed.

End ScanFacts.

(** ** Splitting and searching *)

Lemma split1_some (sep : char) (s : str) :
  In sep s ->
  exists h t, split1 sep s = (h, Some t) /\ s = h ++ sep :: t /\ ~ In sep h.
Proof.
  induction s as [|c s IH]; simpl; [tauto|].
  intros Hin. destruct (c =? sep) eqn:E.
  - apply N.eqb_eq in E. subst c. exists [], s. simpl. tauto.
  - apply N.eqb_neq in E.
    destruct Hin as [->|Hin]; [congruence|].
    destruct (IH Hin) as (h & t & Hs & Heq & Hn).
    exists (c :: h), t. rewrite Hs. simpl. subst s.
    repeat split; try reflexivity.
    intros [?|?]; [congruence | tauto].
Qed.

Lemma split1_app (sep : char) (h t : str) :
  ~ In sep h -> split1 sep (h ++ sep :: t) = (h, Some t).
Proof.
  induction h as [|c h IH]; simpl; intros Hn.
  - now rewrite N.eqb_refl.
  - destruct (c =? sep) eqn:E.
    + apply N.eqb_eq in E. tauto.
    + rewrite IH by tauto. reflexivity.
Qed.

Lemma split1_none (sep : char) (s : str) :
  ~ In sep s -> split1 sep s = (s, None).
Proof.
  induction s as [|c s IH]; simpl; intros Hn; [reflexivity|].
  destruct (c =? sep) eqn:E.
  - apply N.eqb_eq in E. tauto.
  - rewrite IH by tauto. reflexivity.
Qed.

Lemma startswith_app (p t : str) : startswith (p ++ t) p = true.
Proof.
  induction p as [|a p IH]; simpl; [now destruct t|].
  now rewrite N.eqb_refl.
Qed.

Lemma startswith_nil (s : str) : startswith s [] = true.
Proof. now destruct s. Qed.

Lemma startswith_split (s p : str) :
  startswith s p = true -> exists t, s = p ++ t.
Proof.
  revert s. induction p as [|a p IH]; intros s H; simpl in *.
  - now exists s.
  - destruct s as [|b s]; [discriminate|].
    apply andb_true_iff in H as [H1 H2]. apply N.eqb_eq in H1. subst b.
    destruct (IH _ H2) as [t ->]. now exists t.
Qed.

(** Where [find] reports an occurrence, there is one, and none before. *)
Lemma find_from_found (s sub : str) (pos k : Z) :
  find_from s sub pos = k -> k <> (-1)%Z -> (0 <= pos)%Z ->
  (pos <= k)%Z
  /\ startswith (skipn (Z.to_nat (k - pos)) s) sub = true.
Proof.
  revert pos. induction s as [|c s IH]; intros pos H Hk Hpos;
    cbn [find_from] in H.
  - destruct (startswith [] sub) eqn:E; [|congruence].
    subst k. rewrite Z.sub_diag. simpl. split; [lia | exact E].
  - destruct (startswith (c :: s) sub) eqn:E.
    + subst k. rewrite Z.sub_diag. simpl. split; [lia | exact E].
    + destruct (IH (pos + 1)%Z H Hk ltac:(lia)) as [H1 H2].
      split; [lia|].
      replace (Z.to_nat (k - pos)) with (S (Z.to_nat (k - (pos + 1))))
        by lia.
      exact H2.
Qed.

Lemma find_from_absent_app (p t sub : str) (pos : Z) :
  (forall k, (k < length p)%nat ->
     startswith (skipn k (p ++ t)) sub = false) ->
  find_from (p ++ t) sub pos = find_from t sub (pos + len p).
Proof.
  revert pos. induction p as [|c p IH]; intros pos H.
  - simpl. unfold len. simpl. now rewrite Z.add_0_r.
  - change ((c :: p) ++ t) with (c :: p ++ t).
    cbn [find_from].
    pose proof (H 0%nat ltac:(simpl; lia)) as H0.
    change (startswith (c :: p ++ t) sub = false) in H0.
    rewrite H0. rewrite IH.
    + unfold len. simpl length. f_equal. lia.
    + intros k Hk. apply (H (S k)). simpl. lia.
Qed.

Lemma find_from_absent (s sub : str) (pos : Z) :
  (forall k, (k <= length s)%nat -> startswith (skipn k s) sub = false) ->
  find_from s sub pos = (-1)%Z.
Proof.
  revert pos. induction s as [|c s IH]; intros pos H.
  - cbn [find_from].
    pose proof (H 0%nat ltac:(simpl; lia)) as H0. cbn [skipn] in H0.
    now rewrite H0.
  - cbn [find_from].
    pose proof (H 0%nat ltac:(simpl; lia)) as H0. cbn [skipn] in H0.
    rewrite H0. apply IH. intros k Hk. apply (H (S k)). simpl. lia.
Qed.

Lemma find_from_none (s sub : str) (pos : Z) (k : nat) :
  find_from s sub pos = (-1)%Z -> (0 <= pos)%Z ->
  startswith (skipn k s) sub = false.
Proof.
  revert pos k. induction s as [|c s IH]; intros pos k H Hpos.
  - cbn [find_from] in H. destruct (startswith [] sub) eqn:E; [lia|].
    now destruct k.
  - cbn [find_from] in H.
    destruct (startswith (c :: s) sub) eqn:E; [lia|].
    destruct k as [|k]; [exact E|].
    simpl. apply (IH (pos + 1)%Z); [exact H | lia].
Qed.

(** ** Option segmentation *)

Lemma is_AD_not_space (c : char) : is_AD c = true -> is_space c = false.
Proof.
  unfold is_AD. intros H. apply andb_true_iff in H as [H1 H2].
  apply N.leb_le in H1. apply N.leb_le in H2.
  unfold is_space.
  repeat (apply orb_false_iff; split);
    try (apply andb_false_iff);
    try (apply N.eqb_neq; lia);
    try (left; apply N.leb_gt; lia);
    try (right; apply N.leb_gt; lia).
Qed.

Lemma strip_lettered (c : char) (tl : str) :
  is_AD c = true -> strip (c :: dot :: tl) = c :: dot :: rstrip tl.
Proof.
  intros H. rewrite strip_cons_keep by now apply is_AD_not_space.
  now rewrite rstrip_cons_keep.
Qed.

Lemma match_option_lettered (s : str) :
  match_option s = true -> lettered s.
Proof.
  destruct s as [|c [|d [|sp s]]]; simpl; try discriminate.
  intros H. apply andb_true_iff in H as [H _].
  apply andb_true_iff in H as [H1 H2]. apply N.eqb_eq in H2. subst d.
  now exists c, (sp :: s).
Qed.

Lemma split_BD_from_head (piece s : str) :
  exists t rest, split_BD_from piece s = (rev piece ++ t) :: rest.
Proof.
  revert piece. induction s as [|c s IH]; intros piece.
  - exists [], []. simpl. now rewrite app_nil_r.
  - assert (Hcont : exists t rest,
              split_BD_from (c :: piece) s = (rev piece ++ t) :: rest).
    { destruct (IH (c :: piece)) as (t & rest & E).
      exists (c :: t), rest. rewrite E. simpl. now rewrite <- app_assoc. }
    cbn [split_BD_from].
    destruct s as [|d [|sp s'']]; try exact Hcont.
    destruct (is_BD c && (d =? dot) && (sp =? space)); [|exact Hcont].
    exists [], ([c; d; sp] :: split_BD_from [] s'').
    now rewrite app_nil_r.
Qed.

Lemma split_BD_A (u : str) :
  split_BD (65 :: dot :: u) = split_BD_from [dot; 65] u.
Proof.
  unfold split_BD. destruct u as [|a [|b u]]; reflexivity.
Qed.

Lemma regroup_step_inv (acc : list str * str) (item : str) :
  regroup_inv acc -> regroup_inv (regroup_step acc item).
Proof.
  destruct acc as [final temp]. unfold regroup_inv. simpl.
  intros (Hf & (c & tl & -> & Hc) & (tl0 & rest & HA)).
  destruct (match_option item) eqn:Hm; simpl.
  - cbn [nonempty]. rewrite strip_lettered by assumption.
    split; [|split].
    + apply Forall_app. split; [exact Hf|].
      constructor; [|constructor]. now exists c, (rstrip tl).
    + now apply match_option_lettered.
    + destruct final as [|o final]; simpl in *.
      * inversion HA; subst. solve_starts_with_A.
      * inversion HA; subst. solve_starts_with_A.
  - split; [exact Hf|]. split.
    + now exists c, (tl ++ item).
    + destruct final as [|o final]; simpl in *.
      * inversion HA; subst. solve_starts_with_A.
      * inversion HA; subst. solve_starts_with_A.
Qed.

Lemma fold_regroup_inv (items : list str) (acc : list str * str) :
  regroup_inv acc -> regroup_inv (fold_left regroup_step items acc).
Proof.
  revert acc. induction items as [|x items IH]; intros acc H; simpl.
  - exact H.
  - apply IH. now apply regroup_step_inv.
Qed.

(** Every option of a blob that starts with "A." is lettered, and the first
    one is the A option. *)
Lemma segment_options_lettered (u : str) :
  Forall lettered (segment_options (65 :: dot :: u))
  /\ starts_with_A (segment_options (65 :: dot :: u)).
Proof.
  unfold segment_options. rewrite split_BD_A.
  destruct (split_BD_from_head [dot; 65] u) as (t & rest & E).
  rewrite E. simpl rev. cbn [fold_left app].
  match goal with |- context [fold_left regroup_step rest ?a] =>
    assert (H : regroup_inv (fold_left regroup_step rest a));
    [apply fold_regroup_inv|
     destruct (fold_left regroup_step rest a) as [final temp]]
  end.
  { unfold regroup_step, regroup_inv.
    match goal with |- context [if ?b then _ else _] => destruct b end;
      cbn [fst snd nonempty app];
      (split; [constructor|]); (split; [now exists 65, t|]);
      now exists t, []. }
  destruct H as (Hf & (c & tl & E' & Hc) & (tl0 & r & HA)).
  cbn [fst snd] in *. subst temp. cbn [nonempty].
  rewrite strip_lettered by assumption.
  split.
  - apply Forall_app. split; [exact Hf|].
    constructor; [|constructor]. now exists c, (rstrip tl).
  - destruct final as [|o final]; simpl in *.
    + inversion HA; subst. solve_starts_with_A.
    + inversion HA; subst. solve_starts_with_A.
Qed.

(** ** The question/option split *)

Lemma lit_A_dot : lit "A." = [65; dot].
Proof. reflexivity. Qed.

(** The two ways [split_question] returns. *)
Lemma split_question_cases (block q_text : str) (opts : list str) :
  split_question block = Return (q_text, opts) ->
  (find block (lit "A.") = (-1)%Z /\ opts = []
   /\ exists h after, split1 dot block = (h, Some after)
                      /\ q_text = strip after)
  \/ (find block (lit "A.") <> (-1)%Z
      /\ exists u, opts = segment_options (65 :: dot :: u)).
Proof.
  unfold split_question. intros H.
  destruct (find block (lit "A.") =? -1)%Z eqn:E.
  - apply Z.eqb_eq in E. left. simpl in H.
    destruct (split1 dot block) as [h [after|]] eqn:Es; simpl in H;
      [|discriminate].
    injection H as <- <-. repeat split; try assumption.
    now exists h, after.
  - apply Z.eqb_neq in E. right. split; [exact E|]. simpl in H.
    destruct (part1 (split1 dot block)) as [after|]; [|discriminate].
    injection H as _ <-.
    destruct (@find_from_found block (lit "A.") 0%Z _ eq_refl E ltac:(lia))
      as [Hk Hs].
    rewrite Z.sub_0_r in Hs. fold (find block (lit "A.")) in Hs, Hk.
    unfold slice_from.
    destruct (find block (lit "A.") <? 0)%Z eqn:Hneg;
      [apply Z.ltb_lt in Hneg; lia|].
    apply startswith_split in Hs. destruct Hs as [t Ht].
    rewrite Ht, lit_A_dot. simpl app.
    exists (rstrip t). f_equal.
    now apply (@strip_lettered 65 t).
Qed.

Lemma split_question_total (block : str) :
  In dot block -> exists r, split_question block = Return r.
Proof.
  intros Hin. destruct (split1_some _ _ Hin) as (h & t & Hs & _).
  unfold split_question. rewrite Hs. simpl.
  destruct (negb _); eexists; reflexivity.
Qed.

Section RecordFacts.

Variable decimal : char -> bool.

Lemma match_question_shape (s : str) :
  match_question decimal s = true ->
  exists d1 rest, s = d1 :: rest /\ decimal d1 = true
    /\ ((exists t, rest = dot :: space :: t)
        \/ (exists d2 t, rest = d2 :: dot :: space :: t
                         /\ decimal d2 = true)).
Proof.
  destruct s as [|d1 [|c2 [|c3 s']]]; simpl; try discriminate.
  intros H. apply andb_true_iff in H as [H1 H].
  exists d1, (c2 :: c3 :: s'). repeat split; try assumption.
  apply orb_true_iff in H as [H|H].
  - destruct s' as [|c4 s']; [discriminate|].
    apply andb_true_iff in H as [H H4].
    apply andb_true_iff in H as [H2 H3].
    apply N.eqb_eq in H3. apply N.eqb_eq in H4. subst.
    right. now exists c2, s'.
  - apply andb_true_iff in H as [H2 H3].
    apply N.eqb_eq in H2. apply N.eqb_eq in H3. subst.
    left. now exists s'.
Qed.

Lemma match_question_dot (s : str) :
  match_question decimal s = true -> In dot s.
Proof.
  intros H. apply match_question_shape in H.
  destruct H as (d1 & rest & -> & _ & [[t ->]|(d2 & t & -> & _)]);
    simpl; tauto.
Qed.

Lemma sweep_prefix (rest : list str) (b : str) (n : nat) :
  exists x, fst (fst (sweep decimal rest b n)) = b ++ x.
Proof.
  revert b n. induction rest as [|l rest IH]; intros b n; simpl.
  - exists []. now rewrite app_nil_r.
  - destruct (negb (match_boundary decimal (strip l))); simpl.
    + destruct (IH (b ++ strip l) (n + 1)%nat) as [x Hx].
      exists (strip l ++ x). now rewrite Hx, <- app_assoc.
    + exists []. now rewrite app_nil_r.
Qed.

(** What one pass through the header branch does. *)
Lemma on_header_spec (line : str) (rest : list str) (st st' : state) :
  on_header decimal line rest st = Return st' ->
  exists html1 block n rest' q,
    close_block st = Return html1
    /\ sweep decimal rest line (i st + 1) = (block, n, rest')
    /\ split_question block = Return (text q, options q)
    /\ number q = strip (part0 (split1 dot line))
    /\ html_output st'
       = html1 ++ [question_html (number q) (text q)]
         ++ option_blocks (options q)
    /\ current_question st' = Some q
    /\ in_question_block st' = true
    /\ emitted st' = emitted st ++ [q]
    /\ match rest' with
       | l :: _ =>
           if startswith (strip l) answer_marker
           then answer q = answer_of l /\ i st' = (n + 1)%nat
           else answer q = [] /\ i st' = n
       | [] => answer q = [] /\ i st' = n
       end.
Proof.
  unfold on_header. intros H.
  destruct (close_block st) as [html1| |]; simpl in H; try discriminate.
  pose proof (sweep_index decimal rest line (i st + 1)) as Hs.
  destruct (sweep decimal rest line (i st + 1)) as [[block n] rest'].
  destruct Hs as [_ Hn].
  destruct (split_question block) as [[q_text opts]| |] eqn:Esq;
    simpl in H; try discriminate.
  exists html1, block, n, rest'.
  replace (n - 1 + 1)%nat with n in H by lia.
  destruct rest' as [|l rest''].
  - injection H as <-.
    eexists (Question _ _ _ _). cbn.
    rewrite <- app_assoc. repeat split; try reflexivity; exact Esq.
  - destruct (startswith (strip l) answer_marker).
    + injection H as <-. unfold answer_of.
      destruct (match_answer _);
        eexists (Question _ _ _ _); cbn;
        rewrite <- app_assoc; repeat split; try reflexivity; exact Esq.
    + injection H as <-.
      eexists (Question _ _ _ _). cbn.
      rewrite <- app_assoc. repeat split; try reflexivity; exact Esq.
Qed.

(** *** The scan never raises and always ends *)

Lemma close_block_total (st : state) :
  well_formed st -> exists html, close_block st = Return html.
Proof.
  unfold well_formed, close_block, lookup_answer. intros H.
  destruct (in_question_block st); [|eexists; reflexivity].
  destruct (current_question st); [eexists; reflexivity|].
  now specialize (H eq_refl).
Qed.

Lemma on_header_total (line : str) (rest : list str) (st : state) :
  well_formed st -> match_question decimal line = true ->
  exists st', on_header decimal line rest st = Return st'.
Proof.
  intros Hwf Hq. unfold on_header.
  destruct (@close_block_total st Hwf) as [html1 ->]. simpl.
  destruct (sweep_prefix rest line (i st + 1)) as [x Hx].
  destruct (sweep decimal rest line (i st + 1)) as [[block n] rest'].
  simpl in Hx. subst block.
  destruct (@split_question_total (line ++ x)) as [[q_text opts] ->].
  { apply in_or_app. left. now apply match_question_dot. }
  simpl. destruct rest' as [|l rest'']; [eexists; reflexivity|].
  destruct (startswith (strip l) answer_marker); eexists; reflexivity.
Qed.

Lemma iteration_total (lines : list str) (st : state) :
  well_formed st -> (i st < length lines)%nat ->
  exists st', iteration decimal lines st = Return st' /\ well_formed st'.
Proof.
  intros Hwf Hi. unfold iteration.
  destruct (skipn (i st) lines) as [|raw rest] eqn:E.
  { apply (f_equal (@length str)) in E. rewrite length_skipn in E.
    simpl in E. lia. }
  cbv zeta.
  destruct (negb (nonempty (strip raw))).
  { eexists. split; [reflexivity | exact Hwf]. }
  destruct (match_question decimal (strip raw)) eqn:Hq.
  - destruct (@on_header_total (strip raw) rest st Hwf Hq) as [st' Hst'].
    exists st'. split; [exact Hst'|].
    apply on_header_spec in Hst'.
    destruct Hst' as (? & ? & ? & ? & q & _ & _ & _ & _ & _ & Hc & _).
    intros _. now rewrite Hc.
  - eexists. split; [reflexivity | exact Hwf].
Qed.

Lemma run_total (lines : list str) (st : state) :
  well_formed st ->
  exists st', run decimal lines st = Return st' /\ well_formed st'
              /\ (length lines <= i st')%nat.
Proof.
  revert st. apply (@run_ind decimal lines
    (fun st => well_formed st ->
       exists st', run decimal lines st = Return st' /\ well_formed st'
                   /\ (length lines <= i st')%nat)).
  - intros st Hi Hwf. exists st. rewrite run_unfold.
    apply Nat.ltb_ge in Hi. rewrite Hi. apply Nat.ltb_ge in Hi. auto.
  - intros st Hi IH Hwf.
    destruct (@iteration_total lines st Hwf Hi) as (st1 & H1 & Hwf1).
    destruct (IH st1 H1 Hwf1) as (st' & H' & Hw' & Hi').
    exists st'. rewrite run_unfold.
    apply Nat.ltb_lt in Hi. rewrite Hi, H1. simpl. auto.
Qed.

Lemma init_well_formed : well_formed init.
Proof. unfold well_formed. simpl. discriminate. Qed.

(** A property kept by every round holds when the loop ends. *)
Lemma run_invariant (lines : list str) (Q : state -> Prop) :
  (forall st st', Q st -> (i st < length lines)%nat ->
     iteration decimal lines st = Return st' -> Q st') ->
  forall st st', Q st -> run decimal lines st = Return st' -> Q st'.
Proof.
  intros Hstep st. revert st. apply (@run_ind decimal lines
    (fun st => forall st', Q st -> run decimal lines st = Return st'
                 -> Q st')).
  - intros st Hi st' HQ H. rewrite run_unfold in H.
    apply Nat.ltb_ge in Hi. rewrite Hi in H. now injection H as <-.
  - intros st Hi IH st' HQ H. rewrite run_unfold in H.
    pose proof Hi as Hi'. apply Nat.ltb_lt in Hi'. rewrite Hi' in H.
    destruct (iteration decimal lines st) as [st1| |] eqn:E;
      simpl in H; try discriminate.
    apply (IH st1 eq_refl st'); [|exact H].
    now apply (Hstep st st1).
Qed.

(** Every record of the history comes from a pass through the header
    branch on a trimmed header line. *)
Lemma emitted_invariant (lines : list str) (P : question -> Prop) :
  (forall raw rest st st',
     match_question decimal (strip raw) = true ->
     on_header decimal (strip raw) rest st = Return st' ->
     forall q, emitted st' = emitted st ++ [q] -> P q) ->
  forall st', scan decimal lines = Return st' -> Forall P (emitted st').
Proof.
  intros HP st' H. rewrite scan_run in H.
  apply (@run_invariant lines (fun st => Forall P (emitted st)))
    with (st := init);
    [|constructor|exact H].
  intros st st1 HQ Hi Hit. unfold iteration in Hit.
  destruct (skipn (i st) lines) as [|raw rest]; [discriminate|].
  cbv zeta in Hit.
  destruct (negb (nonempty (strip raw))).
  { now injection Hit as <-. }
  destruct (match_question decimal (strip raw)) eqn:Hq.
  - pose proof Hit as Hs. apply on_header_spec in Hs.
    destruct Hs as (? & ? & ? & ? & q & _ & _ & _ & _ & _ & _ & _ & He & _).
    rewrite He. apply Forall_app. split; [exact HQ|].
    constructor; [|constructor]. eapply HP; eassumption.
  - now injection Hit as <-.
Qed.

End RecordFacts.

(** ** Cutting the input at a question header *)

Lemma omap_bind {A B C} (f : A -> B) (m : outcome A) (k : B -> outcome C) :
  bind (omap f m) k = bind m (fun a => k (f a)).
Proof. now destruct m. Qed.

Lemma bind_omap {A B C} (m : outcome A) (k : A -> outcome B) (f : B -> C) :
  omap f (bind m k) = bind m (fun a => omap f (k a)).
Proof. now destruct m. Qed.

Section Decomposition.

Variable decimal : char -> bool.

Lemma sweep_shift (rest : list str) (b : str) (n m : nat) :
  sweep decimal rest b (n + m)
  = let '(b', m', r') := sweep decimal rest b m in (b', (n + m')%nat, r').
Proof.
  revert b m. induction rest as [|l rest IH]; intros b m; simpl.
  - reflexivity.
  - destruct (negb (match_boundary decimal (strip l))); [|reflexivity].
    rewrite <- Nat.add_assoc. apply IH.
Qed.

Lemma close_block_shift (n : nat) (st : state) :
  close_block (shift n st) = close_block st.
Proof. reflexivity. Qed.

Lemma close_block_prepend (html : list str) (qs : list question)
  (st : state) :
  close_block (prepend html qs st) = omap (app html) (close_block st).
Proof.
  unfold close_block. simpl.
  destruct (in_question_block st); [|reflexivity].
  destruct (lookup_answer (current_question st)); simpl;
    try reflexivity.
  now rewrite app_assoc.
Qed.

Lemma on_header_shift (n : nat) (line : str) (rest : list str)
  (st : state) :
  on_header decimal line rest (shift n st)
  = omap (shift n) (on_header decimal line rest st).
Proof.
  unfold on_header. rewrite close_block_shift.
  destruct (close_block st) as [html1| |]; try reflexivity.
  cbn [bind omap].
  replace (i (shift n st) + 1)%nat with (n + (i st + 1))%nat
    by (simpl; lia).
  rewrite sweep_shift.
  pose proof (sweep_index decimal rest line (i st + 1)) as Hs.
  destruct (sweep decimal rest line (i st + 1)) as [[block m] rest'].
  destruct Hs as [_ Hm].
  destruct (split_question block) as [[q_text opts]| |]; try reflexivity.
  cbn [bind omap].
  destruct rest' as [|l rest''].
  - cbn. unfold shift. cbn. do 2 f_equal. lia.
  - destruct (startswith (strip l) answer_marker);
      cbn; unfold shift; cbn; do 2 f_equal; lia.
Qed.

Lemma on_header_prepend (html : list str) (qs : list question)
  (line : str) (rest : list str) (st : state) :
  on_header decimal line rest (prepend html qs st)
  = omap (prepend html qs) (on_header decimal line rest st).
Proof.
  unfold on_header. rewrite close_block_prepend.
  destruct (close_block st) as [html1| |]; try reflexivity.
  cbn [bind omap]. change (i (prepend html qs st)) with (i st).
  destruct (sweep decimal rest line (i st + 1)) as [[block m] rest'].
  destruct (split_question block) as [[q_text opts]| |]; try reflexivity.
  cbn [bind omap].
  destruct rest' as [|l rest''].
  - cbn. unfold prepend. cbn. now rewrite <- !app_assoc.
  - destruct (startswith (strip l) answer_marker);
      cbn; unfold prepend; cbn; now rewrite <- !app_assoc.
Qed.

Lemma iteration_shift (pre lines : list str) (st : state) :
  iteration decimal (pre ++ lines) (shift (length pre) st)
  = omap (shift (length pre)) (iteration decimal lines st).
Proof.
  unfold iteration. cbn [i shift].
  rewrite skipn_app, Nat.add_comm, skipn_all2 by lia.
  replace (i st + length pre - length pre)%nat with (i st) by lia.
  cbn [app].
  destruct (skipn (i st) lines) as [|raw rest]; [reflexivity|].
  cbv zeta.
  destruct (negb (nonempty (strip raw))).
  { cbn. unfold shift, advance. cbn. do 2 f_equal. lia. }
  destruct (match_question decimal (strip raw)).
  - apply on_header_shift.
  - cbn. unfold shift, advance. cbn. do 2 f_equal. lia.
Qed.

Lemma iteration_prepend (html : list str) (qs : list question)
  (lines : list str) (st : state) :
  iteration decimal lines (prepend html qs st)
  = omap (prepend html qs) (iteration decimal lines st).
Proof.
  unfold iteration. change (i (prepend html qs st)) with (i st).
  destruct (skipn (i st) lines) as [|raw rest]; [reflexivity|].
  cbv zeta.
  destruct (negb (nonempty (strip raw))); [reflexivity|].
  destruct (match_question decimal (strip raw)); [|reflexivity].
  apply on_header_prepend.
Qed.

Lemma run_shift (pre lines : list str) (st : state) :
  run decimal (pre ++ lines) (shift (length pre) st)
  = omap (shift (length pre)) (run decimal lines st).
Proof.
  revert st. apply (@run_ind decimal lines
    (fun st => run decimal (pre ++ lines) (shift (length pre) st)
               = omap (shift (length pre)) (run decimal lines st))).
  - intros st Hi. rewrite !run_unfold, length_app. cbn [i shift].
    assert (H1 : (length pre + i st <? length pre + length lines)%nat
                 = false) by (apply Nat.ltb_ge; lia).
    assert (H2 : (i st <? length lines)%nat = false)
      by (apply Nat.ltb_ge; lia).
    now rewrite H1, H2.
  - intros st Hi IH. rewrite (run_unfold decimal lines st).
    rewrite (run_unfold decimal (pre ++ lines)), length_app.
    cbn [i shift].
    assert (H1 : (length pre + i st <? length pre + length lines)%nat
                 = true) by (apply Nat.ltb_lt; lia).
    assert (H2 : (i st <? length lines)%nat = true)
      by (apply Nat.ltb_lt; lia).
    rewrite H1, H2, iteration_shift, omap_bind, bind_omap.
    apply bind_ext. intros st1 H. now apply IH.
Qed.

Lemma run_prepend (html : list str) (qs : list question)
  (lines : list str) (st : state) :
  run decimal lines (prepend html qs st)
  = omap (prepend html qs) (run decimal lines st).
Proof.
  revert st. apply (@run_ind decimal lines
    (fun st => run decimal lines (prepend html qs st)
               = omap (prepend html qs) (run decimal lines st))).
  - intros st Hi. rewrite !run_unfold. cbn [i prepend].
    apply Nat.ltb_ge in Hi. now rewrite Hi.
  - intros st Hi IH. rewrite (run_unfold decimal lines st).
    rewrite (run_unfold decimal lines (prepend html qs st)).
    cbn [i prepend]. apply Nat.ltb_lt in Hi. rewrite Hi.
    rewrite iteration_prepend, omap_bind, bind_omap.
    apply bind_ext. intros st1 H. now apply IH.
Qed.

(** *** A header stops whatever comes before it *)

Variable h : str.
Hypothesis h_boundary : match_boundary decimal (strip h) = true.
Hypothesis h_not_answer : startswith (strip h) answer_marker = false.

Lemma sweep_before_header (tail rest : list str) (b : str) (n : nat) :
  sweep decimal (tail ++ h :: rest) b n
  = let '(b', n', r') := sweep decimal tail b n in
    (b', n', r' ++ h :: rest).
Proof.
  revert b n. induction tail as [|l tail IH]; intros b n.
  - simpl. now rewrite h_boundary.
  - cbn [app sweep].
    destruct (negb (match_boundary decimal (strip l))); [|reflexivity].
    apply IH.
Qed.

Lemma on_header_before_header (line : str) (tail rest : list str)
  (st : state) :
  on_header decimal line (tail ++ h :: rest) st
  = on_header decimal line tail st.
Proof.
  unfold on_header.
  destruct (close_block st) as [html1| |]; try reflexivity.
  cbn [bind]. rewrite sweep_before_header.
  destruct (sweep decimal tail line (i st + 1)) as [[block m] r'].
  destruct (split_question block) as [[q_text opts]| |]; try reflexivity.
  cbn [bind].
  destruct r' as [|l r'']; [|reflexivity].
  cbn [app]. now rewrite h_not_answer.
Qed.

Lemma iteration_before_header (pre rest : list str) (st : state) :
  (i st < length pre)%nat ->
  iteration decimal (pre ++ h :: rest) st = iteration decimal pre st.
Proof.
  intros Hi. unfold iteration.
  rewrite skipn_app.
  replace (i st - length pre)%nat with 0%nat by lia. cbn [skipn].
  destruct (skipn (i st) pre) as [|raw tail] eqn:E.
  { apply (f_equal (@length str)) in E. rewrite length_skipn in E.
    simpl in E. lia. }
  cbn [app]. cbv zeta.
  destruct (negb (nonempty (strip raw))); [reflexivity|].
  destruct (match_question decimal (strip raw)); [|reflexivity].
  apply on_header_before_header.
Qed.

Lemma run_before_header (pre rest : list str) (st : state) :
  (i st <= length pre)%nat ->
  run decimal (pre ++ h :: rest) st
  = bind (run decimal pre st) (run decimal (pre ++ h :: rest)).
Proof.
  revert st. apply (@run_ind decimal pre
    (fun st => (i st <= length pre)%nat ->
       run decimal (pre ++ h :: rest) st
       = bind (run decimal pre st) (run decimal (pre ++ h :: rest)))).
  - intros st Hi _. rewrite (run_unfold decimal pre st).
    apply Nat.ltb_ge in Hi. now rewrite Hi.
  - intros st Hi IH _. rewrite (run_unfold decimal pre st).
    rewrite (run_unfold decimal (pre ++ h :: rest) st), length_app.
    assert (H1 : (i st <? length pre + length (h :: rest))%nat = true)
      by (apply Nat.ltb_lt; lia).
    assert (H2 : (i st <? length pre)%nat = true)
      by (apply Nat.ltb_lt; lia).
    rewrite H1, H2, iteration_before_header, bind_assoc by exact Hi.
    apply bind_ext. intros st1 H. apply IH; [exact H|].
    apply iteration_index in H. lia.
Qed.

End Decomposition.

Section AtHeader.

Variable decimal : char -> bool.
Hypothesis decimal_ok : unicode_decimal decimal.

Lemma decimal_not_dot (c : char) : decimal c = true -> c <> dot.
Proof.
  intros H ->. rewrite (decimal_low decimal decimal_ok) in H by reflexivity.
  discriminate.
Qed.

(** A question header is not an answer line. *)
Lemma header_not_answer (s : str) :
  match_question decimal s = true -> startswith s answer_marker = false.
Proof.
  intros H. apply match_question_shape in H.
  destruct H as (d1 & rest & -> & Hd & _).
  change answer_marker with (226 :: tl answer_marker).
  cbn [startswith].
  destruct (226 =? d1) eqn:E; [|reflexivity].
  apply N.eqb_eq in E. subst d1.
  rewrite (decimal_low decimal decimal_ok) in Hd by reflexivity. discriminate.
Qed.

Lemma header_boundary (s : str) :
  match_question decimal s = true -> match_boundary decimal s = true.
Proof. unfold match_boundary. now intros ->. Qed.

Lemma header_nonempty (s : str) :
  match_question decimal s = true -> nonempty s = true.
Proof. now destruct s. Qed.

Lemma run_final_index (lines : list str) (st st' : state) :
  run decimal lines st = Return st' -> (i st <= length lines)%nat ->
  i st' = length lines.
Proof.
  intros H Hi.
  assert (H1 : (i st' <= length lines)%nat).
  { revert H. apply (@run_invariant decimal lines
      (fun s => (i s <= length lines)%nat)); [|exact Hi].
    intros s s' _ _ Hs. apply iteration_index in Hs. lia. }
  assert (H2 : (length lines <= i st')%nat).
  { revert st' H Hi H1. revert st. apply (@run_ind decimal lines
      (fun st => forall st', run decimal lines st = Return st' ->
         (i st <= length lines)%nat -> (i st' <= length lines)%nat ->
         (length lines <= i st')%nat)).
    - intros st Hge st' H _ _. rewrite run_unfold in H.
      apply Nat.ltb_ge in Hge. rewrite Hge in H.
      injection H as <-. now apply Nat.ltb_ge.
    - intros st Hlt IH st' H _ Hle. rewrite run_unfold in H.
      pose proof Hlt as Hlt'. apply Nat.ltb_lt in Hlt'.
      rewrite Hlt' in H.
      destruct (iteration decimal lines st) as [s1| |] eqn:E;
        simpl in H; try discriminate.
      apply (IH s1 eq_refl st' H); [|exact Hle].
      apply iteration_index in E. lia. }
  lia.
Qed.

Lemma shift_rewind (st : state) : shift (i st) (rewind st) = st.
Proof. destruct st. unfold shift, rewind. cbn. f_equal. lia. Qed.

Lemma iteration_header_frame (h : str) (rest : list str) (st : state) :
  match_question decimal (strip h) = true -> i st = 0%nat ->
  iteration decimal (h :: rest) st
  = bind (close_block st) (fun html1 =>
      omap (prepend html1 (emitted st))
        (iteration decimal (h :: rest) init)).
Proof.
  intros Hq Hi. unfold iteration. rewrite Hi. cbn [i init skipn].
  cbv zeta. rewrite (header_nonempty _ Hq), Hq. cbn [negb].
  unfold on_header. rewrite Hi. cbn [i init close_block in_question_block].
  destruct (close_block st) as [html1| |]; try reflexivity.
  cbn [bind].
  destruct (sweep decimal rest (strip h) (0 + 1)) as [[block m] rest'].
  destruct (split_question block) as [[q_text opts]| |]; try reflexivity.
  cbn [bind omap].
  destruct rest' as [|l rest''].
  - cbn. unfold prepend. cbn.
    rewrite ?app_nil_r, <- ?app_assoc. reflexivity.
  - destruct (startswith (strip l) answer_marker);
      cbn; unfold prepend; cbn;
      rewrite ?app_nil_r, <- ?app_assoc; reflexivity.
Qed.

Lemma run_header_frame (h : str) (rest : list str) (st : state) :
  match_question decimal (strip h) = true -> i st = 0%nat ->
  run decimal (h :: rest) st
  = bind (close_block st) (fun html1 =>
      omap (prepend html1 (emitted st)) (run decimal (h :: rest) init)).
Proof.
  intros Hq Hi.
  rewrite (run_unfold decimal (h :: rest) st), Hi.
  rewrite (run_unfold decimal (h :: rest) init).
  cbn [i init length Nat.ltb Nat.leb].
  rewrite iteration_header_frame by assumption.
  rewrite bind_assoc. apply bind_ext. intros html1 _.
  rewrite omap_bind, bind_omap.
  apply bind_ext. intros s1 _. apply run_prepend.
Qed.

(** The scan of an input cut before a question header: the scan of what
    precedes, its closing block, then the scan of what follows. *)
Lemma scan_app_header (pre rest : list str) (h : str) :
  match_question decimal (strip h) = true ->
  scan decimal (pre ++ h :: rest)
  = bind (scan decimal pre) (fun st_pre =>
      bind (close_block st_pre) (fun html_pre =>
        omap (fun st_rest =>
                prepend html_pre (emitted st_pre)
                  (shift (length pre) st_rest))
          (scan decimal (h :: rest)))).
Proof.
  intros Hq. rewrite !scan_run.
  rewrite run_before_header;
    [|now apply header_boundary|now apply header_not_answer|simpl; lia].
  apply bind_ext. intros st_pre Hpre.
  apply run_final_index in Hpre; [|simpl; lia].
  rewrite <- (shift_rewind st_pre) at 1. rewrite Hpre.
  rewrite run_shift, run_header_frame by (assumption || reflexivity).
  change (close_block (rewind st_pre)) with (close_block st_pre).
  rewrite bind_omap. apply bind_ext. intros html_pre _.
  unfold omap. rewrite bind_assoc. reflexivity.
Qed.

Lemma scan_total (lines : list str) :
  exists st, scan decimal lines = Return st /\ well_formed st
             /\ i st = length lines.
Proof.
  rewrite scan_run.
  destruct (@run_total decimal lines init init_well_formed)
    as (st & H & Hwf & _).
  exists st. repeat split; try assumption.
  apply run_final_index in H; [exact H | simpl; lia].
Qed.

Lemma blocks_total (lines : list str) :
  exists st bs, scan decimal lines = Return st
                /\ close_block st = Return bs
                /\ blocks decimal lines = Return bs.
Proof.
  destruct (scan_total lines) as (st & H & Hwf & _).
  destruct (close_block_total st Hwf) as [bs Hbs].
  exists st, bs. unfold blocks. rewrite H. simpl. auto.
Qed.

(** The blocks of an input cut before a question header: the blocks of the
    part before it, as if the input ended there, then the blocks of the
    rest. *)
Lemma blocks_app_header (pre rest : list str) (h : str) :
  match_question decimal (strip h) = true ->
  exists bs1 bs2,
    blocks decimal pre = Return bs1
    /\ blocks decimal (h :: rest) = Return bs2
    /\ blocks decimal (pre ++ h :: rest) = Return (bs1 ++ bs2).
Proof.
  intros Hq.
  destruct (blocks_total pre) as (st1 & bs1 & Hs1 & Hc1 & Hb1).
  destruct (blocks_total (h :: rest)) as (st2 & bs2 & Hs2 & Hc2 & Hb2).
  exists bs1, bs2. repeat split; try assumption.
  unfold blocks. rewrite scan_app_header, Hs1, Hs2 by assumption.
  cbn [bind]. rewrite Hc1. cbn [bind omap].
  rewrite close_block_prepend, close_block_shift, Hc2. reflexivity.
Qed.

Lemma records_app_header (pre rest : list str) (h : str) :
  match_question decimal (strip h) = true ->
  exists rs1 rs2,
    records decimal pre = Return rs1
    /\ records decimal (h :: rest) = Return rs2
    /\ records decimal (pre ++ h :: rest) = Return (rs1 ++ rs2).
Proof.
  intros Hq.
  destruct (blocks_total pre) as (st1 & bs1 & Hs1 & Hc1 & Hb1).
  destruct (blocks_total (h :: rest)) as (st2 & bs2 & Hs2 & Hc2 & Hb2).
  exists (emitted st1), (emitted st2). unfold records.
  rewrite scan_app_header, Hs1, Hs2 by assumption.
  cbn [bind]. rewrite Hc1. cbn. auto.
Qed.

(** *** The record built at the head of the input *)

(** The loop only adds to the output and to the history. *)
Lemma run_extends (lines : list str) (st st' : state) :
  run decimal lines st = Return st' ->
  exists bs qs, html_output st' = html_output st ++ bs
                /\ emitted st' = emitted st ++ qs.
Proof.
  apply (@run_invariant decimal lines
    (fun s => exists bs qs, html_output s = html_output st ++ bs
                            /\ emitted s = emitted st ++ qs)).
  - intros s s' (bs & qs & Hb & He) _ H. unfold iteration in H.
    destruct (skipn (i s) lines) as [|raw rest]; [discriminate|].
    cbv zeta in H.
    destruct (negb (nonempty (strip raw))).
    { injection H as <-. now exists bs, qs. }
    destruct (match_question decimal (strip raw)).
    + apply on_header_spec in H.
      destruct H as (html1 & ? & ? & ? & q & Hc & _ & _ & _ & Hh & _ & _
                     & Hq & _).
      assert (Hx : exists extra, html1 = html_output s ++ extra).
      { unfold close_block in Hc.
        destruct (in_question_block s).
        - destruct (lookup_answer (current_question s)); simpl in Hc;
            try discriminate.
          injection Hc as <-. eexists; reflexivity.
        - injection Hc as <-. exists []. now rewrite app_nil_r. }
      destruct Hx as [extra ->].
      rewrite Hh, Hq, Hb, He.
      eexists; eexists. rewrite <- !app_assoc. split; reflexivity.
    + injection H as <-. now exists bs, qs.
  - exists [], []. now rewrite !app_nil_r.
Qed.

(** The first round on an input that starts with a question header. *)
Lemma scan_head (h : str) (rest : list str) :
  match_question decimal (strip h) = true ->
  exists st1,
    on_header decimal (strip h) rest init = Return st1
    /\ scan decimal (h :: rest) = run decimal (h :: rest) st1.
Proof.
  intros Hq.
  destruct (@on_header_total decimal (strip h) rest init
              init_well_formed Hq) as [st1 H1].
  exists st1. split; [exact H1|].
  rewrite scan_run, run_unfold. cbn [i init length Nat.ltb Nat.leb].
  unfold iteration. cbn [i init skipn]. cbv zeta.
  rewrite (header_nonempty _ Hq), Hq. cbn [negb]. now rewrite H1.
Qed.

End AtHeader.

Section Records.

Variable decimal : char -> bool.
Hypothesis decimal_ok : unicode_decimal decimal.

(** The record built from a header line [h], the lines [conts] merged into
    its block and what follows them. *)
Lemma head_record (h : str) (conts post : list str) :
  match_question decimal (strip h) = true ->
  Forall (fun l => match_boundary decimal (strip l) = false) conts ->
  stops_sweep decimal post ->
  exists st1 q,
    scan decimal (h :: conts ++ post)
    = run decimal (h :: conts ++ post) st1
    /\ well_formed st1
    /\ emitted st1 = [q]
    /\ html_output st1
       = question_html (number q) (text q) :: option_blocks (options q)
    /\ current_question st1 = Some q
    /\ in_question_block st1 = true
    /\ number q = strip (part0 (split1 dot (strip h)))
    /\ split_question (strip h ++ concat (map strip conts))
       = Return (text q, options q)
    /\ match post with
       | l :: _ =>
           if startswith (strip l) answer_marker
           then answer q = answer_of l /\ i st1 = (length conts + 2)%nat
           else answer q = [] /\ i st1 = (length conts + 1)%nat
       | [] => answer q = [] /\ i st1 = (length conts + 1)%nat
       end.
Proof.
  intros Hq Hc Hp.
  destruct (@scan_head decimal h (conts ++ post) Hq) as (st1 & H1 & Hs).
  exists st1.
  apply on_header_spec in H1.
  destruct H1 as (html1 & block & n & rest' & q & Hcl & Hsw & Hsq & Hn
                  & Hh & Hcq & Hin & He & Ha).
  exists q. cbn in Hcl. injection Hcl as <-.
  rewrite sweep_app in Hsw by assumption.
  injection Hsw as <- <- <-.
  repeat split; try assumption.
  - intros _. now rewrite Hcq.
  - destruct post as [|l post]; [|destruct (startswith _ _)];
      destruct Ha as [Ha1 Ha2]; split; try assumption; simpl in *; lia.
Qed.

(** The records of an input that starts with a header start with the
    record of that header. *)
Lemma records_head (h : str) (conts post : list str) :
  match_question decimal (strip h) = true ->
  Forall (fun l => match_boundary decimal (strip l) = false) conts ->
  stops_sweep decimal post ->
  exists q more,
    records decimal (h :: conts ++ post) = Return (q :: more)
    /\ number q = strip (part0 (split1 dot (strip h)))
    /\ split_question (strip h ++ concat (map strip conts))
       = Return (text q, options q)
    /\ answer q
       = match post with
         | l :: _ =>
             if startswith (strip l) answer_marker then answer_of l
             else []
         | [] => []
         end.
Proof.
  intros Hq Hc Hp.
  destruct (@head_record h conts post Hq Hc Hp)
    as (st1 & q & Hs & Hwf & He & _ & _ & _ & Hn & Hsq & Ha).
  destruct (@run_total decimal (h :: conts ++ post) st1 Hwf)
    as (st' & Hr & _ & _).
  destruct (@run_extends decimal _ _ _ Hr) as (bs & qs & _ & Hqs).
  exists q, qs. unfold records. rewrite Hs, Hr. cbn [bind].
  rewrite Hqs, He. repeat split; try assumption.
  destruct post as [|l post]; [|destruct (startswith _ _)]; tauto.
Qed.

(** Whatever follows the header, its record comes first. *)
Lemma records_head_any (h : str) (rest : list str) :
  match_question decimal (strip h) = true ->
  exists q more,
    records decimal (h :: rest) = Return (q :: more)
    /\ number q = strip (part0 (split1 dot (strip h))).
Proof.
  intros Hq.
  destruct (@scan_head decimal h rest Hq) as (st1 & H1 & Hs).
  apply on_header_spec in H1.
  destruct H1 as (html1 & block & n & rest' & q & _ & _ & _ & Hn
                  & _ & Hcq & _ & He & _).
  assert (Hwf : well_formed st1) by (intros _; now rewrite Hcq).
  destruct (@run_total decimal (h :: rest) st1 Hwf) as (st' & Hr & _ & _).
  destruct (@run_extends decimal _ _ _ Hr) as (bs & qs & _ & Hqs).
  exists q, qs. unfold records. rewrite Hs, Hr. cbn [bind].
  rewrite Hqs, He. auto.
Qed.

(** A record that reaches the end of the input: its blocks end with the
    closing block. *)
Lemma last_record (h : str) (conts post : list str) :
  match_question decimal (strip h) = true ->
  Forall (fun l => match_boundary decimal (strip l) = false) conts ->
  match post with
  | [] => True
  | [l] => startswith (strip l) answer_marker = true
  | _ => False
  end ->
  exists q,
    records decimal (h :: conts ++ post) = Return [q]
    /\ blocks decimal (h :: conts ++ post)
       = Return (question_html (number q) (text q)
                 :: option_blocks (options q) ++ [answer_html (answer q)])
    /\ number q = strip (part0 (split1 dot (strip h)))
    /\ split_question (strip h ++ concat (map strip conts))
       = Return (text q, options q)
    /\ answer q = match post with l :: _ => answer_of l | [] => [] end.
Proof.
  intros Hq Hc Hp.
  assert (Hstop : stops_sweep decimal post).
  { destruct post as [|l [|? ?]]; simpl in *; try tauto.
    unfold match_boundary. rewrite Hp. apply orb_true_r. }
  destruct (@head_record h conts post Hq Hc Hstop)
    as (st1 & q & Hs & Hwf & He & Hh & Hcq & Hin & Hn & Hsq & Ha).
  assert (Hend : run decimal (h :: conts ++ post) st1 = Return st1
                 /\ answer q
                    = match post with l :: _ => answer_of l | [] => [] end).
  { rewrite run_unfold.
    destruct post as [|l [|? ?]]; try tauto.
    - destruct Ha as [Ha Hi]. rewrite Hi.
      simpl length. rewrite length_app. simpl length.
      replace (length conts + 1 <? S (length conts + 0))%nat with false
        by (symmetry; apply Nat.ltb_ge; lia).
      auto.
    - rewrite Hp in Ha. destruct Ha as [Ha Hi]. rewrite Hi.
      simpl length. rewrite length_app. simpl length.
      replace (length conts + 2 <? S (length conts + 1))%nat with false
        by (symmetry; apply Nat.ltb_ge; lia).
      auto. }
  destruct Hend as [Hr Hans].
  exists q. unfold records, blocks. rewrite Hs, Hr. cbn [bind].
  unfold close_block. rewrite Hin, Hcq, He, Hh. cbn.
  repeat split; assumption.
Qed.

End Records.

(** ** The scan only consults [\d] on the lines it reads *)

Lemma match_question_low (decimal : char -> bool) (s : str) :
  unicode_decimal decimal ->
  (forall c, In c (firstn 2 s) -> c < 1632) ->
  match_question decimal s = match_question ascii_decimal s.
Proof.
  intros Hd Hs. destruct s as [|d1 [|c2 [|c3 s']]]; try reflexivity.
  simpl. rewrite (decimal_low _ Hd d1) by (apply Hs; simpl; tauto).
  rewrite (decimal_low _ Hd c2) by (apply Hs; simpl; tauto).
  reflexivity.
Qed.

Section Extensionality.

Variables decimal decimal' : char -> bool.

Variable lines : list str.
Hypothesis agree : forall l, In l lines ->
  match_question decimal (strip l) = match_question decimal' (strip l).

Lemma sweep_ext (rest : list str) (b : str) (n : nat) :
  incl rest lines -> sweep decimal rest b n = sweep decimal' rest b n.
Proof.
  revert b n. induction rest as [|l rest IH]; intros b n Hin;
    [reflexivity|].
  cbn [sweep]. unfold match_boundary.
  rewrite agree by (apply Hin; now left).
  rewrite IH by (intros x Hx; apply Hin; now right).
  reflexivity.
Qed.

Lemma iteration_ext (st : state) :
  iteration decimal lines st = iteration decimal' lines st.
Proof.
  unfold iteration.
  assert (Hin : incl (skipn (i st) lines) lines).
  { intros x Hx. rewrite <- (firstn_skipn (i st) lines).
    apply in_or_app. now right. }
  destruct (skipn (i st) lines) as [|raw rest]; [reflexivity|].
  cbv zeta. rewrite agree by (apply Hin; now left).
  unfold on_header.
  rewrite sweep_ext by (intros x Hx; apply Hin; now right).
  reflexivity.
Qed.

Lemma loop_ext (fuel : nat) (st : state) :
  loop decimal fuel lines st = loop decimal' fuel lines st.
Proof.
  revert st. induction fuel as [|fuel IH]; intros st; [reflexivity|].
  cbn [loop]. rewrite iteration_ext.
  destruct (i st <? length lines)%nat; [|reflexivity].
  apply bind_ext. intros st' _. apply IH.
Qed.

Lemma scan_ext : scan decimal lines = scan decimal' lines.
Proof. apply loop_ext. Qed.

End Extensionality.

(** ** The label of a header line *)

Section Labels.

Variable decimal : char -> bool.
Hypothesis decimal_ok : unicode_decimal decimal.

(** A header line is its label of one or two digits, a period, a space and
    the rest. *)
Lemma header_label (s : str) :
  match_question decimal s = true ->
  exists label rest,
    s = label ++ dot :: space :: rest
    /\ Forall (fun c => decimal c = true) label
    /\ (1 <= length label <= 2)%nat
    /\ ~ In dot label
    /\ strip label = label.
Proof.
  intros H. apply match_question_shape in H.
  destruct H as (d1 & r & -> & Hd1 & [[t ->]|(d2 & t & -> & Hd2)]).
  - exists [d1], t. repeat split; simpl; try lia.
    + now repeat constructor.
    + intros [E|[]]. now apply (decimal_not_dot decimal decimal_ok d1 Hd1).
    + rewrite strip_cons_keep
        by now apply (decimal_not_space decimal decimal_ok).
      reflexivity.
  - exists [d1; d2], t. repeat split; simpl; try lia.
    + now repeat constructor.
    + intros [E|[E|[]]];
        [now apply (decimal_not_dot decimal decimal_ok d1 Hd1)
        |now apply (decimal_not_dot decimal decimal_ok d2 Hd2)].
    + rewrite strip_cons_keep
        by now apply (decimal_not_space decimal decimal_ok).
      rewrite rstrip_cons_keep
        by now apply (decimal_not_space decimal decimal_ok).
      reflexivity.
Qed.

(** The text after the label of a trimmed header line is not blank. *)
Lemma header_rest_not_blank (raw : str) (label rest x : str) :
  strip raw = label ++ dot :: space :: rest ->
  strip (space :: rest ++ x) <> [].
Proof.
  intros E. pose proof (strip_last raw) as Hl. rewrite E in Hl.
  rewrite rev_app_distr in Hl. simpl in Hl.
  destruct (rev rest) as [|c r] eqn:Er.
  - simpl in Hl. discriminate.
  - simpl in Hl. apply strip_keeps with (c := c); [|exact Hl].
    right. apply in_or_app. left. apply in_rev. rewrite Er. now left.
Qed.

End Labels.

(** ** Option lines that segment cleanly *)

Lemma split_BD_from_cons (piece : str) (c : char) (s : str) :
  split_BD_from piece (c :: s)
  = if delimiter_at (c :: s)
    then rev piece :: firstn 3 (c :: s) :: split_BD_from [] (skipn 3 (c :: s))
    else split_BD_from (c :: piece) s.
Proof. destruct s as [|d [|sp s]]; reflexivity. Qed.

Lemma is_BD_char (c : char) :
  is_BD c = true -> c <> dot /\ c <> space /\ is_AD c = true.
Proof.
  unfold is_BD, is_AD, dot, space. intros H.
  apply andb_true_iff in H as [H1 H2].
  apply N.leb_le in H1. apply N.leb_le in H2.
  repeat split; try lia.
  apply andb_true_iff. split; apply N.leb_le; lia.
Qed.

(** A text without delimiter has none either when an option follows it. *)
Lemma delimiter_at_app (x : char) (t next : str) :
  delimiter_at (x :: t) = false ->
  match next with
  | [] => True
  | c :: _ => c <> dot /\ c <> space
  end ->
  delimiter_at (x :: t ++ next) = false.
Proof.
  intros H Hnext.
  destruct t as [|d [|sp t]].
  - destruct next as [|c [|c2 next]]; try reflexivity.
    simpl. destruct Hnext as [Hd _].
    apply N.eqb_neq in Hd. rewrite Hd. now rewrite andb_false_r.
  - destruct next as [|c next]; try reflexivity.
    simpl. destruct Hnext as [_ Hs].
    apply N.eqb_neq in Hs. rewrite Hs. now rewrite andb_false_r.
  - exact H.
Qed.

Lemma split_clean_end (piece t : str) :
  has_delimiter t = false -> split_BD_from piece t = [rev piece ++ t].
Proof.
  revert piece. induction t as [|x t IH]; intros piece H.
  - simpl. now rewrite app_nil_r.
  - cbn [has_delimiter] in H. apply orb_false_iff in H as [H1 H2].
    rewrite split_BD_from_cons, H1, IH by exact H2.
    simpl. now rewrite <- app_assoc.
Qed.

Lemma split_clean_mid (piece t : str) (c : char) (rest : str) :
  has_delimiter t = false -> is_BD c = true ->
  split_BD_from piece (t ++ c :: dot :: space :: rest)
  = (rev piece ++ t) :: [c; dot; space] :: split_BD_from [] rest.
Proof.
  intros Ht Hc. revert piece Ht.
  induction t as [|x t IH]; intros piece Ht.
  - cbn [app]. rewrite split_BD_from_cons. cbn [delimiter_at].
    rewrite Hc, !N.eqb_refl. cbn. now rewrite app_nil_r.
  - cbn [has_delimiter] in Ht. apply orb_false_iff in Ht as [H1 H2].
    cbn [app]. rewrite split_BD_from_cons.
    rewrite (delimiter_at_app x t (c :: dot :: space :: rest) H1)
      by (destruct (is_BD_char c Hc) as (? & ? & _); now split).
    rewrite IH by exact H2. simpl. now rewrite <- app_assoc.
Qed.

Lemma clean_later_shape (s : str) :
  clean_later s = true ->
  exists c body, s = c :: dot :: space :: body /\ is_BD c = true
    /\ has_delimiter body = false /\ match_option body = false.
Proof.
  destruct s as [|c [|d [|sp body]]]; try discriminate.
  cbn [clean_later]. intros H.
  apply andb_true_iff in H as [H Hm].
  apply andb_true_iff in H as [H Hb].
  apply andb_true_iff in H as [H Hsp].
  apply andb_true_iff in H as [Hc Hd].
  apply N.eqb_eq in Hd. apply N.eqb_eq in Hsp. subst d sp.
  exists c, body. repeat split; try assumption; now apply negb_true_iff.
Qed.

(** The split of a text followed by clean later options. *)
Lemma split_clean (t : str) (stripped : list str) (piece : str) :
  has_delimiter t = false ->
  Forall (fun s => clean_later s = true) stripped ->
  split_BD_from piece (t ++ concat stripped)
  = (rev piece ++ t) :: later_items stripped.
Proof.
  intros Ht Hs. revert t piece Ht.
  induction Hs as [|s stripped Hc Hs IH]; intros t piece Ht.
  - simpl. rewrite app_nil_r. now apply split_clean_end.
  - destruct (clean_later_shape s Hc) as (c & body & -> & Hbd & Hb & _).
    cbn [concat app later_items firstn skipn].
    rewrite split_clean_mid by assumption.
    f_equal. f_equal.
    rewrite (IH body [] Hb). reflexivity.
Qed.

Lemma strip_fixed (s : str) :
  match s with [] => True | c :: _ => is_space c = false end ->
  match rev s with [] => True | c :: _ => is_space c = false end ->
  strip s = s.
Proof.
  intros H1 H2. unfold strip, rstrip.
  rewrite (lstrip_fixed s H1), (lstrip_fixed (rev s) H2).
  apply rev_involutive.
Qed.

Lemma strip_idempotent (s : str) : strip (strip s) = strip s.
Proof. apply strip_fixed; [apply strip_head | apply strip_last]. Qed.

Lemma regroup_step_flush (final : list str) (temp item : str) :
  match_option item = true -> temp <> [] ->
  regroup_step (final, temp) item = (final ++ [strip temp], item).
Proof.
  intros Hm Ht. unfold regroup_step. rewrite Hm.
  destruct temp; [congruence | reflexivity].
Qed.

Lemma regroup_step_flush_first (item : str) :
  match_option item = true -> regroup_step ([], []) item = ([], item).
Proof. intros Hm. unfold regroup_step. now rewrite Hm. Qed.

Lemma regroup_step_extend (final : list str) (temp item : str) :
  match_option item = false ->
  regroup_step (final, temp) item = (final, temp ++ item).
Proof. intros Hm. unfold regroup_step. now rewrite Hm. Qed.

(** The regrouping of the items of clean later options, [temp] being the
    option in progress: each delimiter flushes it and starts the next. *)
Lemma regroup_clean (lines : list str) (final : list str) (temp : str) :
  Forall (fun o => clean_later (strip o) = true) lines ->
  temp <> [] ->
  exists final' temp',
    fold_left regroup_step (later_items (map strip lines)) (final, temp)
    = (final', temp')
    /\ temp' <> []
    /\ final' ++ [strip temp'] = final ++ strip temp :: map strip lines.
Proof.
  intros Hl. revert final temp.
  induction Hl as [|o lines Hc Hl IH]; intros final temp Ht.
  - exists final, temp. simpl. auto.
  - destruct (clean_later_shape (strip o) Hc)
      as (c & body & E & Hbd & Hb & Hm).
    cbn [map later_items fold_left]. rewrite E.
    cbn [firstn skipn].
    assert (Hd : match_option [c; dot; space] = true).
    { cbn. destruct (is_BD_char c Hbd) as (_ & _ & ->). reflexivity. }
    rewrite regroup_step_flush by assumption.
    rewrite regroup_step_extend by assumption.
    cbn [app].
    destruct (IH (final ++ [strip temp]) (c :: dot :: space :: body))
      as (final' & temp' & Hf & Hne & Hres); [discriminate|].
    exists final', temp'. repeat split; try assumption.
    rewrite Hres, <- E, strip_idempotent, <- app_assoc. reflexivity.
Qed.

(** Clean option lines come back one option per line. *)
Lemma segment_clean (o1 : str) (opts : list str) :
  clean_first (strip o1) = true ->
  Forall (fun o => clean_later (strip o) = true) opts ->
  segment_options (concat (map strip (o1 :: opts)))
  = map strip (o1 :: opts).
Proof.
  intros H1 Hl.
  destruct (strip o1) as [|c [|d [|sp body]]] eqn:E; try discriminate.
  cbn [clean_first] in H1.
  apply andb_true_iff in H1 as [H1 Hb].
  apply andb_true_iff in H1 as [H1 Hsp].
  apply andb_true_iff in H1 as [Hc Hd].
  apply N.eqb_eq in Hc. apply N.eqb_eq in Hd. apply N.eqb_eq in Hsp.
  subst c d sp. apply negb_true_iff in Hb.
  assert (Hp : has_delimiter (65 :: dot :: space :: body) = false).
  { cbn [has_delimiter]. rewrite Hb.
    destruct body as [|b0 [|b1 body]]; reflexivity. }
  unfold segment_options, split_BD. cbn [map concat]. rewrite E.
  rewrite split_clean; [|exact Hp|].
  2:{ clear -Hl. induction Hl; constructor; assumption. }
  cbn [rev app fold_left].
  rewrite regroup_step_flush_first by reflexivity.
  destruct (regroup_clean opts [] (65 :: dot :: space :: body) Hl)
    as (final' & temp' & Hf & Hne & Hres); [discriminate|].
  match goal with |- context [fold_left regroup_step ?l ?a] =>
    replace (fold_left regroup_step l a) with (final', temp')
      by (symmetry; exact Hf)
  end.
  destruct temp' as [|t0 temp']; [congruence|].
  cbn [nonempty]. rewrite Hres. cbn [app]. f_equal.
  transitivity (strip (strip o1)); [now rewrite E|].
  rewrite strip_idempotent. exact E.
Qed.

(** ** Where the first "A." of a block is *)

(** If "A." does not occur in [p], the first "A." of [p] followed by a
    string that starts with "A." is at the end of [p]. *)
Lemma find_A_after (p b : str) :
  find p (lit "A.") = (-1)%Z ->
  find (p ++ 65 :: dot :: b) (lit "A.") = len p.
Proof.
  intros Hp. unfold find.
  rewrite find_from_absent_app.
  - cbn [find_from]. rewrite lit_A_dot.
    change (startswith (65 :: dot :: b) [65; dot]) with (startswith b []).
    rewrite startswith_nil. reflexivity.
  - intros k Hk.
    pose proof (find_from_none p (lit "A.") 0 k Hp ltac:(lia)) as Hn.
    pose proof (find_from_none p (lit "A.") 0 (S k) Hp ltac:(lia)) as Hn1.
    rewrite skipn_app.
    replace (k - length p)%nat with 0%nat by lia. cbn [skipn].
    rewrite lit_A_dot in *.
    destruct (skipn k p) as [|x xs] eqn:E.
    { apply (f_equal (@length char)) in E. rewrite length_skipn in E.
      simpl in E. lia. }
    cbn [app startswith].
    destruct (65 =? x) eqn:Ex; [|reflexivity].
    destruct xs as [|y xs]; cbn [app startswith andb].
    + reflexivity.
    + cbn [startswith] in Hn. rewrite Ex in Hn. cbn [andb] in Hn.
      rewrite startswith_nil in *. exact Hn.
Qed.

Lemma firstn_len_app (x y : str) : firstn (length x) (x ++ y) = x.
Proof.
  rewrite firstn_app, Nat.sub_diag, firstn_all. simpl.
  now rewrite app_nil_r.
Qed.

Lemma skipn_len_app (x y : str) : skipn (length x) (x ++ y) = y.
Proof.
  rewrite skipn_app, Nat.sub_diag, skipn_all. reflexivity.
Qed.

(** The split of a block whose first "A." starts the options blob [b]:
    the label, the text up to the blob, and the blob. *)
Lemma split_question_at_A (label post_label b : str) :
  ~ In dot label ->
  find (label ++ dot :: post_label) (lit "A.") = (-1)%Z ->
  split_question (label ++ dot :: post_label ++ 65 :: dot :: b)
  = Return (strip post_label, segment_options (strip (65 :: dot :: b))).
Proof.
  intros Hnd Hfind.
  assert (Hpos : find (label ++ dot :: post_label ++ 65 :: dot :: b)
                   (lit "A.")
                 = len (label ++ dot :: post_label)).
  { rewrite <- (find_A_after (label ++ dot :: post_label) b Hfind).
    now rewrite <- app_assoc. }
  assert (Hlen : len (label ++ dot :: post_label)
                 = (len label + 1 + len post_label)%Z).
  { unfold len. rewrite length_app. cbn [length]. lia. }
  assert (Hnn : (0 <= len label /\ 0 <= len post_label)%Z)
    by (unfold len; lia).
  unfold split_question. rewrite Hpos, Hlen.
  destruct (len label + 1 + len post_label =? -1)%Z eqn:Eneg;
    [apply Z.eqb_eq in Eneg; lia|].
  cbn [negb].
  rewrite split1_app by exact Hnd. cbn [part0 part1 fst snd].
  replace (len label + 1 + len post_label - len label - 1)%Z
    with (len post_label) by lia.
  unfold slice_to, slice_from.
  destruct (len post_label <? 0)%Z eqn:E1;
    [apply Z.ltb_lt in E1; lia|].
  destruct (len label + 1 + len post_label <? 0)%Z eqn:E2;
    [apply Z.ltb_lt in E2; lia|].
  rewrite <- Hlen. unfold len. rewrite !Nat2Z.id.
  rewrite firstn_len_app.
  replace (label ++ dot :: post_label ++ 65 :: dot :: b)
    with ((label ++ dot :: post_label) ++ 65 :: dot :: b)
    by now rewrite <- app_assoc.
  rewrite skipn_len_app. reflexivity.
Qed.

(** An option line is not a boundary. *)
Lemma option_not_boundary (decimal : char -> bool) (s : str) :
  unicode_decimal decimal ->
  match_option s = true -> match_boundary decimal s = false.
Proof.
  intros Hd H. destruct s as [|c [|d [|sp s]]]; try discriminate.
  cbn [match_option] in H.
  apply andb_true_iff in H as [H _]. apply andb_true_iff in H as [H _].
  unfold is_AD in H. apply andb_true_iff in H as [H1 H2].
  apply N.leb_le in H1. apply N.leb_le in H2.
  unfold match_boundary. apply orb_false_iff. split.
  - cbn [match_question].
    rewrite (decimal_low decimal Hd c) by lia.
    unfold ascii_decimal.
    replace (c <=? 57) with false by (symmetry; apply N.leb_gt; lia).
    now rewrite andb_false_r.
  - change answer_marker with (226 :: tl answer_marker).
    cbn [startswith].
    replace (226 =? c) with false by (symmetry; apply N.eqb_neq; lia).
    reflexivity.
Qed.

(** The concatenation of option lines ends as its last line does. *)
Lemma concat_options_last (lines : list str) :
  lines <> [] ->
  Forall (fun o => match_option (strip o) = true) lines ->
  match rev (concat (map strip lines)) with
  | [] => True
  | c :: _ => is_space c = false
  end.
Proof.
  intros Hne Hl.
  destruct (exists_last Hne) as (l' & z & ->).
  apply Forall_app in Hl as [_ Hz]. inversion Hz as [|? ? Hm _]; subst.
  rewrite map_app, concat_app. cbn [map concat].
  rewrite app_nil_r, rev_app_distr.
  pose proof (strip_last z) as Hlast.
  destruct (rev (strip z)) as [|c r] eqn:E.
  - apply (f_equal (@rev char)) in E. rewrite rev_involutive in E.
    rewrite E in Hm. discriminate.
  - exact Hlast.
Qed.

(** ** Inputs without a header, and the last header of an input *)

Section Skipping.

Variable decimal : char -> bool.

Lemma close_block_advance (st : state) :
  close_block (advance st) = close_block st.
Proof. reflexivity. Qed.

(** From a point where no header is left, the loop only moves [i]. *)
Lemma run_skips (lines : list str) (st : state) :
  Forall (fun l => match_question decimal (strip l) = false)
    (skipn (i st) lines) ->
  exists st',
    run decimal lines st = Return st'
    /\ html_output st' = html_output st
    /\ current_question st' = current_question st
    /\ in_question_block st' = in_question_block st
    /\ emitted st' = emitted st.
Proof.
  revert st. apply (run_ind decimal lines
    (fun st =>
       Forall (fun l => match_question decimal (strip l) = false)
         (skipn (i st) lines) ->
       exists st',
         run decimal lines st = Return st'
         /\ html_output st' = html_output st
         /\ current_question st' = current_question st
         /\ in_question_block st' = in_question_block st
         /\ emitted st' = emitted st)).
  - intros st Hi _. exists st. rewrite run_unfold.
    apply Nat.ltb_ge in Hi. rewrite Hi. auto.
  - intros st Hi IH Hno.
    assert (Hit : iteration decimal lines st = Return (advance st)
                  /\ Forall (fun l => match_question decimal (strip l)
                                      = false)
                       (skipn (i (advance st)) lines)).
    { unfold iteration.
      assert (Hs : skipn (i (advance st)) lines
                   = skipn 1 (skipn (i st) lines)).
      { rewrite skipn_skipn. cbn [i advance]. f_equal. lia. }
      rewrite Hs.
      destruct (skipn (i st) lines) as [|raw rest] eqn:E.
      { apply (f_equal (@length str)) in E. rewrite length_skipn in E.
        simpl in E. lia. }
      inversion Hno as [|? ? Hraw Hrest]; subst.
      cbv zeta. rewrite Hraw.
      destruct (negb (nonempty (strip raw))); split; auto. }
    destruct Hit as [Hit Hno'].
    destruct (IH (advance st) Hit Hno') as (st' & Hr & H1 & H2 & H3 & H4).
    exists st'. rewrite run_unfold.
    apply Nat.ltb_lt in Hi. rewrite Hi, Hit. cbn [bind].
    repeat split; assumption.
Qed.

(** Lines without header in front of an input only shift the scan. *)
Lemma scan_skips_prefix (junk lines : list str) :
  Forall (fun l => match_question decimal (strip l) = false) junk ->
  scan decimal (junk ++ lines)
  = omap (shift (length junk)) (scan decimal lines).
Proof.
  intros Hj. induction Hj as [|x junk Hx Hj IH].
  - cbn [app length]. destruct (scan decimal lines) as [st| |];
      try reflexivity.
    cbn. now destruct st.
  - rewrite scan_run, run_unfold. cbn [i init app length Nat.ltb Nat.leb].
    unfold iteration. cbn [i init skipn]. cbv zeta. rewrite Hx.
    assert (Hadv : advance init = shift 1 init) by reflexivity.
    replace (if negb (nonempty (strip x))
             then Return (advance init) else Return (advance init))
      with (Return (shift 1 init))
      by (rewrite Hadv; now destruct (negb (nonempty (strip x)))).
    cbn [bind].
    pose proof (run_shift decimal [x] (junk ++ lines) init) as Hsh.
    cbn [app length] in Hsh. rewrite Hsh, <- scan_run, IH.
    destruct (scan decimal lines) as [st| |]; reflexivity.
Qed.

End Skipping.

Section OneRecordPerHeader.

Variable decimal : char -> bool.

Lemma split_at_last_header (lines : list str) :
  Forall (fun l => match_question decimal (strip l) = false) lines
  \/ exists pre h rest,
       lines = pre ++ h :: rest
       /\ match_question decimal (strip h) = true
       /\ Forall (fun l => match_question decimal (strip l) = false) rest.
Proof.
  induction lines as [|x lines IH] using rev_ind.
  - left. constructor.
  - destruct (match_question decimal (strip x)) eqn:Hx.
    + right. exists lines, x, []. repeat split; [exact Hx | constructor].
    + destruct IH as [Hall|(pre & h & rest & -> & Hh & Hrest)].
      * left. apply Forall_app. split; [exact Hall|].
        constructor; [exact Hx | constructor].
      * right. exists pre, h, (rest ++ [x]).
        rewrite <- app_assoc. repeat split; try assumption.
        apply Forall_app. split; [exact Hrest|].
        constructor; [exact Hx | constructor].
Qed.

Lemma header_labels_none (lines : list str) :
  Forall (fun l => match_question decimal (strip l) = false) lines ->
  header_labels decimal lines = [].
Proof.
  intros H. unfold header_labels.
  induction H as [|x lines Hx _ IH]; [reflexivity|].
  cbn [map filter]. now rewrite Hx.
Qed.

Lemma header_labels_app (l1 l2 : list str) :
  header_labels decimal (l1 ++ l2)
  = header_labels decimal l1 ++ header_labels decimal l2.
Proof.
  unfold header_labels. now rewrite map_app, filter_app, map_app.
Qed.

Lemma records_none (lines : list str) :
  Forall (fun l => match_question decimal (strip l) = false) lines ->
  records decimal lines = Return [].
Proof.
  intros H.
  destruct (run_skips decimal lines init H) as (st & Hr & _ & _ & _ & He).
  unfold records. rewrite scan_run, Hr. cbn [bind]. now rewrite He.
Qed.

(** A header and lines without header: one record. *)
Lemma records_single (h : str) (rest : list str) :
  match_question decimal (strip h) = true ->
  Forall (fun l => match_question decimal (strip l) = false) rest ->
  exists q,
    records decimal (h :: rest) = Return [q]
    /\ number q = strip (part0 (split1 dot (strip h))).
Proof.
  intros Hq Hrest.
  destruct (scan_head decimal h rest Hq) as (st1 & H1 & Hs).
  pose proof (on_header_index decimal (strip h) rest init st1 H1) as Hi.
  apply on_header_spec in H1.
  destruct H1 as (html1 & block & n & rest' & q & _ & _ & _ & Hn & _ & _
                  & _ & He & _).
  cbn [emitted init app] in He. cbn [i init] in Hi.
  destruct (run_skips decimal (h :: rest) st1)
    as (st' & Hr & _ & _ & _ & He').
  { destruct (i st1) as [|k]; [lia|]. cbn [skipn].
    rewrite <- (firstn_skipn k rest) in Hrest.
    now apply Forall_app in Hrest. }
  exists q. unfold records. rewrite Hs, Hr. cbn [bind].
  rewrite He', He. auto.
Qed.

End OneRecordPerHeader.

(** ** The question block of each record *)

Section Blocks.

Variable decimal : char -> bool.

Lemma merged_split (rest : list str) :
  exists conts post,
    rest = conts ++ post
    /\ Forall (fun l => match_boundary decimal (strip l) = false) conts
    /\ stops_sweep decimal post
    /\ merged decimal rest = concat (map strip conts).
Proof.
  induction rest as [|l rest IH].
  - exists [], []. repeat split; constructor.
  - destruct (match_boundary decimal (strip l)) eqn:Hb.
    + exists [], (l :: rest). cbn [merged]. rewrite Hb.
      repeat split; [constructor | exact Hb].
    + destruct IH as (conts & post & -> & Hc & Hp & Hm).
      exists (l :: conts), post. cbn [merged map concat]. rewrite Hb, Hm.
      repeat split; [now constructor | exact Hp].
Qed.

Lemma merged_app_boundary (a b : list str) (h : str) :
  match_boundary decimal (strip h) = true ->
  merged decimal (a ++ h :: b) = merged decimal a.
Proof.
  intros Hh. induction a as [|l a IH]; cbn [app merged].
  - now rewrite Hh.
  - now rewrite IH.
Qed.

Lemma question_blocks_app_header (pre rest : list str) (h : str) :
  match_question decimal (strip h) = true ->
  question_blocks decimal (pre ++ h :: rest)
  = question_blocks decimal pre ++ question_blocks decimal (h :: rest).
Proof.
  intros Hh. induction pre as [|l pre IH]; [reflexivity|].
  cbn [app question_blocks]. rewrite IH.
  rewrite merged_app_boundary
    by (unfold match_boundary; now rewrite Hh).
  now destruct (match_question decimal (strip l)).
Qed.

Lemma question_blocks_none (lines : list str) :
  Forall (fun l => match_question decimal (strip l) = false) lines ->
  question_blocks decimal lines = [].
Proof.
  intros H. induction H as [|l lines Hl _ IH]; [reflexivity|].
  cbn [question_blocks]. now rewrite Hl.
Qed.

Hypothesis decimal_ok : unicode_decimal decimal.

(** A header and lines without header: one record, built from the block of
    the header. *)
Lemma records_single_block (h : str) (rest : list str) :
  match_question decimal (strip h) = true ->
  Forall (fun l => match_question decimal (strip l) = false) rest ->
  exists q,
    records decimal (h :: rest) = Return [q]
    /\ built_from decimal q (strip h ++ merged decimal rest).
Proof.
  intros Hq Hrest.
  destruct (merged_split rest) as (conts & post & E & Hc & Hp & Hm).
  destruct (records_single decimal h rest Hq Hrest) as (q & Hr & _).
  rewrite E in Hr.
  destruct (records_head decimal h conts post Hq Hc Hp)
    as (q' & more & Hr' & Hn & Hsq & _).
  rewrite Hr in Hr'. injection Hr' as <- _.
  exists q. rewrite E. split; [exact Hr|].
  exists h, (merged decimal (conts ++ post)).
  rewrite <- E, Hm. auto.
Qed.

(** The records are built, one by one, from the question blocks of the
    input. *)
Lemma records_from_blocks (lines : list str) :
  exists rs,
    records decimal lines = Return rs
    /\ Forall2 (built_from decimal) rs (question_blocks decimal lines).
Proof.
  remember (length lines) as n eqn:Hn. revert lines Hn.
  induction n as [n IH] using lt_wf_ind. intros lines Hn.
  destruct (split_at_last_header decimal lines)
    as [Hall|(pre & h & rest & -> & Hh & Hrest)].
  - exists []. rewrite (records_none decimal lines Hall).
    rewrite (question_blocks_none lines Hall). split; constructor.
  - destruct (IH (length pre)) with (lines := pre) as (rs_pre & Hrp & Hbp).
    { subst n. rewrite length_app. cbn [length]. lia. }
    { reflexivity. }
    destruct (records_single_block h rest Hh Hrest) as (q & Hq & Hb).
    destruct (records_app_header decimal decimal_ok pre rest h Hh)
      as (r1 & r2 & Hr1 & Hr2 & Hall).
    rewrite Hrp in Hr1. injection Hr1 as <-.
    rewrite Hq in Hr2. injection Hr2 as <-.
    exists (rs_pre ++ [q]). split; [exact Hall|].
    rewrite question_blocks_app_header by exact Hh.
    apply Forall2_app; [exact Hbp|].
    cbn [question_blocks]. rewrite Hh.
    rewrite (question_blocks_none rest Hrest).
    constructor; [exact Hb | constructor].
Qed.

End Blocks.

(** ** Cutting a block at its first "A." *)

Lemma find_from_shift (s sub : str) (pos pos' : Z) :
  (0 <= pos)%Z ->
  find_from s sub pos = (-1)%Z -> find_from s sub pos' = (-1)%Z.
Proof.
  intros Hpos H. apply find_from_absent. intros k _.
  now apply (find_from_none s sub pos k).
Qed.

(** A character other than "A" in front changes nothing to the absence of
    "A.". *)
Lemma find_A_cons (c : char) (s : str) :
  c <> 65 -> find s (lit "A.") = (-1)%Z ->
  find (c :: s) (lit "A.") = (-1)%Z.
Proof.
  intros Hc H. unfold find. cbn [find_from]. rewrite lit_A_dot.
  cbn [startswith].
  replace (65 =? c) with false by (symmetry; apply N.eqb_neq; congruence).
  cbn [andb]. rewrite <- lit_A_dot.
  now apply (find_from_shift s (lit "A.") 0).
Qed.

Lemma find_A_prefix (p s : str) :
  Forall (fun c => c <> 65) p -> find s (lit "A.") = (-1)%Z ->
  find (p ++ s) (lit "A.") = (-1)%Z.
Proof.
  intros Hp H. induction Hp as [|c p Hc _ IH]; [exact H|].
  cbn [app]. now apply find_A_cons.
Qed.

(** A string in which "A." occurs, cut at the first occurrence. *)
Lemma find_A_first (s : str) :
  find s (lit "A.") <> (-1)%Z ->
  exists mid tail,
    s = mid ++ 65 :: dot :: tail /\ find mid (lit "A.") = (-1)%Z.
Proof.
  unfold find. generalize 0%Z at 1 as pos.
  induction s as [|c s IH]; intros pos H.
  - cbn in H. congruence.
  - cbn [find_from] in H.
    destruct (startswith (c :: s) (lit "A.")) eqn:E.
    + apply startswith_split in E. destruct E as [t Et].
      rewrite lit_A_dot in Et. cbn [app] in Et.
      exists [], t. split; [exact Et | reflexivity].
    + destruct (IH _ H) as (mid & tail & -> & Hm).
      exists (c :: mid), tail. split; [reflexivity|].
      cbn [find_from]. 
      assert (E' : startswith (c :: mid) (lit "A.") = false).
      { rewrite lit_A_dot in *. cbn [startswith] in *.
        destruct (65 =? c); [|reflexivity]. cbn [andb] in *.
        destruct mid as [|m mid]; [reflexivity|].
        cbn [app startswith] in E. cbn [startswith].
        rewrite startswith_nil in *. exact E. }
      rewrite E'. now apply (find_from_shift mid (lit "A.") 0).
Qed.

Lemma decimal_not_A (decimal : char -> bool) (c : char) :
  unicode_decimal decimal -> decimal c = true -> c <> 65.
Proof.
  intros Hd Hc ->. rewrite (decimal_low decimal Hd 65) in Hc by lia.
  discriminate.
Qed.

(** The text and the options of a record, read off its block: the label,
    its period, then either no "A." at all, or the text up to the first
    "A." and the options blob from there on. *)
Lemma built_from_spec (decimal : char -> bool) (q : question)
  (block : str) :
  unicode_decimal decimal ->
  built_from decimal q block ->
  exists label rest,
    block = label ++ dot :: rest
    /\ Forall (fun c => decimal c = true) label
    /\ (1 <= length label <= 2)%nat
    /\ number q = label
    /\ ((find rest (lit "A.") = (-1)%Z
         /\ find block (lit "A.") = (-1)%Z
         /\ options q = [] /\ text q = strip rest /\ text q <> [])
        \/ (exists mid tail,
              rest = mid ++ lit "A." ++ tail
              /\ find mid (lit "A.") = (-1)%Z
              /\ find (label ++ dot :: mid) (lit "A.") = (-1)%Z
              /\ text q = strip mid
              /\ options q = segment_options (strip (lit "A." ++ tail)))).
Proof.
  intros Hd (raw & x & Hq & -> & Hn & Hsq).
  destruct (header_label decimal Hd _ Hq)
    as (label & r & El & Hl & Hlen & Hnd & Hsl).
  assert (Hpre : Forall (fun c => c <> 65) (label ++ [dot])).
  { apply Forall_app. split.
    - revert Hl. apply Forall_impl. intros c. now apply decimal_not_A.
    - constructor; [discriminate | constructor]. }
  exists label, (space :: r ++ x).
  rewrite El, <- app_assoc. cbn [app].
  split; [reflexivity|]. split; [exact Hl|]. split; [exact Hlen|].
  split.
  { rewrite Hn, El, split1_app by exact Hnd. exact Hsl. }
  rewrite El, <- app_assoc in Hsq. cbn [app] in Hsq.
  destruct (Z.eq_dec (find (space :: r ++ x) (lit "A.")) (-1)) as [E|E].
  - left. split; [exact E|].
    assert (Eb : find (label ++ dot :: space :: r ++ x) (lit "A.")
                 = (-1)%Z).
    { change (label ++ dot :: space :: r ++ x)
        with (label ++ [dot] ++ space :: r ++ x).
      rewrite app_assoc. now apply find_A_prefix. }
    split; [exact Eb|].
    destruct (split_question_cases _ _ _ Hsq)
      as [(_ & Ho & hd & after & Hsp & Ht)|(Hf & _)]; [|contradiction].
    split; [exact Ho|].
    rewrite split1_app in Hsp by exact Hnd. injection Hsp as _ <-.
    split; [exact Ht|]. rewrite Ht.
    now apply (@header_rest_not_blank raw label r x).
  - right. destruct (find_A_first _ E) as (mid & tail & Em & Hm).
    exists mid, tail. rewrite lit_A_dot. cbn [app].
    split; [exact Em|]. split; [exact Hm|].
    assert (Eb : find (label ++ dot :: mid) (lit "A.") = (-1)%Z).
    { change (label ++ dot :: mid) with (label ++ [dot] ++ mid).
      rewrite app_assoc. now apply find_A_prefix. }
    split; [exact Eb|].
    rewrite Em in Hsq.
    pose proof (split_question_at_A label mid tail Hnd Eb) as Hat.
    assert (Heq : Return (text q, options q)
                  = Return (strip mid,
                            segment_options (strip (65 :: dot :: tail))))
      by (rewrite <- Hsq; exact Hat).
    injection Heq as -> ->. auto.
Qed.

(** ** The number of options *)

Lemma split_BD_from_piece (piece s : str) :
  split_BD_from piece s
  = match split_BD_from [] s with
    | t :: rest => (rev piece ++ t) :: rest
    | [] => []
    end.
Proof.
  revert piece. induction s as [|c s IH]; intros piece.
  - cbn. now rewrite app_nil_r.
  - rewrite !split_BD_from_cons.
    destruct (delimiter_at (c :: s)).
    + cbn [rev app]. now rewrite app_nil_r.
    + rewrite (IH (c :: piece)), (IH [c]).
      destruct (split_BD_from [] s) as [|t rest]; [reflexivity|].
      cbn [rev app]. now rewrite <- app_assoc.
Qed.

Lemma delimiter_at_shape (s : str) :
  delimiter_at s = true ->
  exists c s'', s = c :: dot :: space :: s'' /\ is_BD c = true.
Proof.
  destruct s as [|c [|d [|sp s'']]]; try discriminate.
  cbn [delimiter_at]. intros H.
  apply andb_true_iff in H as [H Hsp].
  apply andb_true_iff in H as [Hc Hd].
  apply N.eqb_eq in Hd. apply N.eqb_eq in Hsp. subst.
  now exists c, s''.
Qed.

Lemma lit_A_space : lit "A. " = [65; 46; 32].
Proof. reflexivity. Qed.

Lemma delimiter_at_not_A (s : str) :
  delimiter_at s = true -> startswith s (lit "A. ") = false.
Proof.
  intros H. destruct (delimiter_at_shape s H) as (c & s'' & -> & Hc).
  rewrite lit_A_space. cbn [startswith].
  unfold is_BD in Hc. apply andb_true_iff in Hc as [H1 _].
  apply N.leb_le in H1.
  replace (65 =? c) with false by (symmetry; apply N.eqb_neq; lia).
  reflexivity.
Qed.

(** The first piece of a split starts like an option exactly when the
    string starts with "A. ". *)
Lemma first_piece_option (s : str) :
  match_option (hd [] (split_BD_from [] s)) = startswith s (lit "A. ").
Proof.
  destruct s as [|a s]; [reflexivity|].
  rewrite split_BD_from_cons.
  destruct (delimiter_at (a :: s)) eqn:D0.
  { now rewrite delimiter_at_not_A. }
  rewrite lit_A_space.
  destruct s as [|b s];
    [cbn [split_BD_from rev app hd match_option startswith];
     now rewrite andb_false_r|].
  rewrite split_BD_from_cons.
  destruct (delimiter_at (b :: s)) eqn:D1.
  { destruct (delimiter_at_shape _ D1) as (c & s'' & E & Hc).
    injection E as <- ->.
    cbn [rev app hd match_option startswith].
    destruct (is_BD_char b Hc) as (Hb & _ & _).
    replace (46 =? b) with false
      by (symmetry; apply N.eqb_neq; unfold dot in Hb; congruence).
    now rewrite andb_false_r. }
  destruct s as [|c s];
    [cbn [split_BD_from rev app hd match_option startswith];
     now rewrite !andb_false_r|].
  rewrite split_BD_from_cons.
  destruct (delimiter_at (c :: s)) eqn:D2.
  { destruct (delimiter_at_shape _ D2) as (c' & s'' & E & Hc).
    injection E as <- ->.
    cbn [rev app hd match_option startswith].
    destruct (is_BD_char c Hc) as (_ & Hs & _).
    replace (32 =? c) with false
      by (symmetry; apply N.eqb_neq; unfold space in Hs; congruence).
    now rewrite !andb_false_r. }
  destruct (split_BD_from_head [c; b; a] s) as (t & rest & ->).
  cbn [rev app hd match_option startswith].
  rewrite startswith_nil, andb_true_r.
  cbn [delimiter_at] in D0.
  rewrite (N.eqb_sym 46 b), (N.eqb_sym 32 c).
  unfold dot, space in *.
  destruct (b =? 46); [|now rewrite !andb_false_r].
  destruct (c =? 32); [|now rewrite !andb_false_r].
  rewrite !andb_true_r in *.
  unfold is_AD, is_BD in *.
  destruct (N.eq_dec a 65) as [->|Ha]; [reflexivity|].
  replace (65 =? a) with false by (symmetry; apply N.eqb_neq; congruence).
  apply andb_false_iff in D0. apply andb_false_iff.
  destruct D0 as [D|D]; [left | right; exact D].
  apply N.leb_gt in D. apply N.leb_gt. lia.
Qed.

Lemma occurrences_delimiter (c : char) (s : str) :
  is_BD c = true ->
  occurrences delimiter_at (c :: dot :: space :: s)
  = S (occurrences delimiter_at s)
  /\ occurrences delimiter_then_A (c :: dot :: space :: s)
     = ((if startswith s (lit "A. ") then 1 else 0)
        + occurrences delimiter_then_A s)%nat.
Proof.
  intros Hc.
  assert (D0 : delimiter_at (c :: dot :: space :: s) = true).
  { cbn [delimiter_at]. rewrite Hc. unfold dot, space.
    now rewrite !N.eqb_refl. }
  assert (D1 : delimiter_at (dot :: space :: s) = false)
    by (destruct s; reflexivity).
  assert (D2 : delimiter_at (space :: s) = false)
    by (destruct s as [|? [|? ?]]; reflexivity).
  cbn [occurrences]. unfold delimiter_then_A at 1 2 3.
  rewrite D0, D1, D2. cbn [andb skipn]. split.
  - reflexivity.
  - now rewrite !Nat.add_0_l.
Qed.

(** After the first piece, the items of a split that start like an option
    are its delimiters and the pieces that start with "A. ". *)
Lemma split_BD_options (s piece : str) :
  length (filter match_option (tl (split_BD_from piece s)))
  = (occurrences delimiter_at s + occurrences delimiter_then_A s)%nat.
Proof.
  remember (length s) as n eqn:Hn. revert s piece Hn.
  induction n as [n IH] using lt_wf_ind. intros s piece Hn.
  destruct s as [|c s]; [reflexivity|].
  rewrite split_BD_from_cons.
  destruct (delimiter_at (c :: s)) eqn:D.
  - destruct (delimiter_at_shape _ D) as (c' & s'' & E & Hc).
    injection E as <- ->.
    destruct (occurrences_delimiter c s'' Hc) as [-> ->].
    cbn [tl firstn skipn filter].
    replace (match_option [c; dot; space]) with true
      by (cbn; destruct (is_BD_char c Hc) as (_ & _ & ->); reflexivity).
    cbn [length].
    pose proof (first_piece_option s'') as Hf.
    pose proof (IH (length s'') ltac:(subst n; cbn; lia) s'' [] eq_refl)
      as Hrec.
    destruct (split_BD_from [] s'') as [|q0 rest''] eqn:Es.
    { destruct (split_BD_from_head [] s'') as (t & r & Et). congruence. }
    cbn [hd] in Hf. cbn [tl] in Hrec. cbn [filter]. rewrite Hf.
    destruct (startswith s'' (lit "A. ")); cbn [length]; lia.
  - rewrite (IH (length s) ltac:(subst n; cbn; lia) s (c :: piece) eq_refl).
    cbn [occurrences]. unfold delimiter_then_A at 2. rewrite D.
    cbn [andb]. reflexivity.
Qed.

(** With an option in progress, each item that starts like an option adds
    one option, and no other item does. *)
Lemma regroup_count (items : list str) (final : list str) (temp : str) :
  temp <> [] ->
  exists final' temp',
    fold_left regroup_step items (final, temp) = (final', temp')
    /\ temp' <> []
    /\ length final'
       = (length final + length (filter match_option items))%nat.
Proof.
  revert final temp. induction items as [|x items IH]; intros final temp Ht.
  - exists final, temp. cbn. repeat split; [exact Ht | lia].
  - cbn [fold_left filter].
    destruct (match_option x) eqn:Hm.
    + rewrite regroup_step_flush by assumption.
      destruct (IH (final ++ [strip temp]) x) as (f' & t' & E & Hne & Hlen).
      { intros ->. discriminate. }
      exists f', t'. repeat split; try assumption.
      rewrite Hlen, length_app. cbn [length]. lia.
    + rewrite regroup_step_extend by assumption.
      destruct (IH final (temp ++ x)) as (f' & t' & E & Hne & Hlen).
      { destruct temp; [congruence | discriminate]. }
      exists f', t'. repeat split; assumption.
Qed.

(** The options of a blob that starts with "A.": the A option, one option
    for each B./C./D. delimiter, and one more for each delimiter directly
    followed by "A. ". *)
Lemma segment_options_count (blob u : str) :
  blob = 65 :: dot :: u ->
  length (segment_options blob)
  = (1 + occurrences delimiter_at blob
     + occurrences delimiter_then_A blob)%nat.
Proof.
  intros ->.
  unfold segment_options. rewrite split_BD_A.
  pose proof (split_BD_options u [dot; 65]) as Hc.
  destruct (split_BD_from_head [dot; 65] u) as (t & rest & E).
  rewrite E in *. cbn [tl] in Hc. cbn [rev app] in *. cbn [fold_left].
  destruct (regroup_count rest [] (65 :: dot :: t))
    as (f' & t' & Ef & Hne & Hlen); [discriminate|].
  match goal with |- context [fold_left regroup_step rest ?a] =>
    replace (fold_left regroup_step rest a) with (f', t')
  end.
  2:{ rewrite <- Ef. f_equal. unfold regroup_step.
      now destruct (match_option _). }
  destruct t' as [|x t']; [congruence|]. cbn [nonempty].
  assert (A0 : delimiter_at (65 :: dot :: u) = false)
    by (destruct u as [|? ?]; reflexivity).
  assert (A1 : delimiter_at (dot :: u) = false)
    by (destruct u as [|? [|? ?]]; reflexivity).
  assert (B0 : delimiter_then_A (65 :: dot :: u) = false)
    by (unfold delimiter_then_A; now rewrite A0).
  assert (B1 : delimiter_then_A (dot :: u) = false)
    by (unfold delimiter_then_A; now rewrite A1).
  rewrite length_app, Hlen, Hc. cbn [length occurrences].
  rewrite A0, A1, B0, B1. lia.
Qed.

Lemma Forall2_left {A B} (R : A -> B -> Prop) (P : A -> Prop)
  (l : list A) (l' : list B) :
  (forall a b, R a b -> P a) -> Forall2 R l l' -> Forall P l.
Proof.
  intros H HR. induction HR as [|a b l l' Hab _ IH]; constructor.
  - exact (H a b Hab).
  - exact IH.
Qed.

Lemma Forall2_impl {A B} (R R' : A -> B -> Prop) (l : list A)
  (l' : list B) :
  (forall a b, R a b -> R' a b) -> Forall2 R l l' -> Forall2 R' l l'.
Proof.
  intros H HR. induction HR as [|a b l l' Hab _ IH]; constructor.
  - exact (H a b Hab).
  - exact IH.
Qed.

Lemma occurrences_ext (p p' : str -> bool) (s : str) :
  (forall t, p t = p' t) -> occurrences p s = occurrences p' s.
Proof.
  intros H. induction s as [|c s IH]; [reflexivity|].
  cbn [occurrences]. now rewrite H, IH.
Qed.

Lemma is_BD_cases (c : char) :
  is_BD c = true <-> c = 66 \/ c = 67 \/ c = 68.
Proof.
  unfold is_BD. rewrite andb_true_iff, !N.leb_le. lia.
Qed.

Lemma option_delimiter_at (s : str) :
  option_delimiter s = delimiter_at s.
Proof.
  apply eq_true_iff_eq. unfold option_delimiter.
  rewrite existsb_exists. split.
  - intros (p & Hin & Hs). apply startswith_split in Hs.
    destruct Hs as [t ->].
    destruct Hin as [<-|[<-|[<-|[]]]]; reflexivity.
  - intros H. destruct (delimiter_at_shape s H) as (c & s'' & -> & Hc).
    apply is_BD_cases in Hc.
    destruct Hc as [-> | [-> | ->]].
    + exists (lit "B. ").
      split; [cbn; tauto | apply (startswith_app (lit "B. ") s'')].
    + exists (lit "C. ").
      split; [cbn; tauto | apply (startswith_app (lit "C. ") s'')].
    + exists (lit "D. ").
      split; [cbn; tauto | apply (startswith_app (lit "D. ") s'')].
Qed.

Lemma option_delimiter_then_A_at (s : str) :
  option_delimiter_then_A s = delimiter_then_A s.
Proof.
  apply eq_true_iff_eq. unfold option_delimiter_then_A, delimiter_then_A.
  rewrite existsb_exists, andb_true_iff. split.
  - intros (p & Hin & Hs). apply startswith_split in Hs.
    destruct Hs as [t ->].
    destruct Hin as [<-|[<-|[<-|[]]]];
      (split; [reflexivity | apply (startswith_app (lit "A. ") t)]).
  - intros [H HA].
    destruct (delimiter_at_shape s H) as (c & s'' & -> & Hc).
    cbn [skipn] in HA. apply startswith_split in HA.
    destruct HA as [t ->].
    apply is_BD_cases in Hc.
    destruct Hc as [-> | [-> | ->]].
    + exists (lit "B. A. ").
      split; [cbn; tauto | apply (startswith_app (lit "B. A. ") t)].
    + exists (lit "C. A. ").
      split; [cbn; tauto | apply (startswith_app (lit "C. A. ") t)].
    + exists (lit "D. A. ").
      split; [cbn; tauto | apply (startswith_app (lit "D. A. ") t)].
Qed.

(** A blob that starts with "A." gives at least the A option. *)
Lemma segment_options_not_nil (tail : str) :
  segment_options (strip (lit "A." ++ tail)) <> [].
Proof.
  rewrite lit_A_dot. cbn [app].
  rewrite (strip_lettered 65 tail) by reflexivity.
  destruct (segment_options_lettered (rstrip tail)) as [_ (tl & rs & E)].
  intros H. pose proof (eq_trans (eq_sym E) H) as C. discriminate C.
Qed.

(** ** The shapes of line, and the tests of the classifier *)

Lemma match_question_header_shape (decimal : char -> bool) (s : str) :
  match_question decimal s = true <-> header_shape decimal s.
Proof.
  split.
  - intros H. apply match_question_shape in H.
    destruct H as (d1 & r & -> & Hd1 & [[t ->]|(d2 & t & -> & Hd2)]).
    + exists [d1], t. repeat split; auto.
    + exists [d1; d2], t. repeat split; auto.
  - intros (digits & rest & -> & Hlen & Hall).
    destruct digits as [|d1 [|d2 [|d3 digits]]]; simpl in Hlen;
      try (destruct Hlen; discriminate).
    + inversion Hall as [|? ? H1 _]; subst. cbn.
      rewrite H1. destruct rest; cbn; [reflexivity|].
      now rewrite orb_true_r.
    + inversion Hall as [|? ? H1 H2]; subst.
      inversion H2 as [|? ? H3 _]; subst. cbn.
      rewrite H1, H3. reflexivity.
Qed.

Lemma match_option_shape (s : str) :
  match_option s = true <-> option_shape s.
Proof.
  split.
  - destruct s as [|c [|d [|sp s]]]; try discriminate.
    cbn [match_option]. intros H.
    apply andb_true_iff in H as [H Hsp].
    apply andb_true_iff in H as [Hc Hd].
    apply N.eqb_eq in Hd. apply N.eqb_eq in Hsp. subst d sp.
    exists c, s. split; [reflexivity|].
    unfold is_AD in Hc. apply andb_true_iff in Hc as [H1 H2].
    apply N.leb_le in H1. apply N.leb_le in H2.
    cbn. lia.
  - intros (letter & rest & -> & Hin). cbn in Hin. cbn.
    rewrite !andb_true_r. unfold is_AD.
    apply andb_true_iff. split; apply N.leb_le; lia.
Qed.

Lemma startswith_prefix (s p : str) :
  startswith s p = true <-> exists t, s = p ++ t.
Proof.
  split; [apply startswith_split|].
  intros [t ->]. apply startswith_app.
Qed.

Lemma quiz_line_shape (decimal : char -> bool) (lower : str -> str)
  (s : str) :
  Classifier.quiz_line decimal lower s = true <-> quiz_shape decimal lower s.
Proof.
  unfold Classifier.quiz_line, quiz_shape, Classifier.question_header,
    Classifier.option_line, Classifier.answer_line,
    Classifier.continuation_line.
  rewrite !orb_true_iff, match_question_header_shape, match_option_shape,
    startswith_prefix, existsb_exists.
  unfold answer_shape, continuation_shape, Classifier.continuation_prefixes.
  split.
  - intros [[[H|H]|H]|(p & Hin & H)]; auto.
    right. right. right. apply startswith_prefix in H.
    destruct H as [t Ht]. now exists p, t.
  - intros [H|[H|[H|(p & t & Hin & Ht)]]]; auto.
    right. exists p. split; [exact Hin|].
    apply startswith_prefix. now exists t.
Qed.

Lemma filter_selects {A} (f : A -> bool) (P : A -> Prop) (l : list A) :
  (forall x, f x = true <-> P x) -> selects P l (filter f l).
Proof.
  intros H. induction l as [|x l IH]; cbn; [constructor|].
  destruct (f x) eqn:E.
  - apply selects_keep; [now apply H | exact IH].
  - apply selects_drop; [|exact IH].
    intros Hp. apply H in Hp. congruence.
Qed.

(** X1.  [generate_quiz_html] returns on every input: it raises neither
    [KeyError] nor [IndexError], and its loop ends within the rounds
    allowed. *)
Theorem generate_quiz_html_total (decimal : char -> bool)
  (lines : list str) :
  exists html, generate_quiz_html decimal lines = Return html.
Proof.
  destruct (blocks_total decimal lines) as (st & bs & _ & _ & Hb).
  unfold generate_quiz_html. rewrite Hb. eexists. reflexivity.
Qed.

(** * The properties of the specification *)

(** C1.  End-to-end scenario: the six lines give one record, number "1",
    text "What is X?", the four options in A to D order and answer
    "B. Opt2"; the markup, written out character by character, has exactly
    one "Correct Answer" block, and that block ends with ": B. Opt2". *)
Theorem end_to_end_scenario (decimal : char -> bool) :
  unicode_decimal decimal ->
  records decimal scenario_lines
  = Return [{| number := lit "1"; text := lit "What is X?";
               options := [lit "A. Opt1"; lit "B. Opt2"; lit "C. Opt3";
                           lit "D. Opt4"];
               answer := lit "B. Opt2" |}]
  /\ blocks decimal scenario_lines
     = Return [lit "<p>1. <b>What is X?</b></p>";
               lit "<p>" ++ [226; 8364; 162] ++ lit " A. Opt1</p>";
               lit "<p>" ++ [226; 8364; 162] ++ lit " B. Opt2</p>";
               lit "<p>" ++ [226; 8364; 162] ++ lit " C. Opt3</p>";
               lit "<p>" ++ [226; 8364; 162] ++ lit " D. Opt4</p>";
               lit "<p><b>" ++ [226; 339; 8221]
               ++ lit " Correct Answer</b>: B. Opt2</p>"]
  /\ (exists bs, blocks decimal scenario_lines = Return bs
        /\ filter (fun b => contains b (lit "Correct Answer")) bs
           = [lit "<p><b>" ++ [226; 339; 8221]
              ++ lit " Correct Answer</b>: B. Opt2</p>"])
  /\ generate_quiz_html decimal scenario_lines
     = Return ([10; 10]
               ++ lit "<p>1. <b>What is X?</b></p>" ++ [10]
               ++ lit "<p>" ++ [226; 8364; 162] ++ lit " A. Opt1</p>" ++ [10]
               ++ lit "<p>" ++ [226; 8364; 162] ++ lit " B. Opt2</p>" ++ [10]
               ++ lit "<p>" ++ [226; 8364; 162] ++ lit " C. Opt3</p>" ++ [10]
               ++ lit "<p>" ++ [226; 8364; 162] ++ lit " D. Opt4</p>" ++ [10]
               ++ lit "<p><b>" ++ [226; 339; 8221]
               ++ lit " Correct Answer</b>: B. Opt2</p>").
Proof.
  intros Hd.
  assert (Hs : scan decimal scenario_lines
               = scan ascii_decimal scenario_lines).
  { apply scan_ext. intros l Hl.
    apply (@match_question_low decimal (strip l) Hd).
    repeat (destruct Hl as [<-|Hl];
            [intros c Hc; vm_compute in Hc;
             repeat (destruct Hc as [<-|Hc]; [reflexivity|]);
             contradiction|]).
    contradiction. }
  assert (Hb : blocks decimal scenario_lines
               = blocks ascii_decimal scenario_lines)
    by (unfold blocks; now rewrite Hs).
  unfold generate_quiz_html, records. rewrite Hb, Hs.
  repeat split; try (vm_compute; reflexivity).
  eexists. split; vm_compute; reflexivity.
Qed.

(** The scenario with the ASCII digits for [\d]: the markup returned. *)
Lemma end_to_end_scenario_witness :
  generate_quiz_html ascii_decimal scenario_lines
  = Return ([10; 10]
            ++ lit "<p>1. <b>What is X?</b></p>" ++ [10]
            ++ lit "<p>" ++ [226; 8364; 162] ++ lit " A. Opt1</p>" ++ [10]
            ++ lit "<p>" ++ [226; 8364; 162] ++ lit " B. Opt2</p>" ++ [10]
            ++ lit "<p>" ++ [226; 8364; 162] ++ lit " C. Opt3</p>" ++ [10]
            ++ lit "<p>" ++ [226; 8364; 162] ++ lit " D. Opt4</p>" ++ [10]
            ++ lit "<p><b>" ++ [226; 339; 8221]
            ++ lit " Correct Answer</b>: B. Opt2</p>").
Proof.
  exact (proj2 (proj2 (proj2
           (end_to_end_scenario ascii_decimal ascii_decimal_unicode)))).
Defined.

(** C2, as stated, fails: the header "1. A. x" gives a record whose text is
    empty, the first "A." coming right after the label. *)
Lemma empty_text_counterexample :
  exists q,
    records ascii_decimal [lit "1. A. x"] = Return [q]
    /\ q = {| number := lit "1"; text := [];
              options := [lit "A. x"]; answer := [] |}
    /\ ~ (number q <> [] /\ text q <> []).
Proof.
  eexists. split; [vm_compute; reflexivity|]. split; [reflexivity|].
  intros [_ H]. now apply H.
Qed.

(** C2, amended.  Every emitted record is built from its question block,
    one record for each block of the input, in order.  Its number is the
    one or two digits before the first period of the block, and is not
    empty.  When the block holds no "A.", the record has no options and its
    text is everything after that period, trimmed, and is not empty.
    Otherwise the record has options and its text is what lies between
    that period and the first "A." after it, trimmed; it can be empty. *)
Theorem records_number_and_text (decimal : char -> bool) :
  unicode_decimal decimal ->
  forall lines, exists rs,
    records decimal lines = Return rs
    /\ Forall (fun q => number q <> []
                        /\ (options q = [] -> text q <> [])) rs
    /\ Forall2
         (fun q block =>
            exists label rest,
              block = label ++ dot :: rest
              /\ Forall (fun c => decimal c = true) label
              /\ (1 <= length label <= 2)%nat
              /\ number q = label
              /\ ((find block (lit "A.") = (-1)%Z
                   /\ options q = []
                   /\ text q = strip rest /\ text q <> [])
                  \/ (exists mid tail,
                        rest = mid ++ lit "A." ++ tail
                        /\ find mid (lit "A.") = (-1)%Z
                        /\ options q <> []
                        /\ text q = strip mid)))
         rs (question_blocks decimal lines).
Proof.
  intros Hd lines.
  destruct (records_from_blocks decimal Hd lines) as (rs & Hr & Hb).
  exists rs. split; [exact Hr|].
  assert (H2 : Forall2
         (fun q block =>
            exists label rest,
              block = label ++ dot :: rest
              /\ Forall (fun c => decimal c = true) label
              /\ (1 <= length label <= 2)%nat
              /\ number q = label
              /\ ((find block (lit "A.") = (-1)%Z
                   /\ options q = []
                   /\ text q = strip rest /\ text q <> [])
                  \/ (exists mid tail,
                        rest = mid ++ lit "A." ++ tail
                        /\ find mid (lit "A.") = (-1)%Z
                        /\ options q <> []
                        /\ text q = strip mid)))
         rs (question_blocks decimal lines)).
  { revert Hb. apply Forall2_impl. intros q block Hq.
    destruct (built_from_spec decimal q block Hd Hq)
      as (label & rest & Eb & Hl & Hlen & Hn & Hcases).
    exists label, rest. repeat split; try assumption; try lia.
    destruct Hcases as [(_ & Hf & Ho & Ht & Hne)
                       |(mid & tail & Er & Hm & _ & Ht & Ho)].
    - left. auto.
    - right. exists mid, tail. repeat split; try assumption.
      rewrite Ho. apply segment_options_not_nil. }
  split; [|exact H2].
  revert H2. apply Forall2_left.
  intros q block (label & rest & _ & _ & Hlen & Hn & Hcases). split.
  - rewrite Hn. destruct label; [simpl in Hlen; lia | discriminate].
  - intros Ho.
    destruct Hcases as [(_ & _ & _ & Hne)|(mid & tail & _ & _ & Hno & _)];
      [exact Hne | contradiction].
Qed.

(** On two headers, one without options and one whose text is empty. *)
Lemma records_number_and_text_witness :
  exists rs,
    records ascii_decimal [lit "1. Why?"; lit "2. A. x"] = Return rs
    /\ Forall (fun q => number q <> []
                        /\ (options q = [] -> text q <> [])) rs
    /\ Forall2
         (fun q block =>
            exists label rest,
              block = label ++ dot :: rest
              /\ Forall (fun c => ascii_decimal c = true) label
              /\ (1 <= length label <= 2)%nat
              /\ number q = label
              /\ ((find block (lit "A.") = (-1)%Z
                   /\ options q = []
                   /\ text q = strip rest /\ text q <> [])
                  \/ (exists mid tail,
                        rest = mid ++ lit "A." ++ tail
                        /\ find mid (lit "A.") = (-1)%Z
                        /\ options q <> []
                        /\ text q = strip mid)))
         rs (question_blocks ascii_decimal [lit "1. Why?"; lit "2. A. x"]).
Proof.
  exact (records_number_and_text ascii_decimal ascii_decimal_unicode
           [lit "1. Why?"; lit "2. A. x"]).
Defined.

(** C3.  The merged blob of the four options is segmented into the four
    options, each with its own prefix and nothing of a neighbour. *)
Theorem option_regrouping :
  segment_options
    (lit "A. Reduce costB. Increase profitC. Improve UID. Reduce risk")
  = [lit "A. Reduce cost"; lit "B. Increase profit"; lit "C. Improve UI";
     lit "D. Reduce risk"].
Proof. vm_compute. reflexivity. Qed.

(** C4, as stated, fails: a header followed by five option lines, the last
    one a second B line, gives five options, two of them lettered B. *)
Lemma five_options_counterexample :
  exists q,
    records ascii_decimal
      [lit "1. Q"; lit "A. a"; lit "B. b"; lit "C. c"; lit "D. d";
       lit "B. e"]
    = Return [q]
    /\ options q
       = [lit "A. a"; lit "B. b"; lit "C. c"; lit "D. d"; lit "B. e"]
    /\ ~ (1 <= length (options q) <= 4)%nat
    /\ ~ NoDup (map (firstn 1) (options q)).
Proof.
  eexists. split; [vm_compute; reflexivity|]. split; [reflexivity|].
  split.
  - cbn. lia.
  - intros H. vm_compute in H.
    inversion H as [|? ? _ H1]. inversion H1 as [|? ? Hin _].
    apply Hin. cbn. tauto.
Qed.

(** C4, amended.  In every emitted record each option starts with a letter
    A to D and a period, and a non-empty options list starts with the A
    option.  A block without "A." gives no option; otherwise the options
    are the segmentation of the block from its first "A." on, trimmed, and
    their number is one, plus the number of places of that blob where
    "B. ", "C. " or "D. " occurs, plus the number of places where one of
    these is directly followed by "A. ".  The number is not bounded and
    letters may repeat. *)
Theorem options_are_lettered (decimal : char -> bool) :
  unicode_decimal decimal ->
  forall lines, exists rs,
    records decimal lines = Return rs
    /\ Forall (fun q => Forall lettered (options q)
                        /\ (options q <> [] -> starts_with_A (options q)))
         rs
    /\ Forall2
         (fun q block =>
            (find block (lit "A.") = (-1)%Z /\ options q = [])
            \/ (exists before tail,
                  block = before ++ lit "A." ++ tail
                  /\ find before (lit "A.") = (-1)%Z
                  /\ let blob := strip (lit "A." ++ tail) in
                     options q = segment_options blob
                     /\ length (options q)
                        = (1 + occurrences option_delimiter blob
                           + occurrences option_delimiter_then_A blob)%nat))
         rs (question_blocks decimal lines).
Proof.
  intros Hd lines.
  destruct (records_from_blocks decimal Hd lines) as (rs & Hr & Hb).
  exists rs. split; [exact Hr|]. split.
  - revert Hb. apply Forall2_left.
    intros q block (raw & x & _ & _ & _ & Hsq).
    destruct (split_question_cases _ _ _ Hsq)
      as [(_ & -> & _)|(_ & u & ->)].
    + split; [constructor | congruence].
    + destruct (segment_options_lettered u) as [H1 H2]. now split.
  - revert Hb. apply Forall2_impl. intros q block Hq.
    destruct (built_from_spec decimal q block Hd Hq)
      as (label & rest & Eb & _ & _ & _ & Hcases).
    destruct Hcases as [(_ & Hf & Ho & _)
                       |(mid & tail & Er & _ & Hm & _ & Ho)].
    + left. auto.
    + right. exists (label ++ dot :: mid), tail.
      split; [rewrite Eb, Er, <- app_assoc; reflexivity|].
      split; [exact Hm|]. cbv zeta. split; [exact Ho|].
      rewrite Ho.
      rewrite (occurrences_ext option_delimiter delimiter_at)
        by apply option_delimiter_at.
      rewrite (occurrences_ext option_delimiter_then_A delimiter_then_A)
        by apply option_delimiter_then_A_at.
      apply (segment_options_count _ (rstrip tail)).
      rewrite lit_A_dot. cbn [app].
      now apply (strip_lettered 65 tail).
Qed.

(** On the five option lines, and on a block whose first piece is "A.x". *)
Lemma options_are_lettered_witness :
  exists rs,
    records ascii_decimal
      [lit "1. Q"; lit "A. a"; lit "B. b"; lit "C. c"; lit "D. d";
       lit "B. e"; lit "2. A.xB. y"]
    = Return rs
    /\ Forall (fun q => Forall lettered (options q)
                        /\ (options q <> [] -> starts_with_A (options q)))
         rs
    /\ Forall2
         (fun q block =>
            (find block (lit "A.") = (-1)%Z /\ options q = [])
            \/ (exists before tail,
                  block = before ++ lit "A." ++ tail
                  /\ find before (lit "A.") = (-1)%Z
                  /\ let blob := strip (lit "A." ++ tail) in
                     options q = segment_options blob
                     /\ length (options q)
                        = (1 + occurrences option_delimiter blob
                           + occurrences option_delimiter_then_A blob)%nat))
         rs (question_blocks ascii_decimal
               [lit "1. Q"; lit "A. a"; lit "B. b"; lit "C. c"; lit "D. d";
                lit "B. e"; lit "2. A.xB. y"]).
Proof.
  exact (options_are_lettered ascii_decimal ascii_decimal_unicode
           [lit "1. Q"; lit "A. a"; lit "B. b"; lit "C. c"; lit "D. d";
            lit "B. e"; lit "2. A.xB. y"]).
Defined.

(** C5.  A header directly followed by another header: the first record is
    emitted with an empty answer and closed by an empty "Correct Answer"
    block, and the scan goes on from the second header exactly as a scan
    that starts there. *)
Theorem header_after_header (decimal : char -> bool) :
  unicode_decimal decimal ->
  forall (pre post : list str) (h1 h2 : str),
    match_question decimal (strip h1) = true ->
    match_question decimal (strip h2) = true ->
    exists rs_pre q1 q2 rs_post bs_pre bs_post,
      records decimal pre = Return rs_pre
      /\ records decimal (h2 :: post) = Return (q2 :: rs_post)
      /\ records decimal (pre ++ h1 :: h2 :: post)
         = Return (rs_pre ++ q1 :: q2 :: rs_post)
      /\ answer q1 = []
      /\ number q1 = strip (part0 (split1 dot (strip h1)))
      /\ number q2 = strip (part0 (split1 dot (strip h2)))
      /\ blocks decimal pre = Return bs_pre
      /\ blocks decimal (h2 :: post) = Return bs_post
      /\ blocks decimal (pre ++ h1 :: h2 :: post)
         = Return (bs_pre
                   ++ (question_html (number q1) (text q1)
                       :: option_blocks (options q1) ++ [answer_html []])
                   ++ bs_post).
Proof.
  intros Hd pre post h1 h2 H1 H2.
  destruct (@last_record decimal h1 [] [] H1 (Forall_nil _) I)
    as (q1 & Hr1 & Hb1 & Hn1 & _ & Ha1).
  cbn [app] in Hr1, Hb1.
  destruct (@records_head_any decimal h2 post H2)
    as (q2 & more & Hr2 & Hn2).
  destruct (records_app_header decimal Hd pre [] h1 H1)
    as (rs_pre & rs1 & Hrp & Hrs1 & Hrp1).
  rewrite Hr1 in Hrs1. injection Hrs1 as <-.
  destruct (records_app_header decimal Hd (pre ++ [h1]) post h2 H2)
    as (rsA & rsB & HrA & HrB & HrAB).
  rewrite Hrp1 in HrA. injection HrA as <-.
  rewrite Hr2 in HrB. injection HrB as <-.
  destruct (blocks_app_header decimal Hd pre [] h1 H1)
    as (bs_pre & bs1 & Hbp & Hbs1 & Hbp1).
  rewrite Hb1 in Hbs1. injection Hbs1 as <-.
  destruct (blocks_app_header decimal Hd (pre ++ [h1]) post h2 H2)
    as (bsA & bs_post & HbA & HbB & HbAB).
  rewrite Hbp1 in HbA. injection HbA as <-.
  rewrite <- app_assoc in HrAB, HbAB. cbn [app] in HrAB, HbAB.
  exists rs_pre, q1, q2, more, bs_pre, bs_post.
  rewrite Ha1 in HbAB. rewrite <- app_assoc in HbAB.
  rewrite <- app_assoc in HrAB. cbn [app] in HrAB.
  repeat split; assumption.
Qed.

(** Two headers in a row after a title line. *)
Lemma header_after_header_witness :
  exists rs_pre q1 q2 rs_post bs_pre bs_post,
    records ascii_decimal [lit "title"] = Return rs_pre
    /\ records ascii_decimal [lit "2. Why?"; lit "A. x"]
       = Return (q2 :: rs_post)
    /\ records ascii_decimal
         ([lit "title"] ++ lit "1. What?" :: lit "2. Why?" :: [lit "A. x"])
       = Return (rs_pre ++ q1 :: q2 :: rs_post)
    /\ answer q1 = []
    /\ number q1 = strip (part0 (split1 dot (strip (lit "1. What?"))))
    /\ number q2 = strip (part0 (split1 dot (strip (lit "2. Why?"))))
    /\ blocks ascii_decimal [lit "title"] = Return bs_pre
    /\ blocks ascii_decimal [lit "2. Why?"; lit "A. x"] = Return bs_post
    /\ blocks ascii_decimal
         ([lit "title"] ++ lit "1. What?" :: lit "2. Why?" :: [lit "A. x"])
       = Return (bs_pre
                 ++ (question_html (number q1) (text q1)
                     :: option_blocks (options q1) ++ [answer_html []])
                 ++ bs_post).
Proof.
  apply (header_after_header ascii_decimal ascii_decimal_unicode
           [lit "title"] [lit "A. x"] (lit "1. What?") (lit "2. Why?"));
    reflexivity.
Defined.

(** C6.  A question block without "A.": the scan does not raise, and the
    record has no options and, as text, everything after the label and its
    period, trimmed. *)
Theorem block_without_options (decimal : char -> bool) :
  unicode_decimal decimal ->
  forall (pre conts post : list str) (h : str),
    match_question decimal (strip h) = true ->
    Forall (fun l => match_boundary decimal (strip l) = false) conts ->
    stops_sweep decimal post ->
    find (strip h ++ concat (map strip conts)) (lit "A.") = (-1)%Z ->
    exists rs_pre q rs_post label rest,
      records decimal pre = Return rs_pre
      /\ records decimal (pre ++ h :: conts ++ post)
         = Return (rs_pre ++ q :: rs_post)
      /\ strip h ++ concat (map strip conts) = label ++ dot :: rest
      /\ Forall (fun c => decimal c = true) label
      /\ (1 <= length label <= 2)%nat
      /\ number q = label
      /\ options q = []
      /\ text q = strip rest.
Proof.
  intros Hd pre conts post h Hq Hc Hp Hfind.
  destruct (@records_head decimal h conts post Hq Hc Hp)
    as (q & more & Hr & Hn & Hsq & _).
  destruct (records_app_header decimal Hd pre (conts ++ post) h Hq)
    as (rs_pre & rs & Hrp & Hrs & Hall).
  rewrite Hr in Hrs. injection Hrs as <-.
  destruct (header_label decimal Hd _ Hq)
    as (label & r & El & Hl & Hlen & Hnd & Hsl).
  exists rs_pre, q, more, label, (space :: r ++ concat (map strip conts)).
  rewrite El, <- app_assoc. cbn [app].
  repeat split; try assumption; try lia.
  - rewrite Hn, El, split1_app by exact Hnd. exact Hsl.
  - destruct (split_question_cases _ _ _ Hsq)
      as [(_ & Ho & _)|(Hf & _)]; [exact Ho | contradiction].
  - destruct (split_question_cases _ _ _ Hsq)
      as [(_ & _ & hd & after & Hsp & ->)|(Hf & _)]; [|contradiction].
    rewrite El, <- app_assoc in Hsp. cbn [app] in Hsp.
    rewrite split1_app in Hsp by exact Hnd.
    now injection Hsp as _ <-.
Qed.

(** A header and a continuation line, then the next header. *)
Lemma block_without_options_witness :
  exists rs_pre q rs_post label rest,
    records ascii_decimal [] = Return rs_pre
    /\ records ascii_decimal
         ([] ++ lit "7. Explain" :: [lit "to increase profit"]
             ++ [lit "8. Next?"])
       = Return (rs_pre ++ q :: rs_post)
    /\ strip (lit "7. Explain")
       ++ concat (map strip [lit "to increase profit"])
       = label ++ dot :: rest
    /\ Forall (fun c => ascii_decimal c = true) label
    /\ (1 <= length label <= 2)%nat
    /\ number q = label
    /\ options q = []
    /\ text q = strip rest.
Proof.
  apply (block_without_options ascii_decimal ascii_decimal_unicode
           [] [lit "to increase profit"] [lit "8. Next?"]
           (lit "7. Explain")).
  - reflexivity.
  - repeat constructor.
  - reflexivity.
  - reflexivity.
Defined.

(** C7.  The classifier returns the trimmed, non-empty paragraphs that have
    one of the four shapes (one or two digits, a period and a space; a
    letter A to D, a period and a space; the answer marker; one of the
    three continuation phrases in any case), in their order, each as often
    as it occurs, and nothing else. *)
Theorem classifier_is_a_filter (decimal : char -> bool)
  (lower : str -> str) (paragraphs : list str) :
  let trimmed := filter nonempty (map strip paragraphs) in
  let kept :=
    Classifier.extract_quiz_content_from_docx decimal lower paragraphs in
  selects (quiz_shape decimal lower) trimmed kept
  /\ subsequence kept trimmed
  /\ (forall l, In l kept <-> In l trimmed /\ quiz_shape decimal lower l).
Proof.
  cbv zeta.
  assert (E : Classifier.extract_quiz_content_from_docx decimal lower paragraphs
              = filter (Classifier.quiz_line decimal lower)
                  (filter nonempty (map strip paragraphs))).
  { unfold Classifier.extract_quiz_content_from_docx.
    now rewrite classify_loop_filter. }
  rewrite E. split; [|split].
  - apply filter_selects. intros x. apply quiz_line_shape.
  - apply filter_subsequence.
  - intros l. rewrite filter_In, quiz_line_shape. reflexivity.
Qed.

(** C8.  A question and its answer line at the end of the input: the record
    is emitted with its closing "Correct Answer" block when the input ends,
    and these are the blocks and records the same lines give when a further
    header follows them. *)
Theorem last_record_is_flushed (decimal : char -> bool) :
  unicode_decimal decimal ->
  forall (pre conts : list str) (h a : str),
    match_question decimal (strip h) = true ->
    Forall (fun l => match_boundary decimal (strip l) = false) conts ->
    startswith (strip a) answer_marker = true ->
    exists rs_pre bs_pre q,
      records decimal pre = Return rs_pre
      /\ blocks decimal pre = Return bs_pre
      /\ answer q = answer_of a
      /\ records decimal (pre ++ h :: conts ++ [a])
         = Return (rs_pre ++ [q])
      /\ blocks decimal (pre ++ h :: conts ++ [a])
         = Return (bs_pre
                   ++ question_html (number q) (text q)
                      :: option_blocks (options q)
                      ++ [answer_html (answer q)])
      /\ forall (h' : str) (post : list str),
           match_question decimal (strip h') = true ->
           exists rs_post bs_post,
             records decimal (h' :: post) = Return rs_post
             /\ blocks decimal (h' :: post) = Return bs_post
             /\ records decimal ((pre ++ h :: conts ++ [a]) ++ h' :: post)
                = Return ((rs_pre ++ [q]) ++ rs_post)
             /\ blocks decimal ((pre ++ h :: conts ++ [a]) ++ h' :: post)
                = Return ((bs_pre
                           ++ question_html (number q) (text q)
                              :: option_blocks (options q)
                              ++ [answer_html (answer q)])
                          ++ bs_post).
Proof.
  intros Hd pre conts h a Hq Hc Ha.
  destruct (@last_record decimal h conts [a] Hq Hc Ha)
    as (q & Hr & Hb & _ & _ & Hans).
  destruct (records_app_header decimal Hd pre (conts ++ [a]) h Hq)
    as (rs_pre & rs & Hrp & Hrs & Hrall).
  rewrite Hr in Hrs. injection Hrs as <-.
  destruct (blocks_app_header decimal Hd pre (conts ++ [a]) h Hq)
    as (bs_pre & bs & Hbp & Hbs & Hball).
  rewrite Hb in Hbs. injection Hbs as <-.
  exists rs_pre, bs_pre, q. repeat split; try assumption.
  intros h' post Hq'.
  destruct (records_app_header decimal Hd (pre ++ h :: conts ++ [a]) post h'
              Hq')
    as (rsA & rs_post & HrA & HrB & HrAB).
  rewrite Hrall in HrA. injection HrA as <-.
  destruct (blocks_app_header decimal Hd (pre ++ h :: conts ++ [a]) post h' Hq')
    as (bsA & bs_post & HbA & HbB & HbAB).
  rewrite Hball in HbA. injection HbA as <-.
  exists rs_post, bs_post. repeat split; assumption.
Qed.

(** A second question with its options and answer, at the end. *)
Lemma last_record_is_flushed_witness :
  exists rs_pre bs_pre q,
    records ascii_decimal [lit "1. First?"] = Return rs_pre
    /\ blocks ascii_decimal [lit "1. First?"] = Return bs_pre
    /\ answer q = answer_of (answer_marker ++ lit " B. y")
    /\ records ascii_decimal
         ([lit "1. First?"] ++ lit "2. Last?"
            :: [lit "A. x"; lit "B. y"] ++ [answer_marker ++ lit " B. y"])
       = Return (rs_pre ++ [q])
    /\ blocks ascii_decimal
         ([lit "1. First?"] ++ lit "2. Last?"
            :: [lit "A. x"; lit "B. y"] ++ [answer_marker ++ lit " B. y"])
       = Return (bs_pre
                 ++ question_html (number q) (text q)
                    :: option_blocks (options q)
                    ++ [answer_html (answer q)]).
Proof.
  destruct (last_record_is_flushed ascii_decimal ascii_decimal_unicode
              [lit "1. First?"] [lit "A. x"; lit "B. y"]
              (lit "2. Last?") (answer_marker ++ lit " B. y"))
    as (rs_pre & bs_pre & q & H1 & H2 & H3 & H4 & H5 & _).
  - reflexivity.
  - repeat constructor.
  - reflexivity.
  - exists rs_pre, bs_pre, q. repeat split; assumption.
Defined.

(** C9, as stated, fails: with "A." inside the header text the question
    text stops there, and what follows it is taken for the first option. *)
Lemma text_cut_counterexample :
  exists q,
    records ascii_decimal
      [lit "1. Why is the U.S.A. rich"; lit "to increase profit";
       lit "using encryption to"; lit "A. yes"; lit "B. no"]
    = Return [q]
    /\ text q = lit "Why is the U.S."
    /\ options q
       = [lit "A. richto increase profitusing encryption toA. yes";
          lit "B. no"]
    /\ text q
       <> strip (lit " Why is the U.S.A. rich" ++ lit "to increase profit"
                 ++ lit "using encryption to").
Proof.
  eexists. split; [vm_compute; reflexivity|].
  split; [reflexivity|]. split; [reflexivity|].
  vm_compute. discriminate.
Qed.

(** C9, amended.  A header, two continuation lines and then the option
    lines, the first "A." of the merged block being the start of the first
    option line: the text is the header's text after the label and the two
    fragments, concatenated in order and trimmed; the options are the
    segmentation of exactly the option lines, and they are these lines, one
    option each, when the lines segment cleanly. *)
Theorem multi_paragraph_question (decimal : char -> bool) :
  unicode_decimal decimal ->
  forall (pre opts post : list str) (h c1 c2 o1 : str),
    match_question decimal (strip h) = true ->
    match_boundary decimal (strip c1) = false ->
    match_boundary decimal (strip c2) = false ->
    Forall (fun o => match_option (strip o) = true) (o1 :: opts) ->
    startswith (strip o1) (lit "A.") = true ->
    stops_sweep decimal post ->
    find (strip h ++ strip c1 ++ strip c2) (lit "A.") = (-1)%Z ->
    exists rs_pre q rs_post label post_label,
      records decimal pre = Return rs_pre
      /\ records decimal (pre ++ h :: (c1 :: c2 :: o1 :: opts) ++ post)
         = Return (rs_pre ++ q :: rs_post)
      /\ strip h = label ++ dot :: post_label
      /\ number q = label
      /\ text q = strip (post_label ++ strip c1 ++ strip c2)
      /\ options q = segment_options (concat (map strip (o1 :: opts)))
      /\ (clean_first (strip o1) = true ->
          Forall (fun o => clean_later (strip o) = true) opts ->
          options q = map strip (o1 :: opts)).
Proof.
  intros Hd pre opts post h c1 c2 o1 Hq Hc1 Hc2 Ho HA Hp Hfind.
  assert (Hconts : Forall (fun l => match_boundary decimal (strip l) = false)
                     (c1 :: c2 :: o1 :: opts)).
  { constructor; [exact Hc1|]. constructor; [exact Hc2|].
    revert Ho. apply Forall_impl. intros o.
    now apply option_not_boundary. }
  destruct (records_head decimal h (c1 :: c2 :: o1 :: opts) post
              Hq Hconts Hp) as (q & more & Hr & Hn & Hsq & _).
  destruct (records_app_header decimal Hd pre
              ((c1 :: c2 :: o1 :: opts) ++ post) h Hq)
    as (rs_pre & rs & Hrp & Hrs & Hall).
  rewrite Hr in Hrs. injection Hrs as <-.
  destruct (header_label decimal Hd _ Hq)
    as (label & r & El & _ & _ & Hnd & Hsl).
  apply startswith_split in HA. destruct HA as [b1 Eb].
  rewrite lit_A_dot in Eb. cbn [app] in Eb.
  assert (Hblob : concat (map strip (o1 :: opts))
                  = 65 :: dot :: b1 ++ concat (map strip opts)).
  { cbn [map concat]. now rewrite Eb. }
  assert (Hstrip : strip (65 :: dot :: b1 ++ concat (map strip opts))
                   = 65 :: dot :: b1 ++ concat (map strip opts)).
  { rewrite <- Hblob. apply strip_fixed.
    - rewrite Hblob. reflexivity.
    - apply concat_options_last; [discriminate | exact Ho]. }
  assert (Hblock : strip h ++ concat (map strip (c1 :: c2 :: o1 :: opts))
                   = label ++ dot
                     :: (space :: r ++ strip c1 ++ strip c2)
                     ++ 65 :: dot :: b1 ++ concat (map strip opts)).
  { change (c1 :: c2 :: o1 :: opts) with ([c1; c2] ++ o1 :: opts).
    rewrite map_app, concat_app, Hblob, El. cbn [map concat app].
    rewrite app_nil_r, <- !app_assoc. cbn [app].
    reflexivity. }
  rewrite Hblock, split_question_at_A in Hsq.
  - rewrite Hstrip, <- Hblob in Hsq. injection Hsq as Ht Hopt.
    exists rs_pre, q, more, label, (space :: r).
    repeat split; try assumption.
    + rewrite Hn, El, split1_app by exact Hnd. exact Hsl.
    + now rewrite <- Ht.
    + now rewrite <- Hopt.
    + intros Hf Hlater. rewrite <- Hopt. now apply segment_clean.
  - exact Hnd.
  - rewrite <- Hfind, El. f_equal.
    rewrite <- !app_assoc. reflexivity.
Qed.

(** A header, two continuation lines, two options and the answer. *)
Lemma multi_paragraph_question_witness :
  exists rs_pre q rs_post label post_label,
    records ascii_decimal [] = Return rs_pre
    /\ records ascii_decimal
         ([] ++ lit "1. Why do firms automate"
             :: (lit "to increase profit" :: lit "using encryption to"
                   :: lit "A. yes" :: [lit "B. no"])
             ++ [answer_marker ++ lit " A. yes"])
       = Return (rs_pre ++ q :: rs_post)
    /\ strip (lit "1. Why do firms automate") = label ++ dot :: post_label
    /\ number q = label
    /\ text q = strip (post_label ++ strip (lit "to increase profit")
                       ++ strip (lit "using encryption to"))
    /\ options q
       = segment_options (concat (map strip [lit "A. yes"; lit "B. no"]))
    /\ (clean_first (strip (lit "A. yes")) = true ->
        Forall (fun o => clean_later (strip o) = true) [lit "B. no"] ->
        options q = map strip [lit "A. yes"; lit "B. no"]).
Proof.
  apply (multi_paragraph_question ascii_decimal ascii_decimal_unicode
           [] [lit "B. no"] [answer_marker ++ lit " A. yes"]
           (lit "1. Why do firms automate") (lit "to increase profit")
           (lit "using encryption to") (lit "A. yes")).
  - reflexivity.
  - reflexivity.
  - reflexivity.
  - repeat constructor.
  - reflexivity.
  - reflexivity.
  - reflexivity.
Defined.

(** C10.  With no question header among the lines the function returns
    "\n\n": no block and no record is produced, whatever option or answer
    lines the input holds. *)
Theorem no_header_no_output (decimal : char -> bool) (lines : list str) :
  (forall l, In l lines -> match_question decimal (strip l) = false) ->
  generate_quiz_html decimal lines = Return [newline; newline]
  /\ blocks decimal lines = Return []
  /\ records decimal lines = Return [].
Proof.
  intros Hno.
  destruct (scan_total decimal lines) as (st & Hs & _ & _).
  assert (H : html_output st = [] /\ in_question_block st = false
              /\ emitted st = []).
  { pose proof Hs as Hr. rewrite scan_run in Hr. revert Hr.
    apply (@run_invariant decimal lines
      (fun s => html_output s = [] /\ in_question_block s = false
                /\ emitted s = [])); [|now cbn].
    intros s s' HQ Hi Hit. unfold iteration in Hit.
    assert (Hin : incl (skipn (i s) lines) lines).
    { intros x Hx. rewrite <- (firstn_skipn (i s) lines).
      apply in_or_app. now right. }
    destruct (skipn (i s) lines) as [|raw rest]; [discriminate|].
    cbv zeta in Hit. rewrite Hno in Hit by (apply Hin; now left).
    destruct (negb (nonempty (strip raw)));
      injection Hit as <-; exact HQ. }
  destruct H as (Hh & Hb & He).
  unfold generate_quiz_html, blocks, records. rewrite Hs. cbn [bind].
  unfold close_block. rewrite Hb, Hh, He. auto.
Qed.

(** An option line, an answer line and a continuation line alone. *)
Lemma no_header_no_output_witness :
  generate_quiz_html ascii_decimal
    [lit "A. Opt1"; answer_marker ++ lit " B. Opt2"; lit "to increase"]
  = Return [newline; newline].
Proof.
  apply (@no_header_no_output ascii_decimal
           [lit "A. Opt1"; answer_marker ++ lit " B. Opt2";
            lit "to increase"]).
  intros l [<-|[<-|[<-|[]]]]; reflexivity.
Defined.

(** * Further properties of the code *)

(** ** The markup and the records *)

Section Rendering.

Variable decimal : char -> bool.

Lemma close_block_rendered (st : state) :
  rendered st -> close_block st = Return (flat_map render (emitted st)).
Proof.
  unfold rendered, close_block.
  destruct (in_question_block st).
  - intros (qs & q & Hc & He & Hh). rewrite Hc, He, Hh. cbn.
    rewrite flat_map_app. cbn. unfold render.
    now rewrite app_nil_r, <- !app_assoc.
  - intros [Hh He]. now rewrite Hh, He.
Qed.

Lemma iteration_rendered (lines : list str) (st st' : state) :
  rendered st -> iteration decimal lines st = Return st' -> rendered st'.
Proof.
  intros Hr H. unfold iteration in H.
  destruct (skipn (i st) lines) as [|raw rest]; [discriminate|].
  cbv zeta in H.
  destruct (negb (nonempty (strip raw))).
  { injection H as <-. exact Hr. }
  destruct (match_question decimal (strip raw)).
  - apply on_header_spec in H.
    destruct H as (html1 & block & n & rest' & q & Hc & _ & _ & _ & Hh
                   & Hcq & Hin & He & _).
    rewrite (close_block_rendered st Hr) in Hc. injection Hc as <-.
    unfold rendered. rewrite Hin.
    exists (emitted st), q. repeat split; assumption.
  - injection H as <-. exact Hr.
Qed.

Lemma scan_rendered (lines : list str) (st : state) :
  scan decimal lines = Return st -> rendered st.
Proof.
  rewrite scan_run.
  apply (run_invariant decimal lines rendered).
  - intros s s' Hs _. now apply iteration_rendered.
  - cbn. auto.
Qed.

End Rendering.

(** X2.  The markup is the rendering of the records, in order: for each
    record its question block, one block for each non-empty option and its
    "Correct Answer" block. *)
Theorem markup_renders_records (decimal : char -> bool) (lines : list str) :
  exists rs,
    records decimal lines = Return rs
    /\ blocks decimal lines = Return (flat_map render rs)
    /\ generate_quiz_html decimal lines
       = Return ([newline; newline]
                 ++ join [newline] (flat_map render rs)).
Proof.
  destruct (scan_total decimal lines) as (st & Hs & _ & _).
  exists (emitted st).
  pose proof (close_block_rendered st (scan_rendered decimal lines st Hs))
    as Hc.
  unfold generate_quiz_html, blocks, records. rewrite Hs. cbn [bind].
  rewrite Hc. auto.
Qed.

(** ** Lines the scan passes over *)

(** X3.  Lines in front of the first question header are passed over: with
    no header among [junk], the function returns on [junk ++ lines] what it
    returns on [lines], whatever option, answer or continuation lines
    [junk] holds. *)
Theorem leading_lines_are_ignored (decimal : char -> bool)
  (junk lines : list str) :
  (forall l, In l junk -> match_question decimal (strip l) = false) ->
  generate_quiz_html decimal (junk ++ lines)
  = generate_quiz_html decimal lines
  /\ records decimal (junk ++ lines) = records decimal lines.
Proof.
  intros Hj. apply Forall_forall in Hj.
  assert (Hb : blocks decimal (junk ++ lines) = blocks decimal lines).
  { unfold blocks. rewrite (scan_skips_prefix decimal junk lines Hj).
    now destruct (scan decimal lines). }
  split.
  - unfold generate_quiz_html. now rewrite Hb.
  - unfold records. rewrite (scan_skips_prefix decimal junk lines Hj).
    now destruct (scan decimal lines).
Qed.

(** Some answer and option lines before the first question. *)
Lemma leading_lines_are_ignored_witness :
  generate_quiz_html ascii_decimal
    ([answer_marker ++ lit " C. z"; lit "B. stray"]
       ++ [lit "1. Why?"; lit "A. x"])
  = generate_quiz_html ascii_decimal [lit "1. Why?"; lit "A. x"].
Proof.
  apply (leading_lines_are_ignored ascii_decimal
           [answer_marker ++ lit " C. z"; lit "B. stray"]
           [lit "1. Why?"; lit "A. x"]).
  intros l [<-|[<-|[]]]; reflexivity.
Defined.

(** ** What follows an answer line *)

Section AfterAnswer.

Variable decimal : char -> bool.

Lemma answer_is_boundary (s : str) :
  startswith s answer_marker = true -> match_boundary decimal s = true.
Proof. unfold match_boundary. intros ->. apply orb_true_r. Qed.

(** The header branch looks at one line past the block, no further. *)
Lemma on_header_next_line (line a : str) (conts junk : list str)
  (st : state) :
  Forall (fun l => match_boundary decimal (strip l) = false) conts ->
  match_boundary decimal (strip a) = true ->
  on_header decimal line (conts ++ a :: junk) st
  = on_header decimal line (conts ++ [a]) st.
Proof.
  intros Hc Ha. unfold on_header.
  rewrite (sweep_app decimal conts (a :: junk) line (i st + 1) Hc Ha).
  rewrite (sweep_app decimal conts [a] line (i st + 1) Hc Ha).
  reflexivity.
Qed.

(** The state after a header, its block and its answer line, whatever
    lines without header follow. *)
Lemma scan_after_answer (h a : str) (conts junk : list str) :
  match_question decimal (strip h) = true ->
  Forall (fun l => match_boundary decimal (strip l) = false) conts ->
  startswith (strip a) answer_marker = true ->
  Forall (fun l => match_question decimal (strip l) = false) junk ->
  exists st1 st',
    scan decimal (h :: conts ++ [a]) = Return st1
    /\ scan decimal (h :: conts ++ a :: junk) = Return st'
    /\ html_output st' = html_output st1
    /\ current_question st' = current_question st1
    /\ in_question_block st' = in_question_block st1
    /\ emitted st' = emitted st1.
Proof.
  intros Hq Hc Ha Hj.
  pose proof (answer_is_boundary (strip a) Ha) as Hb.
  destruct (scan_head decimal h (conts ++ [a]) Hq) as (st1 & H1 & Hs1).
  destruct (scan_head decimal h (conts ++ a :: junk) Hq)
    as (st2 & H2 & Hs2).
  rewrite (on_header_next_line (strip h) a conts junk init Hc Hb) in H2.
  rewrite H1 in H2. injection H2 as <-.
  pose proof H1 as Hspec. apply on_header_spec in Hspec.
  destruct Hspec as (html1 & block & n & rest' & q & _ & Hsw & _ & _ & _
                     & _ & _ & _ & Hi).
  rewrite (sweep_app decimal conts [a] (strip h) (i init + 1) Hc Hb)
    in Hsw.
  injection Hsw as _ <- <-. rewrite Ha in Hi. destruct Hi as [_ Hi].
  cbn [i init] in Hi.
  exists st1.
  destruct (run_skips decimal (h :: conts ++ a :: junk) st1)
    as (st' & Hr & F1 & F2 & F3 & F4).
  { rewrite Hi.
    assert (Hcut : h :: conts ++ a :: junk = (h :: conts ++ [a]) ++ junk)
      by (cbn [app]; now rewrite <- app_assoc).
    assert (Hlen : (S (length conts) + 1)%nat
                   = length (h :: conts ++ [a]))
      by (cbn [length]; rewrite length_app; cbn [length]; lia).
    rewrite Hcut, Hlen.
    generalize (h :: conts ++ [a]). intros L.
    rewrite skipn_app, Nat.sub_diag, skipn_all. exact Hj. }
  exists st'. rewrite Hs1, Hs2, Hr. repeat split; try assumption.
  assert (Hend : (i st1 <? length (h :: conts ++ [a]))%nat = false).
  { apply Nat.ltb_ge. rewrite Hi. cbn [length]. rewrite length_app.
    cbn [length]. lia. }
  rewrite run_unfold, Hend. reflexivity.
Qed.

End AfterAnswer.

(** X4.  Once a question has its answer line, the lines up to the next
    header are dropped: with no header among [junk], the input with
    [junk] after the answer line gives the markup and the records of the
    input that ends at the answer line. *)
Theorem lines_after_answer_are_dropped (decimal : char -> bool) :
  unicode_decimal decimal ->
  forall (pre conts junk : list str) (h a : str),
    match_question decimal (strip h) = true ->
    Forall (fun l => match_boundary decimal (strip l) = false) conts ->
    startswith (strip a) answer_marker = true ->
    (forall l, In l junk -> match_question decimal (strip l) = false) ->
    generate_quiz_html decimal (pre ++ h :: conts ++ a :: junk)
    = generate_quiz_html decimal (pre ++ h :: conts ++ [a])
    /\ records decimal (pre ++ h :: conts ++ a :: junk)
       = records decimal (pre ++ h :: conts ++ [a]).
Proof.
  intros Hd pre conts junk h a Hq Hc Ha Hj.
  apply Forall_forall in Hj.
  destruct (scan_after_answer decimal h a conts junk Hq Hc Ha Hj)
    as (st1 & st' & Hs1 & Hs' & F1 & F2 & F3 & F4).
  assert (Hcl : close_block st' = close_block st1).
  { unfold close_block. now rewrite F1, F2, F3. }
  assert (Hb : blocks decimal (pre ++ h :: conts ++ a :: junk)
               = blocks decimal (pre ++ h :: conts ++ [a])).
  { destruct (blocks_app_header decimal Hd pre (conts ++ a :: junk) h Hq)
      as (b1 & b2 & Hb1 & Hb2 & ->).
    destruct (blocks_app_header decimal Hd pre (conts ++ [a]) h Hq)
      as (c1 & c2 & Hc1 & Hc2 & ->).
    rewrite Hb1 in Hc1. injection Hc1 as <-.
    unfold blocks in Hb2, Hc2. rewrite Hs' in Hb2. rewrite Hs1 in Hc2.
    cbn [bind] in Hb2, Hc2. rewrite Hcl, Hc2 in Hb2.
    now injection Hb2 as <-. }
  split.
  - unfold generate_quiz_html. now rewrite Hb.
  - destruct (records_app_header decimal Hd pre (conts ++ a :: junk) h Hq)
      as (r1 & r2 & Hr1 & Hr2 & ->).
    destruct (records_app_header decimal Hd pre (conts ++ [a]) h Hq)
      as (s1 & s2 & Hs1' & Hs2' & ->).
    rewrite Hr1 in Hs1'. injection Hs1' as <-.
    unfold records in Hr2, Hs2'. rewrite Hs' in Hr2. rewrite Hs1 in Hs2'.
    cbn [bind] in Hr2, Hs2'. rewrite F4 in Hr2. rewrite Hs2' in Hr2.
    now injection Hr2 as <-.
Qed.

(** A second answer line and a stray option after the answer. *)
Lemma lines_after_answer_are_dropped_witness :
  generate_quiz_html ascii_decimal
    ([] ++ lit "1. Why?"
        :: [lit "A. x"; lit "B. y"]
        ++ (answer_marker ++ lit " A. x")
        :: [answer_marker ++ lit " B. y"; lit "C. late"])
  = generate_quiz_html ascii_decimal
      ([] ++ lit "1. Why?"
          :: [lit "A. x"; lit "B. y"] ++ [answer_marker ++ lit " A. x"]).
Proof.
  apply (lines_after_answer_are_dropped ascii_decimal ascii_decimal_unicode
           [] [lit "A. x"; lit "B. y"]
           [answer_marker ++ lit " B. y"; lit "C. late"]
           (lit "1. Why?") (answer_marker ++ lit " A. x")).
  - reflexivity.
  - repeat constructor.
  - reflexivity.
  - intros l [<-|[<-|[]]]; reflexivity.
Defined.

(** ** The answer text *)

Lemma answer_marker_split (rest : str) :
  split1 colon (answer_marker ++ rest)
  = ([226; 339; 8230] ++ lit " Answer", Some rest).
Proof.
  change (answer_marker ++ rest)
    with (([226; 339; 8230] ++ lit " Answer") ++ colon :: rest).
  apply split1_app. vm_compute. intuition discriminate.
Qed.

(** The test on the answer text never fails on a trimmed text that is not
    empty. *)
Lemma match_answer_strip (s : str) :
  match_answer (strip s) = false -> strip s = [].
Proof.
  pose proof (strip_head s) as Hh.
  destruct (strip s) as [|c t]; [reflexivity|].
  unfold match_answer. intros H. apply orb_false_iff in H as [_ H].
  cbn [match_dot_plus] in H. apply negb_false_iff in H.
  apply N.eqb_eq in H. subst c. discriminate.
Qed.

Lemma answer_of_marker (a rest : str) :
  strip a = answer_marker ++ rest -> answer_of a = strip rest.
Proof.
  intros E. unfold answer_of. rewrite E, answer_marker_split.
  cbn [part_last snd].
  destruct (match_answer (strip rest)) eqn:Hm; [reflexivity|].
  symmetry. now apply match_answer_strip.
Qed.

(** X5.  The answer of a record is the answer line after its marker,
    trimmed: the test on the answer text changes nothing. *)
Theorem answer_is_text_after_marker (decimal : char -> bool) :
  unicode_decimal decimal ->
  forall (pre conts post : list str) (h a rest : str),
    match_question decimal (strip h) = true ->
    Forall (fun l => match_boundary decimal (strip l) = false) conts ->
    strip a = answer_marker ++ rest ->
    exists rs_pre q rs_post,
      records decimal pre = Return rs_pre
      /\ records decimal (pre ++ h :: conts ++ a :: post)
         = Return (rs_pre ++ q :: rs_post)
      /\ answer q = strip rest.
Proof.
  intros Hd pre conts post h a rest Hq Hc Ea.
  assert (Ha : startswith (strip a) answer_marker = true)
    by (rewrite Ea; apply startswith_app).
  destruct (records_head decimal h conts (a :: post) Hq Hc)
    as (q & more & Hr & _ & _ & Hans).
  { now apply answer_is_boundary. }
  rewrite Ha in Hans.
  destruct (records_app_header decimal Hd pre (conts ++ a :: post) h Hq)
    as (rs_pre & rs & Hrp & Hrs & Hall).
  rewrite Hr in Hrs. injection Hrs as <-.
  exists rs_pre, q, more. repeat split; try assumption.
  rewrite Hans. now apply answer_of_marker.
Qed.

(** An answer with spaces around it. *)
Lemma answer_is_text_after_marker_witness :
  exists rs_pre q rs_post,
    records ascii_decimal [] = Return rs_pre
    /\ records ascii_decimal
         ([] ++ lit "1. Why?" :: [lit "A. x"]
             ++ (answer_marker ++ lit "   A. x  ") :: [lit "2. How?"])
       = Return (rs_pre ++ q :: rs_post)
    /\ answer q = strip (lit "   A. x").
Proof.
  apply (answer_is_text_after_marker ascii_decimal ascii_decimal_unicode
           [] [lit "A. x"] [lit "2. How?"] (lit "1. Why?")
           (answer_marker ++ lit "   A. x  ") (lit "   A. x")).
  - reflexivity.
  - repeat constructor.
  - reflexivity.
Defined.

(** ** One record for each header line *)

(** X6.  There is one record for each header line of the input, in order,
    and its number is the label of that line: what precedes its first
    period. *)
Theorem one_record_per_header (decimal : char -> bool) :
  unicode_decimal decimal ->
  forall lines, exists rs,
    records decimal lines = Return rs
    /\ map number rs = header_labels decimal lines.
Proof.
  intros Hd lines.
  remember (length lines) as n eqn:Hn. revert lines Hn.
  induction n as [n IH] using lt_wf_ind. intros lines Hn.
  destruct (split_at_last_header decimal lines)
    as [Hall|(pre & h & rest & -> & Hh & Hrest)].
  - exists []. rewrite (records_none decimal lines Hall).
    now rewrite (header_labels_none decimal lines Hall).
  - destruct (IH (length pre)) with (lines := pre) as (rs_pre & Hrp & Hlp).
    { subst n. rewrite length_app. cbn [length]. lia. }
    { reflexivity. }
    destruct (records_single decimal h rest Hh Hrest) as (q & Hq & Hnq).
    destruct (records_app_header decimal Hd pre rest h Hh)
      as (r1 & r2 & Hr1 & Hr2 & Hall).
    rewrite Hrp in Hr1. injection Hr1 as <-.
    rewrite Hq in Hr2. injection Hr2 as <-.
    exists (rs_pre ++ [q]). split; [exact Hall|].
    rewrite map_app, Hlp.
    change (h :: rest) with ([h] ++ rest).
    rewrite !header_labels_app.
    rewrite (header_labels_none decimal rest Hrest), app_nil_r.
    f_equal. unfold header_labels. cbn [map filter].
    rewrite Hh. cbn [map]. now rewrite Hnq.
Qed.

(** Three headers among other lines. *)
Lemma one_record_per_header_witness :
  exists rs,
    records ascii_decimal
      [lit "B. stray"; lit "1. Why?"; lit "12. How?"; lit "A. x";
       answer_marker ++ lit " A. x"; lit "3. A. y"]
    = Return rs
    /\ map number rs
       = header_labels ascii_decimal
           [lit "B. stray"; lit "1. Why?"; lit "12. How?"; lit "A. x";
            answer_marker ++ lit " A. x"; lit "3. A. y"].
Proof.
  exact (one_record_per_header ascii_decimal ascii_decimal_unicode
           [lit "B. stray"; lit "1. Why?"; lit "12. How?"; lit "A. x";
            answer_marker ++ lit " A. x"; lit "3. A. y"]).
Defined.

(** X7.  The input can be cut before any question header: the blocks and
    the records of the whole are those of the part before the header, as
    if the input ended there, followed by those of the part that starts
    with it. *)
Theorem input_splits_at_header (decimal : char -> bool) :
  unicode_decimal decimal ->
  forall (pre rest : list str) (h : str),
    match_question decimal (strip h) = true ->
    exists bs1 bs2 rs1 rs2,
      blocks decimal pre = Return bs1
      /\ blocks decimal (h :: rest) = Return bs2
      /\ blocks decimal (pre ++ h :: rest) = Return (bs1 ++ bs2)
      /\ records decimal pre = Return rs1
      /\ records decimal (h :: rest) = Return rs2
      /\ records decimal (pre ++ h :: rest) = Return (rs1 ++ rs2).
Proof.
  intros Hd pre rest h Hq.
  destruct (blocks_app_header decimal Hd pre rest h Hq)
    as (bs1 & bs2 & H1 & H2 & H3).
  destruct (records_app_header decimal Hd pre rest h Hq)
    as (rs1 & rs2 & H4 & H5 & H6).
  exists bs1, bs2, rs1, rs2. repeat split; assumption.
Qed.

(** A question without answer, then a complete one. *)
Lemma input_splits_at_header_witness :
  exists bs1 bs2 rs1 rs2,
    blocks ascii_decimal [lit "1. Why?"; lit "A. x"] = Return bs1
    /\ blocks ascii_decimal
         (lit "2. How?" :: [lit "A. y"; answer_marker ++ lit " A. y"])
       = Return bs2
    /\ blocks ascii_decimal
         ([lit "1. Why?"; lit "A. x"]
            ++ lit "2. How?" :: [lit "A. y"; answer_marker ++ lit " A. y"])
       = Return (bs1 ++ bs2)
    /\ records ascii_decimal [lit "1. Why?"; lit "A. x"] = Return rs1
    /\ records ascii_decimal
         (lit "2. How?" :: [lit "A. y"; answer_marker ++ lit " A. y"])
       = Return rs2
    /\ records ascii_decimal
         ([lit "1. Why?"; lit "A. x"]
            ++ lit "2. How?" :: [lit "A. y"; answer_marker ++ lit " A. y"])
       = Return (rs1 ++ rs2).
Proof.
  apply (input_splits_at_header ascii_decimal ascii_decimal_unicode
           [lit "1. Why?"; lit "A. x"]
           [lit "A. y"; answer_marker ++ lit " A. y"] (lit "2. How?")).
  reflexivity.
Defined.

(** ** Replacing in a string *)

Section Replace.

Variables old new : str.

Lemma replace_skip_skipn (k : nat) (s : str) :
  replace_skip old new k s = replace_skip old new 0 (skipn k s).
Proof.
  revert k. induction s as [|c s IH]; intros k.
  - now destruct k.
  - destruct k as [|k]; [reflexivity|]. cbn [replace_skip skipn]. apply IH.
Qed.

Hypothesis old_nonempty : old <> [].

Lemma replace_skip_match (s : str) :
  startswith s old = true ->
  replace_skip old new 0 s
  = new ++ replace_skip old new 0 (skipn (length old) s).
Proof.
  intros H. destruct s as [|c s].
  - destruct old as [|a o]; [congruence | discriminate].
  - cbn [replace_skip]. rewrite H, replace_skip_skipn.
    destruct old as [|a o]; [congruence|].
    replace (length (a :: o) - 1)%nat with (length o)
      by (cbn [length]; lia).
    reflexivity.
Qed.

Lemma replace_skip_keep (c : char) (s : str) :
  startswith (c :: s) old = false ->
  replace_skip old new 0 (c :: s) = c :: replace_skip old new 0 s.
Proof. intros H. cbn [replace_skip]. now rewrite H. Qed.

(** The characters of [new] are foreign to the pattern looked for. *)
Variable p : str.
Hypothesis new_nonempty : new <> [].
Hypothesis new_foreign : forall c, In c p -> ~ In c new.

(** A prefix of the result made of characters foreign to [new] is a prefix
    of the string, and [old] does not start where it starts. *)
Lemma startswith_replace (q s : str) :
  incl q p -> q <> [] ->
  startswith (replace_skip old new 0 s) q = true ->
  startswith s q = true /\ startswith s old = false.
Proof.
  revert s. induction q as [|a q IH]; intros s Hq Hne H; [congruence|].
  destruct (startswith s old) eqn:Ho.
  - exfalso. rewrite (replace_skip_match s Ho) in H.
    destruct new as [|b n]; [congruence|].
    cbn [app startswith] in H. apply andb_true_iff in H as [H _].
    apply N.eqb_eq in H. subst b.
    apply (new_foreign a); [apply Hq|]; now left.
  - destruct s as [|c s]; [discriminate|].
    rewrite (replace_skip_keep c s Ho) in H.
    cbn [startswith] in H |- *. apply andb_true_iff in H as [Hc H].
    rewrite Hc. split; [|reflexivity]. cbn [andb].
    destruct q as [|a' q]; [apply startswith_nil|].
    apply (IH s); [|discriminate|exact H].
    intros x Hx. apply Hq. now right.
Qed.

(** An occurrence of such a pattern in the result is an occurrence in the
    string, at a place where [old] does not start. *)
Lemma occurrence_in_replace (n : nat) :
  p <> [] ->
  forall (s : str) (k : nat),
    (length s <= n)%nat ->
    startswith (skipn k (replace_skip old new 0 s)) p = true ->
    exists j, startswith (skipn j s) p = true
              /\ startswith (skipn j s) old = false.
Proof.
  intros Hp. induction n as [n IH] using lt_wf_ind. intros s k Hn H.
  destruct k as [|k].
  - exists 0%nat. cbn [skipn] in *.
    apply (startswith_replace p s); [apply incl_refl | exact Hp | exact H].
  - destruct (startswith s old) eqn:Ho.
    + rewrite (replace_skip_match s Ho) in H.
      destruct (Nat.lt_ge_cases (S k) (length new)) as [Hlt|Hge].
      * exfalso. rewrite skipn_app in H.
        replace (S k - length new)%nat with 0%nat in H by lia.
        rewrite skipn_O in H.
        destruct (skipn (S k) new) as [|b r] eqn:E.
        { apply (f_equal (@length char)) in E.
          rewrite length_skipn in E. cbn in E. lia. }
        destruct p as [|a p']; [congruence|].
        cbn [app startswith] in H. apply andb_true_iff in H as [H _].
        apply N.eqb_eq in H. subst b.
        apply (new_foreign a); [now left|].
        rewrite <- (firstn_skipn (S k) new), E.
        apply in_or_app. right. now left.
      * rewrite skipn_app, skipn_all2 in H by exact Hge.
        cbn [app] in H.
        assert (Hlen : (length (skipn (length old) s) < length s)%nat).
        { rewrite length_skipn.
          destruct old as [|a o]; [congruence|].
          destruct s as [|c s]; [discriminate|]. cbn [length]. lia. }
        destruct (IH (length (skipn (length old) s)) ltac:(lia)
                    (skipn (length old) s) (S k - length new)%nat
                    (Nat.le_refl _) H) as (j & Hj1 & Hj2).
        exists (length old + j)%nat.
        rewrite Nat.add_comm, <- skipn_skipn. auto.
    + destruct s as [|c s]; [now destruct p|].
      rewrite (replace_skip_keep c s Ho) in H. cbn [skipn] in H.
      destruct (IH (length s) ltac:(cbn [length] in Hn; lia) s k
                  (Nat.le_refl _) H) as (j & Hj1 & Hj2).
      exists (S j). cbn [skipn]. auto.
Qed.

End Replace.

(** No occurrence of [p]: [find] gives -1. *)
Lemma find_absent (s p : str) :
  (forall k, startswith (skipn k s) p = false) -> find s p = (-1)%Z.
Proof. intros H. apply find_from_absent. intros k _. apply H. Qed.

(** X8.  The preview of the quiz markup holds no bold tag: neither "<b>"
    nor "</b>" is left once both are replaced by "**". *)
Theorem preview_has_no_bold_tag (quiz_html_content : str) :
  find (preview quiz_html_content) (lit "<b>") = (-1)%Z
  /\ find (preview quiz_html_content) (lit "</b>") = (-1)%Z.
Proof.
  assert (Ho : lit "<b>" <> []) by (intros E; discriminate E).
  assert (Hc : lit "</b>" <> []) by (intros E; discriminate E).
  assert (Hs : lit "**" <> []) by (intros E; discriminate E).
  assert (Fo : forall c, In c (lit "<b>") -> ~ In c (lit "**")).
  { intros c [<-|[<-|[<-|[]]]] [E|[E|[]]]; discriminate E. }
  assert (Fc : forall c, In c (lit "</b>") -> ~ In c (lit "**")).
  { intros c [<-|[<-|[<-|[<-|[]]]]] [E|[E|[]]]; discriminate E. }
  unfold preview.
  set (r1 := replace quiz_html_content (lit "<b>") (lit "**")).
  assert (H1 : forall k, startswith (skipn k r1) (lit "<b>") = false).
  { intros k. destruct (startswith (skipn k r1) (lit "<b>")) eqn:E;
      [|reflexivity].
    destruct (occurrence_in_replace (lit "<b>") (lit "**") Ho (lit "<b>")
                Hs Fo (length quiz_html_content) Ho quiz_html_content k
                (Nat.le_refl _) E) as (j & Hj1 & Hj2).
    congruence. }
  split; apply find_absent; intros k.
  - destruct (startswith
                (skipn k (replace r1 (lit "</b>") (lit "**")))
                (lit "<b>")) eqn:E; [|reflexivity].
    destruct (occurrence_in_replace (lit "</b>") (lit "**") Hc (lit "<b>")
                Hs Fo (length r1) Ho r1 k (Nat.le_refl _) E)
      as (j & Hj1 & _).
    rewrite H1 in Hj1. discriminate.
  - destruct (startswith
                (skipn k (replace r1 (lit "</b>") (lit "**")))
                (lit "</b>")) eqn:E; [|reflexivity].
    destruct (occurrence_in_replace (lit "</b>") (lit "**") Hc (lit "</b>")
                Hs Fc (length r1) Hc r1 k (Nat.le_refl _) E)
      as (j & Hj1 & Hj2).
    congruence.
Qed.

(** ** The fields of a record *)

Lemma strip_trimmed (s : str) : trimmed (strip s).
Proof. apply strip_idempotent. Qed.

Lemma regroup_step_trimmed (acc : list str * str) (item : str) :
  Forall trimmed (fst acc) -> Forall trimmed (fst (regroup_step acc item)).
Proof.
  destruct acc as [final temp]. unfold regroup_step. cbn [fst].
  intros H. destruct (match_option item); cbn [fst]; [|exact H].
  destruct (nonempty temp); [|exact H].
  apply Forall_app. split; [exact H|].
  constructor; [apply strip_trimmed | constructor].
Qed.

Lemma fold_regroup_trimmed (items : list str) (acc : list str * str) :
  Forall trimmed (fst acc) ->
  Forall trimmed (fst (fold_left regroup_step items acc)).
Proof.
  revert acc. induction items as [|x items IH]; intros acc H; [exact H|].
  cbn [fold_left]. apply IH. now apply regroup_step_trimmed.
Qed.

Lemma segment_options_trimmed (options_block : str) :
  Forall trimmed (segment_options options_block).
Proof.
  unfold segment_options.
  pose proof (fold_regroup_trimmed (split_BD options_block) ([], [])
                (Forall_nil _)) as H.
  destruct (fold_left regroup_step (split_BD options_block) ([], []))
    as [final temp].
  cbn [fst] in H. destruct (nonempty temp); [|exact H].
  apply Forall_app. split; [exact H|].
  constructor; [apply strip_trimmed | constructor].
Qed.

Lemma split_question_trimmed (block q_text : str) (opts : list str) :
  split_question block = Return (q_text, opts) ->
  trimmed q_text /\ Forall trimmed opts.
Proof.
  unfold split_question. intros H.
  destruct (negb (find block (lit "A.") =? -1)%Z);
    destruct (part1 (split1 dot block)) as [after|]; try discriminate;
    injection H as <- <-.
  - split; [apply strip_trimmed | apply segment_options_trimmed].
  - split; [apply strip_trimmed | constructor].
Qed.

Lemma answer_of_trimmed (l : str) : trimmed (answer_of l).
Proof.
  unfold answer_of. destruct (match_answer _);
    [apply strip_trimmed | reflexivity].
Qed.

(** X9.  Every string of every record is trimmed: the number, the text,
    each option and the answer have no white space at either end. *)
Theorem record_fields_are_trimmed (decimal : char -> bool)
  (lines : list str) :
  exists rs,
    records decimal lines = Return rs
    /\ Forall (fun q => trimmed (number q) /\ trimmed (text q)
                        /\ Forall trimmed (options q)
                        /\ trimmed (answer q)) rs.
Proof.
  destruct (scan_total decimal lines) as (st & Hs & _ & _).
  exists (emitted st). unfold records. rewrite Hs. split; [reflexivity|].
  apply (emitted_invariant decimal lines
           (fun q => trimmed (number q) /\ trimmed (text q)
                     /\ Forall trimmed (options q) /\ trimmed (answer q)))
    with (st' := st); [|exact Hs].
  intros raw rest s s' Hq Hh q He.
  apply on_header_spec in Hh.
  destruct Hh as (html1 & block & n & rest' & q' & _ & _ & Hsq & Hn & _
                  & _ & _ & He' & Ha).
  rewrite He in He'. apply app_inv_head in He'. injection He' as <-.
  destruct (split_question_trimmed _ _ _ Hsq) as [Ht Ho].
  repeat split; try assumption.
  - rewrite Hn. apply strip_trimmed.
  - destruct rest' as [|l rest'']; [|destruct (startswith _ _)];
      destruct Ha as [-> _]; try reflexivity.
    apply answer_of_trimmed.
Qed.

(** X10.  No option of a record is empty, so the test [if opt:] of the
    rendering loop never drops one: a record gives one block for each of
    its options. *)
Theorem options_are_never_empty (decimal : char -> bool)
  (lines : list str) :
  exists rs,
    records decimal lines = Return rs
    /\ Forall (fun q => Forall (fun o => o <> []) (options q)
                        /\ option_blocks (options q)
                           = map option_html (options q)) rs.
Proof.
  destruct (scan_total decimal lines) as (st & Hs & _ & _).
  exists (emitted st). unfold records. rewrite Hs. split; [reflexivity|].
  apply (emitted_invariant decimal lines
           (fun q => Forall (fun o => o <> []) (options q)
                     /\ option_blocks (options q)
                        = map option_html (options q)))
    with (st' := st); [|exact Hs].
  intros raw rest s s' Hq Hh q He.
  apply on_header_spec in Hh.
  destruct Hh as (html1 & block & n & rest' & q' & _ & _ & Hsq & _ & _
                  & _ & _ & He' & _).
  rewrite He in He'. apply app_inv_head in He'. injection He' as <-.
  assert (Hl : Forall lettered (options q)).
  { destruct (split_question_cases _ _ _ Hsq)
      as [(_ & -> & _)|(_ & u & ->)]; [constructor|].
    apply segment_options_lettered. }
  split.
  - revert Hl. apply Forall_impl. intros o (c & tl & -> & _). discriminate.
  - unfold option_blocks. f_equal.
    revert Hl. generalize (options q). intros os Hl.
    induction Hl as [|o os (c & tl & -> & _) _ IH]; [reflexivity|].
    cbn [filter nonempty]. now rewrite IH.
Qed.

(** ** The classifier, once more *)

Section ClassifierAgain.

Variable decimal : char -> bool.
Variable lower : str -> str.

Lemma filter_all {A} (f : A -> bool) (l : list A) :
  Forall (fun x => f x = true) l -> filter f l = l.
Proof.
  induction 1 as [|x l Hx _ IH]; [reflexivity|].
  cbn [filter]. now rewrite Hx, IH.
Qed.

Lemma map_fixed {A} (f : A -> A) (l : list A) :
  Forall (fun x => f x = x) l -> map f l = l.
Proof.
  induction 1 as [|x l Hx _ IH]; [reflexivity|].
  cbn [map]. now rewrite Hx, IH.
Qed.

Lemma extract_filter (paragraphs : list str) :
  Classifier.extract_quiz_content_from_docx decimal lower paragraphs
  = filter (Classifier.quiz_line decimal lower)
      (filter nonempty (map strip paragraphs)).
Proof.
  unfold Classifier.extract_quiz_content_from_docx.
  now rewrite classify_loop_filter.
Qed.

(** The lines the classifier keeps. *)
Lemma extract_kept (paragraphs : list str) :
  Forall (fun l => trimmed l /\ nonempty l = true
                   /\ Classifier.quiz_line decimal lower l = true)
    (Classifier.extract_quiz_content_from_docx decimal lower paragraphs).
Proof.
  rewrite extract_filter. apply Forall_forall. intros l Hl.
  apply filter_In in Hl as [Hl Hq]. apply filter_In in Hl as [Hl Hne].
  apply in_map_iff in Hl as (p & <- & _).
  repeat split; try assumption. apply strip_trimmed.
Qed.

End ClassifierAgain.

(** X11.  The classifier changes nothing in its own output: the lines it
    keeps are trimmed, not empty and of a known shape, and classifying
    them again gives them back. *)
Theorem classifier_is_idempotent (decimal : char -> bool)
  (lower : str -> str) (paragraphs : list str) :
  let kept :=
    Classifier.extract_quiz_content_from_docx decimal lower paragraphs in
  Classifier.extract_quiz_content_from_docx decimal lower kept = kept
  /\ Forall (fun l => strip l = l /\ l <> []) kept.
Proof.
  cbv zeta. pose proof (extract_kept decimal lower paragraphs) as Hk.
  split.
  - rewrite (extract_filter decimal lower
               (Classifier.extract_quiz_content_from_docx decimal lower
                  paragraphs)).
    rewrite map_fixed by (revert Hk; apply Forall_impl; tauto).
    rewrite (filter_all nonempty)
      by (revert Hk; apply Forall_impl; tauto).
    apply filter_all. revert Hk. apply Forall_impl. tauto.
  - revert Hk. apply Forall_impl. intros l (Ht & Hne & _).
    split; [exact Ht|]. now destruct l.
Qed.

(** X12.  The classifier keeps no memory from one paragraph to the next: the
    lines of two documents put end to end are the lines of the first
    followed by the lines of the second. *)
Theorem classifier_distributes_over_append (decimal : char -> bool)
  (lower : str -> str) (paragraphs1 paragraphs2 : list str) :
  Classifier.extract_quiz_content_from_docx decimal lower
    (paragraphs1 ++ paragraphs2)
  = Classifier.extract_quiz_content_from_docx decimal lower paragraphs1
    ++ Classifier.extract_quiz_content_from_docx decimal lower paragraphs2.
Proof.
  rewrite !extract_filter. now rewrite map_app, !filter_app.
Qed.

(** ** The conversion *)

Section Conversion.

Variable decimal : char -> bool.
Variable lower : str -> str.

Lemma extract_In (paragraphs : list str) (l : str) :
  In l (Classifier.extract_quiz_content_from_docx decimal lower paragraphs)
  <-> exists para, In para paragraphs /\ l = strip para
                   /\ recognised decimal lower para = true.
Proof.
  rewrite extract_filter. unfold recognised. split.
  - intros H. apply filter_In in H as [H Hq].
    apply filter_In in H as [H Hne].
    apply in_map_iff in H as (para & <- & Hin).
    exists para. rewrite Hne, Hq. auto.
  - intros (para & Hin & -> & H). apply andb_true_iff in H as [Hne Hq].
    apply filter_In. split; [|exact Hq].
    apply filter_In. split; [|exact Hne].
    now apply in_map.
Qed.

Lemma extract_nil_iff (paragraphs : list str) :
  Classifier.extract_quiz_content_from_docx decimal lower paragraphs = []
  <-> forall para, In para paragraphs ->
        recognised decimal lower para = false.
Proof.
  split.
  - intros E para Hin.
    destruct (recognised decimal lower para) eqn:Hr; [|reflexivity].
    assert (H : In (strip para)
                  (Classifier.extract_quiz_content_from_docx decimal lower
                     paragraphs))
      by (apply extract_In; now exists para).
    rewrite E in H. contradiction.
  - intros H.
    destruct (Classifier.extract_quiz_content_from_docx decimal lower
                paragraphs) as [|l K] eqn:E; [reflexivity|].
    assert (Hl : In l (Classifier.extract_quiz_content_from_docx decimal
                         lower paragraphs)) by (rewrite E; now left).
    apply extract_In in Hl as (para & Hin & _ & Hr).
    rewrite (H para Hin) in Hr. discriminate.
Qed.

Lemma blocks_none (lines : list str) :
  Forall (fun l => match_question decimal (strip l) = false) lines ->
  blocks decimal lines = Return [].
Proof.
  intros H.
  destruct (run_skips decimal lines init H) as (st & Hr & Hh & _ & Hb & _).
  unfold blocks. rewrite scan_run, Hr. cbn [bind].
  unfold close_block. now rewrite Hb, Hh.
Qed.

(** [main] on the lines the classifier kept, when it kept some. *)
Lemma main_converted (paragraphs : list str) :
  Classifier.extract_quiz_content_from_docx decimal lower paragraphs <> []
  ->
  main decimal lower (Some paragraphs)
  = bind (generate_quiz_html decimal
            (Classifier.extract_quiz_content_from_docx decimal lower
               paragraphs))
      (fun quiz_html_content =>
         Return (Converted (generate_full_html_template quiz_html_content)
                   (preview quiz_html_content))).
Proof.
  intros H. unfold main, read_quiz_content.
  destruct (Classifier.extract_quiz_content_from_docx decimal lower
              paragraphs); [congruence | reflexivity].
Qed.

End Conversion.

(** X13.  [main] ends on the warning exactly when the file cannot be read or
    none of its paragraphs is recognised by the classifier; it never
    raises. *)
Theorem main_warns_iff_nothing_recognised (decimal : char -> bool)
  (lower : str -> str) (document : option (list str)) :
  (exists r, main decimal lower document = Return r)
  /\ (main decimal lower document = Return CouldNotExtract
      <-> match document with
          | None => True
          | Some paragraphs =>
              forall para, In para paragraphs ->
                recognised decimal lower para = false
          end).
Proof.
  destruct document as [paragraphs|].
  2:{ split; [now exists CouldNotExtract | tauto]. }
  destruct (Classifier.extract_quiz_content_from_docx decimal lower
              paragraphs) as [|l K] eqn:E.
  - assert (Hm : main decimal lower (Some paragraphs)
                 = Return CouldNotExtract)
      by (unfold main, read_quiz_content; now rewrite E).
    split; [now exists CouldNotExtract|].
    split; [|intros _; exact Hm].
    intros _. now apply (proj1 (extract_nil_iff decimal lower paragraphs)).
  - assert (Hne : Classifier.extract_quiz_content_from_docx decimal lower
                    paragraphs <> []) by (rewrite E; discriminate).
    rewrite (main_converted decimal lower paragraphs Hne).
    destruct (blocks_total decimal
                (Classifier.extract_quiz_content_from_docx decimal lower
                   paragraphs)) as (st & bs & _ & _ & Hb).
    unfold generate_quiz_html. rewrite Hb. cbn [bind].
    split; [eexists; reflexivity|].
    split; [discriminate|].
    intros H.
    apply (proj2 (extract_nil_iff decimal lower paragraphs)) in H.
    congruence.
Qed.

(** X14.  When some paragraph is recognised, the page is the template with,
    in its place, two newlines and the blocks of the records of the kept
    lines, one per line. *)
Theorem page_is_template_around_rendering (decimal : char -> bool)
  (lower : str -> str) (paragraphs : list str) :
  (exists para, In para paragraphs
                /\ recognised decimal lower para = true) ->
  exists rs,
    records decimal
      (Classifier.extract_quiz_content_from_docx decimal lower paragraphs)
    = Return rs
    /\ main decimal lower (Some paragraphs)
       = Return
           (Converted
              (template_head
               ++ ([newline; newline]
                   ++ join [newline] (flat_map render rs))
               ++ template_tail)
              (preview ([newline; newline]
                        ++ join [newline] (flat_map render rs)))).
Proof.
  intros (para & Hin & Hr).
  assert (Hne : Classifier.extract_quiz_content_from_docx decimal lower
                  paragraphs <> []).
  { intros E.
    rewrite (proj1 (extract_nil_iff decimal lower paragraphs) E para Hin)
      in Hr.
    discriminate. }
  rewrite (main_converted decimal lower paragraphs Hne).
  destruct (scan_total decimal
              (Classifier.extract_quiz_content_from_docx decimal lower
                 paragraphs)) as (st & Hs & _ & _).
  exists (emitted st).
  pose proof (close_block_rendered st (scan_rendered decimal _ st Hs))
    as Hc.
  unfold generate_quiz_html, blocks, records. rewrite Hs. cbn [bind].
  rewrite Hc. cbn [bind]. auto.
Qed.

(** A document with a title, a question and its answer. *)
Lemma page_is_template_around_rendering_witness :
  exists rs,
    records ascii_decimal
      (Classifier.extract_quiz_content_from_docx ascii_decimal
         (fun s => s)
         [lit "Quiz"; lit " 1. Why? "; lit "A. x";
          answer_marker ++ lit " A. x"])
    = Return rs
    /\ main ascii_decimal (fun s => s)
         (Some [lit "Quiz"; lit " 1. Why? "; lit "A. x";
                answer_marker ++ lit " A. x"])
       = Return
           (Converted
              (template_head
               ++ ([newline; newline]
                   ++ join [newline] (flat_map render rs))
               ++ template_tail)
              (preview ([newline; newline]
                        ++ join [newline] (flat_map render rs)))).
Proof.
  apply (page_is_template_around_rendering ascii_decimal (fun s => s)
           [lit "Quiz"; lit " 1. Why? "; lit "A. x";
            answer_marker ++ lit " A. x"]).
  exists (lit "A. x"). split; [cbn; tauto | reflexivity].
Defined.

(** X15.  A document in which paragraphs are recognised but none is a
    question header is converted all the same: the page is the template
    around two newlines, with no question in it. *)
Theorem headerless_document_gives_empty_page (decimal : char -> bool)
  (lower : str -> str) (paragraphs : list str) :
  (exists para, In para paragraphs
                /\ recognised decimal lower para = true) ->
  (forall para, In para paragraphs ->
     match_question decimal (strip para) = false) ->
  main decimal lower (Some paragraphs)
  = Return (Converted
              (template_head ++ [newline; newline] ++ template_tail)
              [newline; newline]).
Proof.
  intros (para & Hin & Hr) Hno.
  assert (Hne : Classifier.extract_quiz_content_from_docx decimal lower
                  paragraphs <> []).
  { intros E.
    rewrite (proj1 (extract_nil_iff decimal lower paragraphs) E para Hin)
      in Hr.
    discriminate. }
  rewrite (main_converted decimal lower paragraphs Hne).
  assert (Hb : blocks decimal
                 (Classifier.extract_quiz_content_from_docx decimal lower
                    paragraphs) = Return []).
  { apply blocks_none. apply Forall_forall. intros l Hl.
    apply extract_In in Hl as (p & Hp & -> & _).
    rewrite strip_idempotent. now apply Hno. }
  unfold generate_quiz_html. rewrite Hb. reflexivity.
Qed.

(** Options and an answer, but no question. *)
Lemma headerless_document_gives_empty_page_witness :
  main ascii_decimal (fun s => s)
    (Some [lit "Quiz"; lit "A. x"; answer_marker ++ lit " A. x"])
  = Return (Converted
              (template_head ++ [newline; newline] ++ template_tail)
              [newline; newline]).
Proof.
  apply (headerless_document_gives_empty_page ascii_decimal (fun s => s)
           [lit "Quiz"; lit "A. x"; answer_marker ++ lit " A. x"]).
  - exists (lit "A. x"). split; [cbn; tauto | reflexivity].
  - intros para [<-|[<-|[<-|[]]]]; reflexivity.
Defined.
